(** * Azure DevOps pull-request helper: a shallow embedding

    The development follows [src/azureDevOps.ts] (class [AzureDevOpsHelper])
    and, for the diff synthesizer, [GenerateUnifiedDiff] of
    [dotnet/AdoPrHelperMcp/Services/AzureDevOpsHelper.cs].

    - [Js]        the JavaScript built-ins the TypeScript code calls:
                  the regular-expression fragment of the two URL patterns,
                  [parseInt], [btoa], [String.prototype.replace],
                  [encodeURIComponent], object spread on header objects;
    - [Models]    the records of [src/models.ts];
    - [Async]     [async] functions as trees of suspension points, the
                  event log of a run, and [Promise.all];
    - [Ado]       the methods of [AzureDevOpsHelper];
    - [DotNet]    the unified-diff writer of the C# port;
    - [Spec]      the shapes the spec speaks of: URL shapes, credential
                  kinds, output units;
    - [Sample]    a small service on which the statements are exercised;
    - [Control]   [try]/[catch], and predicates on the runs of a program:
                  what it throws, what it asks for;
    - [Auth]      the token providers of [auth.ts];
    - [Tools]     the two tool handlers of [tools.ts];
    - [DotNetPort] the eligibility filter, the default headers, the
                  per-file task and the authenticator factory of the C#
                  port;
    - [DotNetTools] the tool handler of the C# port;
    - [Hunks]     line counts of a diff model;
    - [Scenarios] more sample services;
    - [Jsdiff]    [createPatch] of the npm package [diff], which the
                  TypeScript helper imports.

    JavaScript strings are modelled by [string]: a character stands for the
    UTF-16 code unit of the same number, so the model covers the strings
    whose code units are below 256.  Integer numbers (pull-request ids) are
    modelled by [N], line and offset numbers by [Z]. *)

From Stdlib Require Import Ascii String NArith ZArith DecimalString Lia.
From Stdlib Require Import DecimalFacts DecimalPos DecimalN.
From stdpp Require Import base option list strings numbers gmap.

Set Default Proof Using "Type".

(* ===================================================================== *)
(** * JavaScript built-ins *)
(* ===================================================================== *)

Module Js.

(** ** Characters *)

Definition code (c : ascii) : N := N_of_ascii c.

(** [\d] without the [u] flag is exactly [0-9]. *)
Definition is_digit (c : ascii) : bool :=
  (48 <=? code c)%N && (code c <=? 57)%N.

(** [.] without the [s] flag matches every code unit except the line
    terminators; below 256 these are LF and CR. *)
Definition is_line_terminator (c : ascii) : bool :=
  (code c =? 10)%N || (code c =? 13)%N.

(** [Canonicalize] of a pattern character under the [i] flag.  The
    patterns of this program contain ASCII characters only; an ASCII
    letter is mapped to its upper-case form, and the specification of
    [Canonicalize] never maps a code unit above 127 to one below 128, so
    for the comparison with a pattern character it is enough to fold the
    ASCII letters. *)
Definition canonicalize (c : ascii) : ascii :=
  if (97 <=? code c)%N && (code c <=? 122)%N
  then ascii_of_N (code c - 32)
  else c.

Definition char_eq_ci (p c : ascii) : bool :=
  Ascii.eqb (canonicalize p) (canonicalize c).

(** ** The regular-expression fragment

    Both URL patterns are a sequence of literal text, lazy capture groups
    [(.+?)] and a final greedy capture group [(\d+)], compiled with the
    [i] flag. *)

Inductive Atom :=
| Lit (text : string)      (* literal characters, compared modulo case *)
| LazyAny                  (* (.+?) *)
| Digits.                  (* (\d+) *)

Definition Pattern := list Atom.

(** [strip_prefix_ci l s]: [s] without its prefix [l], when [s] starts
    with [l] modulo case. *)
Fixpoint strip_prefix_ci (l s : string) : option string :=
  match l with
  | EmptyString => Some s
  | String p l' =>
      match s with
      | EmptyString => None
      | String c s' => if char_eq_ci p c then strip_prefix_ci l' s' else None
      end
  end.

(** The lazy group tries the shortest run first and grows it one
    character at a time while the rest of the pattern fails. *)
Fixpoint lazy_any (rest : string -> option (list string))
    (taken s : string) : option (list string) :=
  match s with
  | EmptyString => None
  | String c s' =>
      if is_line_terminator c then None
      else
        let taken' := taken +:+ String c EmptyString in
        match rest s' with
        | Some caps => Some (taken' :: caps)
        | None => lazy_any rest taken' s'
        end
  end.

(** The greedy group takes the longest run of digits first and gives
    characters back one at a time while the rest of the pattern fails. *)
Fixpoint greedy_digits (rest : string -> option (list string))
    (taken s : string) : option (list string) :=
  match s with
  | EmptyString => None
  | String c s' =>
      if is_digit c then
        let taken' := taken +:+ String c EmptyString in
        match greedy_digits rest taken' s' with
        | Some r => Some r
        | None =>
            match rest s' with
            | Some caps => Some (taken' :: caps)
            | None => None
            end
        end
      else None
  end.

(** Backtracking match of [pat] at the start of [s]; the result lists the
    captured groups in order. *)
Fixpoint exec_at (pat : Pattern) (s : string) : option (list string) :=
  match pat with
  | [] => Some []
  | Lit l :: pat' =>
      match strip_prefix_ci l s with
      | Some s' => exec_at pat' s'
      | None => None
      end
  | LazyAny :: pat' => lazy_any (exec_at pat') EmptyString s
  | Digits :: pat' => greedy_digits (exec_at pat') EmptyString s
  end.

(** [String.prototype.match] with a regular expression without the [g]
    flag: the match is tried at index 0, then 1, ... up to the end of the
    string, and the first index that matches wins. *)
Fixpoint regexp_match (pat : Pattern) (s : string) : option (list string) :=
  match exec_at pat s with
  | Some caps => Some caps
  | None =>
      match s with
      | EmptyString => None
      | String _ s' => regexp_match pat s'
      end
  end.

(** Equality of two texts modulo case, as the [i] flag has it. *)
Fixpoint eq_ci (l h : string) : bool :=
  match l, h with
  | EmptyString, EmptyString => true
  | String p l', String c h' => char_eq_ci p c && eq_ci l' h'
  | _, _ => false
  end.

Fixpoint all_chars (P : ascii -> bool) (s : string) : bool :=
  match s with
  | EmptyString => true
  | String c s' => P c && all_chars P s'
  end.

Definition nonempty (s : string) : bool :=
  match s with
  | EmptyString => false
  | String _ _ => true
  end.

(** What a match is, read off the pattern: [matches pat caps m] when the
    text [m] is the literals of [pat] modulo case, a non-empty run of
    non-terminator characters for each lazy group and a non-empty run of
    digits for the digit group, [caps] being the texts of the groups. *)
Inductive matches : Pattern -> list string -> string -> Prop :=
| matches_nil : matches [] [] EmptyString
| matches_Lit l t pat caps m :
    eq_ci l t = true ->
    matches pat caps m ->
    matches (Lit l :: pat) caps (t +:+ m)
| matches_LazyAny g pat caps m :
    nonempty g = true ->
    all_chars (fun c => negb (is_line_terminator c)) g = true ->
    matches pat caps m ->
    matches (LazyAny :: pat) (g :: caps) (g +:+ m)
| matches_Digits g pat caps m :
    nonempty g = true ->
    all_chars is_digit g = true ->
    matches pat caps m ->
    matches (Digits :: pat) (g :: caps) (g +:+ m).

(** ** [parseInt(s, 10)] on a run of decimal digits

    The only argument this program passes is the group [(\d+)], a
    non-empty run of digits, for which [parseInt] returns the number the
    digits denote (exactly, up to 2^53; the model keeps the exact value
    beyond). *)
Fixpoint parseInt_acc (acc : N) (s : string) : N :=
  match s with
  | EmptyString => acc
  | String c s' =>
      if is_digit c then parseInt_acc (10 * acc + (code c - 48))%N s'
      else acc
  end.

Definition parseInt (s : string) : N := parseInt_acc 0 s.

(** Template-literal rendering of an integer number. *)
Definition string_of_number (n : N) : string :=
  NilZero.string_of_uint (N.to_uint n).

(** ** [btoa]: base64 of a binary string *)

Definition b64_alphabet : string :=
  "ABCDEFGHIJKLMNOPQRSTUVWXYZabcdefghijklmnopqrstuvwxyz0123456789+/".

Definition b64_digit (n : N) : ascii :=
  match String.get (N.to_nat n) b64_alphabet with
  | Some c => c
  | None => "="%char
  end.

Fixpoint btoa (s : string) : string :=
  match s with
  | EmptyString => EmptyString
  | String a EmptyString =>
      let a := code a in
      String (b64_digit (N.shiftr a 2))
        (String (b64_digit (N.shiftl (N.land a 3) 4)) "==")
  | String a (String b EmptyString) =>
      let a := code a in
      let b := code b in
      String (b64_digit (N.shiftr a 2))
        (String (b64_digit (N.lor (N.shiftl (N.land a 3) 4) (N.shiftr b 4)))
           (String (b64_digit (N.shiftl (N.land b 15) 2)) "="))
  | String a (String b (String c rest)) =>
      let a := code a in
      let b := code b in
      let c := code c in
      String (b64_digit (N.shiftr a 2))
        (String (b64_digit (N.lor (N.shiftl (N.land a 3) 4) (N.shiftr b 4)))
           (String (b64_digit (N.lor (N.shiftl (N.land b 15) 2) (N.shiftr c 6)))
              (String (b64_digit (N.land c 63)) (btoa rest))))
  end.

(** ** [s.replace(pattern, '')] with a string pattern: the first
    occurrence of [pattern] is removed. *)
Fixpoint strip_prefix (l s : string) : option string :=
  match l with
  | EmptyString => Some s
  | String p l' =>
      match s with
      | EmptyString => None
      | String c s' => if Ascii.eqb p c then strip_prefix l' s' else None
      end
  end.

Fixpoint remove_first (pattern s : string) : string :=
  match strip_prefix pattern s with
  | Some s' => s'
  | None =>
      match s with
      | EmptyString => EmptyString
      | String c s' => String c (remove_first pattern s')
      end
  end.

(** ** [encodeURIComponent] *)

Definition hex_digit (n : N) : ascii :=
  match String.get (N.to_nat n) "0123456789ABCDEF" with
  | Some c => c
  | None => "0"%char
  end.

Definition percent (byte : N) : string :=
  String "%" (String (hex_digit (N.shiftr byte 4))
                (String (hex_digit (N.land byte 15)) EmptyString)).

(** The characters left as they are: [A-Z a-z 0-9 - _ . ! ~ * ' ( )]. *)
Definition uri_unreserved (c : ascii) : bool :=
  let n := code c in
  ((65 <=? n) && (n <=? 90) || (97 <=? n) && (n <=? 122)
   || (48 <=? n) && (n <=? 57))%N
  || existsb (N.eqb n) [45; 95; 46; 33; 126; 42; 39; 40; 41]%N.

(** Every other code unit is written as the percent-escaped bytes of its
    UTF-8 encoding: one byte below 128, two bytes from 128 to 255. *)
Fixpoint encodeURIComponent (s : string) : string :=
  match s with
  | EmptyString => EmptyString
  | String c s' =>
      let n := code c in
      (if uri_unreserved c then String c EmptyString
       else if (n <? 128)%N then percent n
       else percent (N.lor 192 (N.shiftr n 6))
              +:+ percent (N.lor 128 (N.land n 63)))
      +:+ encodeURIComponent s'
  end.

(** ** Truthiness of a [string | undefined] *)
Definition truthy (o : option string) : bool :=
  match o with
  | Some s => negb (String.eqb s EmptyString)
  | None => false
  end.

(** [o || ''] *)
Definition or_empty (o : option string) : string :=
  if truthy o then default EmptyString o else EmptyString.

(** ** Header objects

    An object literal used as a dictionary of headers: the keys in
    insertion order.  [spread a b] is [{...a, ...b}]: the keys of [a] keep
    their position and take the value [b] gives them, the other keys of
    [b] follow. *)
Definition Headers := list (string * string).

Fixpoint get (k : string) (h : Headers) : option string :=
  match h with
  | [] => None
  | (k', v) :: h' => if String.eqb k k' then Some v else get k h'
  end.

Fixpoint set (k v : string) (h : Headers) : Headers :=
  match h with
  | [] => [(k, v)]
  | (k', v') :: h' =>
      if String.eqb k k' then (k', v) :: h' else (k', v') :: set k v h'
  end.

Definition spread (a b : Headers) : Headers :=
  fold_left (fun acc kv => set (fst kv) (snd kv) acc) b a.

End Js.

(* ===================================================================== *)
(** * The records of [src/models.ts] *)
(* ===================================================================== *)

Module Models.

Record PrInfo := {
  organization : string;
  project : string;
  repository : string;
  pullRequestId : N;
}.

(** The code reads every field of the decoded response through [?.], so
    each of them may be [undefined]; a response that decodes to [null]
    behaves like the record with all fields [None]. *)
Record PullRequest := {
  pr_pullRequestId : option N;
  status : option string;
  mergeStatus : option string;
  sourceRefName : option string;
  targetRefName : option string;
}.

Record GitItem := {
  objectId : option string;
  originalObjectId : option string;
  gitObjectType : string;
  commitId : string;
  path : option string;
  isFolder : bool;
  url : option string;
}.

Record GitChange := {
  item : GitItem;
  changeType : string;
}.

Record CommitDiffs := {
  changes : option (list GitChange);
}.

Record FilePatch := {
  filePath : option string;
  sourceContent : option string;
  patch : string;
}.

Record PrComment := {
  content : string;
}.

Record FilePosition := {
  line : Z;
  offset : Z;
}.

Record ThreadContext := {
  tc_filePath : string;
  rightFileStart : option FilePosition;
  rightFileEnd : option FilePosition;
}.

Record PrThread := {
  comments : list PrComment;
  threadContext : ThreadContext;
}.

Record PrCommentOptions := {
  opt_prUrl : string;
  comment : string;
  opt_filePath : string;
  rightFileStartLine : Z;
  rightFileStartOffset : Z;
  rightFileEndLine : Z;
  rightFileEndOffset : Z;
}.

(** [AuthOptions] is imported from [./models.js] by [azureDevOps.ts]; its
    two fields are the ones the code reads ([type], [token]) and the ones
    of the C# record [AuthOptions].  [token] may be [undefined]
    ([process.env.AZURE_DEVOPS_PAT] in [test-ado.js]). *)
Record AuthOptions := {
  type : string;
  token : option string;
}.

End Models.

(* ===================================================================== *)
(** * Asynchronous functions *)
(* ===================================================================== *)

Module Async.
Import Models.

(** [new Error(message)], and the rejections of the collaborators. *)
Inductive exn := JsError (message : string).

(** A settled promise: fulfilled with a value or rejected. *)
Inductive Outcome (A : Type) :=
| Ok (a : A)
| Err (e : exn).
Arguments Ok {A} a.
Arguments Err {A} e.

(** The [RequestInit] argument of [fetch], and the part of a [Response]
    this program reads. *)
Record RequestInit := {
  method : option string;
  headers : option Js.Headers;
  body : option string;
}.

Record Response := {
  r_status : N;
  r_statusText : string;
  r_body : string;
}.

(** [response.ok]: the status is in the range 200-299. *)
Definition ok (r : Response) : bool :=
  (200 <=? r_status r)%N && (r_status r <=? 299)%N.

(** An [async] function is a tree: it returns, throws, or is suspended on
    one of the two collaborators, the token provider handed to the
    constructor of the helper and the global [fetch]. *)
Inductive Prog (A : Type) : Type :=
| Ret (a : A)
| Throw (e : exn)
| AwaitToken (k : Outcome AuthOptions -> Prog A)
| AwaitFetch (url : string) (options : RequestInit)
             (k : Outcome Response -> Prog A).
Arguments Ret {A} a.
Arguments Throw {A} e.
Arguments AwaitToken {A} k.
Arguments AwaitFetch {A} url options k.

Fixpoint bind {A B} (p : Prog A) (f : A -> Prog B) : Prog B :=
  match p with
  | Ret a => f a
  | Throw e => Throw e
  | AwaitToken k => AwaitToken (fun r => bind (k r) f)
  | AwaitFetch u o k => AwaitFetch u o (fun r => bind (k r) f)
  end.

#[global] Instance Prog_ret : MRet Prog := @Ret.
#[global] Instance Prog_bind : MBind Prog := fun A B f p => bind p f.

(** [await] of a settled promise: its value, or its rejection thrown. *)
Definition settle {A} (o : Outcome A) : Prog A :=
  match o with
  | Ok a => Ret a
  | Err e => Throw e
  end.

Definition tokenProvider : Prog AuthOptions := AwaitToken settle.
Definition fetch (url : string) (options : RequestInit) : Prog Response :=
  AwaitFetch url options settle.

(** ** Runs

    What the collaborators were asked, in order. *)
Inductive Event :=
| TokenRequested
| Fetched (url : string) (options : RequestInit).

(** The collaborators answer as a function of the request and of what
    happened before. *)
Record Env := {
  env_tokenProvider : list Event -> Outcome AuthOptions;
  env_fetch : list Event -> string -> RequestInit -> Outcome Response;
}.

Fixpoint run {A} (env : Env) (p : Prog A) (log : list Event)
  : Outcome A * list Event :=
  match p with
  | Ret a => (Ok a, log)
  | Throw e => (Err e, log)
  | AwaitToken k =>
      run env (k (env_tokenProvider env log)) (log ++ [TokenRequested])
  | AwaitFetch u o k =>
      run env (k (env_fetch env log u o)) (log ++ [Fetched u o])
  end.

(** ** [Promise.all]

    The caller builds the tasks; [Promise.all] stores the value of the task
    at index [i] in slot [i] of its result whenever that task completes,
    and rejects as soon as it sees a task reject.  Between two suspension
    points a task runs alone; which suspended task is resumed next is the
    event loop's choice.  The schedule [sched] lists the indices it picks:
    picking a suspended task performs its pending request, logs it, and
    runs the task to its next suspension point; picking a rejected task
    rejects the whole; an index out of range or of a completed task picks
    nothing.  When the schedule is used up the remaining tasks run to
    completion one after the other, so every schedule denotes a complete
    run and every interleaving of the tasks at their suspension points is
    denoted by a schedule. *)
Fixpoint join_in_order {A} (pool : list (Prog A)) : Prog (list A) :=
  match pool with
  | [] => Ret []
  | p :: pool' =>
      bind p (fun v => bind (join_in_order pool') (fun vs => Ret (v :: vs)))
  end.

Fixpoint Promise_all {A} (sched : list nat) (pool : list (Prog A))
  : Prog (list A) :=
  match sched with
  | [] => join_in_order pool
  | i :: sched' =>
      match pool !! i with
      | Some (AwaitToken k) =>
          AwaitToken (fun r => Promise_all sched' (<[i := k r]> pool))
      | Some (AwaitFetch u o k) =>
          AwaitFetch u o (fun r => Promise_all sched' (<[i := k r]> pool))
      | Some (Throw e) => Throw e
      | Some (Ret _) | None => Promise_all sched' pool
      end
  end.

(** [returns Q p]: whatever the collaborators answer, a value [p] returns
    satisfies [Q]. *)
Fixpoint returns {A} (Q : A -> Prop) (p : Prog A) : Prop :=
  match p with
  | Ret a => Q a
  | Throw _ => True
  | AwaitToken k => forall r, returns Q (k r)
  | AwaitFetch _ _ k => forall r, returns Q (k r)
  end.

(** [completes T F p]: [p] returns a value, whatever the token provider
    answers within [T] and [fetch] answers to a request [u], [o] within
    [F u o]. *)
Fixpoint completes (T : Outcome AuthOptions -> Prop)
    (F : string -> RequestInit -> Outcome Response -> Prop)
    {A} (p : Prog A) : Prop :=
  match p with
  | Ret _ => True
  | Throw _ => False
  | AwaitToken k => forall r, T r -> completes T F (k r)
  | AwaitFetch u o k => forall r, F u o r -> completes T F (k r)
  end.

(** The answers of an environment stay within [T] and [F]. *)
Definition obeys (env : Env) (T : Outcome AuthOptions -> Prop)
    (F : string -> RequestInit -> Outcome Response -> Prop) : Prop :=
  (forall log, T (env_tokenProvider env log))
  /\ (forall log u o, F u o (env_fetch env log u o)).

(** A credential with a non-empty token; a successful answer to the
    requests for the URLs in [urls]. *)
Definition token_granted (r : Outcome AuthOptions) : Prop :=
  exists auth, r = Ok auth /\ Js.truthy (token auth) = true.

Definition served (urls : list string) (u : string) (o : RequestInit)
    (r : Outcome Response) : Prop :=
  In u urls -> exists resp, r = Ok resp /\ ok resp = true.

End Async.

(* ===================================================================== *)
(** * [class AzureDevOpsHelper] of [src/azureDevOps.ts] *)
(* ===================================================================== *)

Module Ado.
Import Models Async.

Definition API_VERSION : string := "7.1".

(** The errors the spec names, as the code throws them. *)
Definition InvalidLocator : exn :=
  JsError "Invalid Azure DevOps PR URL format".
Definition MissingCredential : exn :=
  JsError "Azure DevOps PAT is not set in environment variables.".
Definition PullRequestNotActive : exn := JsError "The PR is not active.".
Definition PullRequestHasConflicts : exn :=
  JsError "The PR has merge conflict.".
Definition BranchResolutionFailed : exn :=
  JsError "Could not determine source or target branch from PR details.".
Definition NoChangesFound : exn :=
  JsError "No changed files found in this PR.".
Definition NoEligibleFiles : exn :=
  JsError "No supported code file found in this PR.".
Definition RemoteRequestFailed (context : string) (r : Response) : exn :=
  JsError (context +:+ ": HTTP " +:+ Js.string_of_number (r_status r)
             +:+ ": " +:+ r_statusText r).

(** ** URL builders *)

Definition getBaseUrl (organization project repository : string) : string :=
  "https://dev.azure.com/" +:+ organization +:+ "/" +:+ project
    +:+ "/_apis/git/repositories/" +:+ repository.

Definition getPrDetailsUrl (baseUrl : string) (pullRequestId : N) : string :=
  baseUrl +:+ "/pullRequests/" +:+ Js.string_of_number pullRequestId
    +:+ "?api-version=" +:+ API_VERSION.

Definition getDiffsUrl (baseUrl sourceBranch targetBranch : string) : string :=
  baseUrl +:+ "/diffs/commits?baseVersion=" +:+ targetBranch
    +:+ "&targetVersion=" +:+ sourceBranch
    +:+ "&$top=2000&api-version=" +:+ API_VERSION.

Definition getBlobUrl (baseUrl sha : string) : string :=
  baseUrl +:+ "/blobs/" +:+ sha +:+ "?api-version=" +:+ API_VERSION.

Definition getThreadUrl (baseUrl : string) (pullRequestId : N) : string :=
  baseUrl +:+ "/pullRequests/" +:+ Js.string_of_number pullRequestId
    +:+ "/threads?api-version=" +:+ API_VERSION.

(** ** [parsePrUrl] *)

(** [/https:\/\/dev\.azure\.com\/(.+?)\/(.+?)\/_git\/(.+?)\/pullrequest\/(\d+)/i] *)
Definition devAzureRegex : Js.Pattern :=
  [Js.Lit "https://dev.azure.com/"; Js.LazyAny; Js.Lit "/"; Js.LazyAny;
   Js.Lit "/_git/"; Js.LazyAny; Js.Lit "/pullrequest/"; Js.Digits].

(** [/https:\/\/(.+?)\.visualstudio\.com\/(.+?)\/_git\/(.+?)\/pullrequest\/(\d+)/i] *)
Definition visualStudioRegex : Js.Pattern :=
  [Js.Lit "https://"; Js.LazyAny; Js.Lit ".visualstudio.com/"; Js.LazyAny;
   Js.Lit "/_git/"; Js.LazyAny; Js.Lit "/pullrequest/"; Js.Digits].

(** [match[i]] for [i >= 1]: the text of group [i]. *)
Definition group (m : list string) (i : nat) : string :=
  default EmptyString (m !! (i - 1)).

Definition parsePrUrlInternal (prUrl : string) (pattern : Js.Pattern)
  : option PrInfo :=
  match Js.regexp_match pattern prUrl with
  | None => None
  | Some m =>
      Some {| organization := group m 1;
              project := group m 2;
              repository := group m 3;
              pullRequestId := Js.parseInt (group m 4) |}
  end.

Definition parsePrUrl (prUrl : string) : Outcome PrInfo :=
  match parsePrUrlInternal prUrl devAzureRegex with
  | Some prInfo => Ok prInfo
  | None =>
      match parsePrUrlInternal prUrl visualStudioRegex with
      | Some prInfo => Ok prInfo
      | None => Err InvalidLocator
      end
  end.

(** ** [isSupportedChange] *)

Definition supportedChangeTypes : list string := ["add"; "edit"].

(** [Array.prototype.includes] on strings. *)
Definition includes (l : list string) (s : string) : bool :=
  existsb (String.eqb s) l.

Definition isSupportedChange (change : GitChange) : bool :=
  includes supportedChangeTypes (changeType change)
  && String.eqb (gitObjectType (item change)) "blob"
  && bool_decide (path (item change) <> None)
  && bool_decide (url (item change) <> None).

(** ** The imported functions

    [createPatch] comes from the npm package [diff], [response.json()] and
    [JSON.stringify] from the platform.  The methods below are written
    against this interface.  [json_PullRequest] and [json_CommitDiffs] are
    [await response.json() as T] on the body of a response: [Err] when the
    promise rejects; for the change list also when the body decodes to
    [null], on which the access [data.changes] throws. *)
Class Imports := {
  createPatch : option string -> string -> string -> string;
  json_PullRequest : string -> Outcome PullRequest;
  json_CommitDiffs : string -> Outcome CommitDiffs;
  JSON_stringify : PrThread -> string;
}.

Section Helper.
Context {imports : Imports}.

(** ** [getDefaultHeaders] *)
Definition getDefaultHeaders : Prog Js.Headers :=
  authOptions ← tokenProvider;
  if negb (Js.truthy (token authOptions)) then Throw MissingCredential
  else
    let authorization :=
      if String.eqb (type authOptions) "pat"
      then "Basic " +:+ Js.btoa (":" +:+ default EmptyString (token authOptions))
      else "Bearer " +:+ default EmptyString (token authOptions) in
    Ret [("Authorization", authorization);
         ("Content-Type", "application/json");
         ("Accept", "application/json")].

(** ** [sendRequest] *)
Definition sendRequest (url errorMessage : string) (options : RequestInit)
  : Prog Response :=
  headers0 ← getDefaultHeaders;
  let options :=
    {| method := method options;
       headers := Some (Js.spread headers0 (default [] (headers options)));
       body := body options |} in
  response ← fetch url options;
  if negb (ok response) then Throw (RemoteRequestFailed errorMessage response)
  else Ret response.

(** The default value [{}] of the parameter [options]. *)
Definition no_options : RequestInit :=
  {| method := None; headers := None; body := None |}.

(** ** [getBlobContent] *)
Definition getBlobContent (url : string) : Prog (option string) :=
  fileResponse ← sendRequest url "Failed to download blob content"
    {| method := None; headers := Some [("Accept", "text/plain")];
       body := None |};
  Ret (Some (r_body fileResponse)).

(** [x !== "literal"] for a [string | undefined]. *)
Definition differs (x : option string) (literal : string) : bool :=
  negb (bool_decide (x = Some literal)).

(** ** [getPrDetails] *)
Definition getPrDetails (url : string) : Prog PullRequest :=
  response ← sendRequest url "Failed to get PR details" no_options;
  prDetails ← settle (json_PullRequest (r_body response));
  if differs (status prDetails) "active" then Throw PullRequestNotActive
  else if differs (mergeStatus prDetails) "succeeded"
  then Throw PullRequestHasConflicts
  else Ret prDetails.

(** ** [getGitChanges] *)
Definition getGitChanges (url : string) : Prog (list GitChange) :=
  response ← sendRequest url "Failed to get git changes" no_options;
  data ← settle (json_CommitDiffs (r_body response));
  Ret (default [] (changes data)).

(** ** [getFilePatch] *)
Definition getFilePatch (fileItem : GitItem) (baseUrl : string)
  : Prog FilePatch :=
  let filePath := path fileItem in
  sourceContent ←
    (if Js.truthy (originalObjectId fileItem)
     then getBlobContent
            (getBlobUrl baseUrl (default EmptyString (originalObjectId fileItem)))
     else Ret None);
  newContent ←
    (if Js.truthy (objectId fileItem)
     then getBlobContent
            (getBlobUrl baseUrl (default EmptyString (objectId fileItem)))
     else Ret None);
  let patch :=
    createPatch filePath (Js.or_empty sourceContent) (Js.or_empty newContent) in
  Ret {| filePath := filePath; sourceContent := sourceContent;
         patch := patch |}.

(** [encodeURIComponent(ref?.replace("refs/heads/", ''))]: an
    [undefined] argument is converted to the string ["undefined"]. *)
Definition branchName (ref : option string) : string :=
  match ref with
  | Some r => Js.encodeURIComponent (Js.remove_first "refs/heads/" r)
  | None => "undefined"
  end.

(** ** [getPrFileChanges]

    [prUrl] is the field [this.prUrl]; [sched] is the order in which
    the event loop resumes the per-file tasks. *)
Definition getPrFileChanges (sched : list nat) (prUrl : string)
  : Prog (list FilePatch) :=
  prInfo ← settle (parsePrUrl prUrl);
  let baseUrl :=
    getBaseUrl (organization prInfo) (project prInfo) (repository prInfo) in
  let prDetailsUrl := getPrDetailsUrl baseUrl (pullRequestId prInfo) in
  prDetails ← getPrDetails prDetailsUrl;
  let sourceBranch := branchName (sourceRefName prDetails) in
  let targetBranch := branchName (targetRefName prDetails) in
  if String.eqb sourceBranch EmptyString || String.eqb targetBranch EmptyString
  then Throw BranchResolutionFailed
  else
    let diffsUrl := getDiffsUrl baseUrl sourceBranch targetBranch in
    changes ← getGitChanges diffsUrl;
    if (length changes =? 0)%nat then Throw NoChangesFound
    else
      let fileItems := map item (List.filter isSupportedChange changes) in
      if (length fileItems =? 0)%nat then Throw NoEligibleFiles
      else
        let getFileTasks := map (fun f => getFilePatch f baseUrl) fileItems in
        fileChanges ← Promise_all sched getFileTasks;
        Ret fileChanges.

(** ** [postPrComment] *)
Definition postPrComment (prUrl : string) (options : PrCommentOptions)
  : Prog unit :=
  prInfo ← settle (parsePrUrl prUrl);
  let baseUrl :=
    getBaseUrl (organization prInfo) (project prInfo) (repository prInfo) in
  let threadUrl := getThreadUrl baseUrl (pullRequestId prInfo) in
  let thread :=
    {| comments := [{| content := comment options |}];
       threadContext :=
         {| tc_filePath := opt_filePath options;
            rightFileStart :=
              Some {| line := rightFileStartLine options;
                      offset := rightFileStartOffset options |};
            rightFileEnd :=
              Some {| line := rightFileEndLine options;
                      offset := rightFileEndOffset options |} |} |} in
  _ ← sendRequest threadUrl "Failed to create thread"
        {| method := Some "POST"; headers := None;
           body := Some (JSON_stringify thread) |};
  Ret tt.

End Helper.

End Ado.

(* ===================================================================== *)
(** * [GenerateUnifiedDiff] of the C# port *)
(* ===================================================================== *)

Module DotNet.

(** [DiffPlex.DiffBuilder.Model]: the lines of a [DiffPaneModel]. *)
Inductive ChangeType := Unchanged | Deleted | Inserted | Imaginary | Modified.

Record DiffPiece := {
  Type_ : ChangeType;
  Text : string;
}.

(** [int]: 32-bit, two's complement, unchecked arithmetic. *)
Definition wrap (z : Z) : Z := ((z + 2 ^ 31) mod 2 ^ 32 - 2 ^ 31)%Z.
Definition incr (z : Z) : Z := wrap (z + 1).
Definition minus (a b : Z) : Z := wrap (a - b).

Definition string_of_int (z : Z) : string :=
  NilZero.string_of_int (Z.to_int z).

(** The [StringBuilder] is the list of the lines given to [AppendLine];
    [ToString] ends each of them with [Environment.NewLine]. *)
Definition ToString (NewLine : string) (sb : list string) : string :=
  fold_right (fun l acc => l +:+ NewLine +:+ acc) EmptyString sb.

Definition WriteHunk (sb : list string) (oldStart oldCount newCount : Z)
    (lines : list string) : list string :=
  sb ++ ("@@ -" +:+ string_of_int oldStart +:+ "," +:+ string_of_int oldCount
           +:+ " +" +:+ string_of_int oldStart +:+ ","
           +:+ string_of_int newCount +:+ " @@") :: lines.

(** The local variables of the loop. *)
Record Locals := {
  sb : list string;
  oldLineNumber : Z;
  newLineNumber : Z;
  hunkStart : Z;
  hunkLines : list string;
}.

(** One iteration of [foreach (var line in diff.Lines)]. *)
Definition step (st : Locals) (line : DiffPiece) : Locals :=
  match Type_ line with
  | Unchanged =>
      let st :=
        if (0 <? length (hunkLines st))%nat
        then {| sb := WriteHunk (sb st) (hunkStart st)
                        (minus (oldLineNumber st) (hunkStart st))
                        (minus (newLineNumber st) (hunkStart st))
                        (hunkLines st);
                oldLineNumber := oldLineNumber st;
                newLineNumber := newLineNumber st;
                hunkStart := hunkStart st;
                hunkLines := [] |}
        else st in
      {| sb := sb st;
         oldLineNumber := incr (oldLineNumber st);
         newLineNumber := incr (newLineNumber st);
         hunkStart := oldLineNumber st;
         hunkLines := hunkLines st |}
  | Deleted =>
      {| sb := sb st;
         oldLineNumber := incr (oldLineNumber st);
         newLineNumber := newLineNumber st;
         hunkStart := if (length (hunkLines st) =? 0)%nat
                      then oldLineNumber st else hunkStart st;
         hunkLines := hunkLines st ++ ["-" +:+ Text line] |}
  | Inserted =>
      {| sb := sb st;
         oldLineNumber := oldLineNumber st;
         newLineNumber := incr (newLineNumber st);
         hunkStart := if (length (hunkLines st) =? 0)%nat
                      then newLineNumber st else hunkStart st;
         hunkLines := hunkLines st ++ ["+" +:+ Text line] |}
  | Modified =>
      {| sb := sb st;
         oldLineNumber := incr (oldLineNumber st);
         newLineNumber := incr (newLineNumber st);
         hunkStart := if (length (hunkLines st) =? 0)%nat
                      then oldLineNumber st else hunkStart st;
         hunkLines := hunkLines st ++ ["-" +:+ Text line; "+" +:+ Text line] |}
  | Imaginary => st
  end.

Definition header (fileName : string) : list string :=
  ["--- a/" +:+ fileName; "+++ b/" +:+ fileName].

(** The final hunk, written after the loop. *)
Definition finish (st : Locals) : list string :=
  if (0 <? length (hunkLines st))%nat
  then WriteHunk (sb st) (hunkStart st)
         (minus (oldLineNumber st) (hunkStart st))
         (minus (newLineNumber st) (hunkStart st))
         (hunkLines st)
  else sb st.

Section Synthesizer.
(** [new InlineDiffBuilder(new Differ()).BuildDiffModel(oldText, newText).Lines],
    a function of the DiffPlex package. *)
Variable BuildDiffModel : string -> string -> list DiffPiece.

(** The lines of the document [GenerateUnifiedDiff] builds. *)
Definition GenerateUnifiedDiffLines (fileName oldText newText : string)
  : list string :=
  let diff := BuildDiffModel oldText newText in
  finish (fold_left step diff
            {| sb := header fileName;
               oldLineNumber := 1; newLineNumber := 1;
               hunkStart := 0; hunkLines := [] |}).

Definition GenerateUnifiedDiff (NewLine fileName oldText newText : string)
  : string :=
  ToString NewLine (GenerateUnifiedDiffLines fileName oldText newText).
End Synthesizer.

(** ** A sample line differ

    DiffPlex is a package the C# port depends on; [GenerateUnifiedDiff]
    above is stated for any differ.  [inlineDiff] is one differ of the kind
    the spec describes (a comparison of old and new text at line
    granularity, by equality of lines), on which the statements are
    exercised: it splits the two texts at LF, CR LF and CR and aligns the
    lines along a longest common subsequence; the lines of the subsequence
    are [Unchanged], the other old lines [Deleted], the other new lines
    [Inserted], deletions before insertions. *)
Fixpoint split_lines (cur s : string) : list string :=
  match s with
  | EmptyString => [cur]
  | String c s' =>
      if Ascii.eqb c "010" then cur :: split_lines EmptyString s'
      else if Ascii.eqb c "013" then
        match s' with
        | String c' s'' =>
            if Ascii.eqb c' "010" then cur :: split_lines EmptyString s''
            else cur :: split_lines EmptyString s'
        | EmptyString => cur :: split_lines EmptyString s'
        end
      else split_lines (cur +:+ String c EmptyString) s'
  end.

Definition piece (t : ChangeType) (text : string) : DiffPiece :=
  {| Type_ := t; Text := text |}.

Definition unchanged_count (l : list DiffPiece) : nat :=
  length (List.filter
            (fun p => match Type_ p with Unchanged => true | _ => false end) l).

Fixpoint align (old new : list string) : list DiffPiece :=
  match old with
  | [] => map (piece Inserted) new
  | x :: old' =>
      (fix inner (new : list string) : list DiffPiece :=
         match new with
         | [] => map (piece Deleted) (x :: old')
         | y :: new' =>
             if String.eqb x y then piece Unchanged x :: align old' new'
             else
               let d := piece Deleted x :: align old' (y :: new') in
               let i := piece Inserted y :: inner new' in
               if (unchanged_count i <=? unchanged_count d)%nat then d else i
         end) new
  end.

Definition inlineDiff (oldText newText : string) : list DiffPiece :=
  align (split_lines EmptyString oldText) (split_lines EmptyString newText).

(** ** The shape of a unified diff, for the statements below *)

Record Hunk := {
  h_start : Z;
  h_oldCount : Z;
  h_newCount : Z;
  h_body : list string;
}.

Definition render (h : Hunk) : list string :=
  ("@@ -" +:+ string_of_int (h_start h) +:+ "," +:+ string_of_int (h_oldCount h)
     +:+ " +" +:+ string_of_int (h_start h) +:+ ","
     +:+ string_of_int (h_newCount h) +:+ " @@") :: h_body h.

(** The body lines a piece of the diff model stands for: none for an
    unchanged line. *)
Definition changed_lines (p : DiffPiece) : list string :=
  match Type_ p with
  | Deleted => ["-" +:+ Text p]
  | Inserted => ["+" +:+ Text p]
  | Modified => ["-" +:+ Text p; "+" +:+ Text p]
  | Unchanged | Imaginary => []
  end.

(** What the loop of [GenerateUnifiedDiff] maintains: the builder holds the
    header and the hunks written so far, and the bodies of these hunks
    followed by the pending lines are the changed lines of the pieces seen
    so far. *)
Definition loop_inv (hdr : list string) (seen : list DiffPiece)
    (st : Locals) : Prop :=
  exists hunks,
    sb st = hdr ++ flat_map render hunks
    /\ concat (map h_body hunks) ++ hunkLines st = flat_map changed_lines seen
    /\ Forall (fun h => h_body h <> []) hunks.

(** The two texts of the spec's example, [a b c] and [a x c], each line
    ended by a line feed, and the diff model of the pair. *)
Definition LF : string := String "010" EmptyString.
Definition abc : string := "a" +:+ LF +:+ "b" +:+ LF +:+ "c" +:+ LF.
Definition axc : string := "a" +:+ LF +:+ "x" +:+ LF +:+ "c" +:+ LF.
Definition abc_axc_model : list DiffPiece :=
  [piece Unchanged "a"; piece Deleted "b"; piece Inserted "x";
   piece Unchanged "c"; piece Unchanged EmptyString].

End DotNet.

(* ===================================================================== *)
(** * The spec's side: credential kinds, URL shapes, output units *)
(* ===================================================================== *)

Module Spec.
Import Models Async.

(** Section 4.3: [Basic base64(":" + token)] for a static (PAT) credential,
    [Bearer token] for a delegated one.  The code calls the static kind
    ["pat"]. *)
Inductive Kind := Static | Delegated.

Definition kind_of (type : string) : Kind :=
  if String.eqb type "pat" then Static else Delegated.

Definition authorization (k : Kind) (token : string) : string :=
  match k with
  | Static => "Basic " +:+ Js.btoa (":" +:+ token)
  | Delegated => "Bearer " +:+ token
  end.

(** The three headers every request of the gateway starts from. *)
Definition defaultHeaders (auth : AuthOptions) : Js.Headers :=
  [("Authorization",
    authorization (kind_of (type auth)) (default EmptyString (token auth)));
   ("Content-Type", "application/json");
   ("Accept", "application/json")].

(** The request the gateway hands to [fetch] for the caller's [options]. *)
Definition outgoing (auth : AuthOptions) (options : RequestInit) : RequestInit :=
  {| method := method options;
     headers := Some (Js.spread (defaultHeaders auth)
                        (default [] (headers options)));
     body := body options |}.

(** Section 4.1: the components of a pull-request URL.  A path segment is
    non-empty and has no [/] and no line break; the id is a non-empty run
    of decimal digits. *)
Definition is_slash (c : ascii) : bool := Ascii.eqb c "/".

Definition segment (s : string) : bool :=
  Js.nonempty s
  && Js.all_chars (fun c => negb (is_slash c) && negb (Js.is_line_terminator c)) s.

Definition digits (s : string) : bool :=
  Js.nonempty s && Js.all_chars Js.is_digit s.

Definition slash_free (s : string) : bool :=
  Js.all_chars (fun c => negb (is_slash c)) s.

(** Text that may follow the id: it does not go on with a digit. *)
Definition no_leading_digit (s : string) : bool :=
  match s with
  | EmptyString => true
  | String c _ => negb (Js.is_digit c)
  end.

(** The index of the first [/] of a string, its length when it has none;
    whether a string starts with [/]; whether it has no [//]. *)
Fixpoint slash_pos (s : string) : nat :=
  match s with
  | EmptyString => 0
  | String c s' => if is_slash c then 0 else S (slash_pos s')
  end.

Definition starts_with_slash (s : string) : bool :=
  match s with
  | EmptyString => false
  | String c _ => is_slash c
  end.

Fixpoint no_double_slash (s : string) : bool :=
  match s with
  | EmptyString => true
  | String c s' =>
      negb (is_slash c && starts_with_slash s') && no_double_slash s'
  end.

(** [https://dev.azure.com/<organization>/<project>/_git/<repository>/pullrequest/<id>],
    [host] standing for the scheme and host as written. *)
Definition devAzureUrl (host organization project repository id : string)
  : string :=
  host +:+ organization +:+ "/" +:+ project +:+ "/_git/" +:+ repository
    +:+ "/pullrequest/" +:+ id.

(** [https://<organization>.visualstudio.com/<project>/_git/<repository>/pullrequest/<id>],
    [scheme] and [domain] standing for [https://] and [.visualstudio.com/]
    as written. *)
Definition visualStudioUrl
    (scheme organization domain project repository id : string) : string :=
  scheme +:+ organization +:+ domain +:+ project +:+ "/_git/" +:+ repository
    +:+ "/pullrequest/" +:+ id.

Definition locator (organization project repository id : string) : PrInfo :=
  {| organization := organization; project := project;
     repository := repository; pullRequestId := Js.parseInt id |}.

(** Section 4.1 as stated: a string is accepted, with its locator, when it
    is a URL of one of the two shapes, scheme and host in any letter case,
    and its id is a base-10 integer [>= 1]. *)
Inductive accepted : string -> PrInfo -> Prop :=
| accepted_devAzure host org proj repo ds :
    Js.eq_ci "https://dev.azure.com/" host = true ->
    segment org = true -> segment proj = true -> segment repo = true ->
    digits ds = true -> (1 <= Js.parseInt ds)%N ->
    accepted (devAzureUrl host org proj repo ds) (locator org proj repo ds)
| accepted_visualStudio scheme org domain proj repo ds :
    Js.eq_ci "https://" scheme = true ->
    Js.eq_ci ".visualstudio.com/" domain = true ->
    segment org = true -> segment proj = true -> segment repo = true ->
    digits ds = true -> (1 <= Js.parseInt ds)%N ->
    accepted (visualStudioUrl scheme org domain proj repo ds)
      (locator org proj repo ds).

(** Section 3, FileDiff: the output unit for one eligible entry, carrying
    the entry's path and the patch of the old content against some new
    content. *)
Definition diffOf {imports : Ado.Imports} (f : GitItem) (r : FilePatch) : Prop :=
  filePath r = path f
  /\ exists newContent,
       patch r = Ado.createPatch (path f) (Js.or_empty (sourceContent r))
                   (Js.or_empty newContent).

End Spec.

(* ===================================================================== *)
(** * A sample repository and service

    A concrete instance of the imported functions and of the two
    collaborators, on which the statements below are exercised: one pull
    request with five changes, three of them eligible. *)
(* ===================================================================== *)

Module Sample.
Import Models Async.

Definition prUrl : string :=
  "https://dev.azure.com/org/project/_git/repo/pullrequest/123".

Definition baseUrl : string :=
  "https://dev.azure.com/org/project/_apis/git/repositories/repo".

Definition prDetailsUrl : string :=
  baseUrl +:+ "/pullRequests/123?api-version=7.1".

Definition diffsUrl : string :=
  baseUrl +:+ "/diffs/commits?baseVersion=main&targetVersion=feature%2Fx"
    +:+ "&$top=2000&api-version=7.1".

Definition threadUrl : string :=
  baseUrl +:+ "/pullRequests/123/threads?api-version=7.1".

Definition pullRequest (status mergeStatus : string) : PullRequest :=
  {| pr_pullRequestId := Some 123%N;
     status := Some status;
     mergeStatus := Some mergeStatus;
     sourceRefName := Some "refs/heads/feature/x";
     targetRefName := Some "refs/heads/main" |}.

Definition gitItem (type path : string) (original new : option string)
  : GitItem :=
  {| objectId := new; originalObjectId := original; gitObjectType := type;
     commitId := "c0ffee"; path := Some path; isFolder := false;
     url := Some (baseUrl +:+ "/items" +:+ path) |}.

Definition gitChanges : list GitChange :=
  [ {| item := gitItem "blob" "/a.txt" (Some "o1") (Some "n1");
       changeType := "edit" |};
    {| item := gitItem "blob" "/gone.txt" (Some "o2") None;
       changeType := "delete" |};
    {| item := gitItem "blob" "/b.txt" None (Some "n2");
       changeType := "add" |};
    {| item := gitItem "tree" "/dir" None (Some "t1");
       changeType := "edit" |};
    {| item := gitItem "blob" "/c.txt" None None;
       changeType := "add" |} ].

(** The bodies of the sample service are tags; the decoders map each tag to
    the value it stands for and reject everything else. *)
Definition imports : Ado.Imports :=
  {| Ado.createPatch path old new :=
       DotNet.GenerateUnifiedDiff DotNet.inlineDiff DotNet.LF
         (default EmptyString path) old new;
     Ado.json_PullRequest body :=
       if String.eqb body "pr:active"
       then Ok (pullRequest "active" "succeeded")
       else if String.eqb body "pr:completed"
       then Ok (pullRequest "completed" "succeeded")
       else if String.eqb body "pr:conflicts"
       then Ok (pullRequest "active" "conflicts")
       else Err (JsError "Unexpected token");
     Ado.json_CommitDiffs body :=
       if String.eqb body "diffs"
       then Ok {| changes := Some gitChanges |}
       else Err (JsError "Unexpected token");
     Ado.JSON_stringify thread :=
       tc_filePath (threadContext thread) +:+ ":"
         +:+ String.concat "|" (map content (comments thread)) |}.

Definition response (status : N) (statusText body : string)
  : Outcome Response :=
  Ok {| r_status := status; r_statusText := statusText; r_body := body |}.

(** The service answers by URL; [prBody] is what it answers for the pull
    request. *)
Definition env (prBody : string) : Env :=
  {| env_tokenProvider _ := Ok {| type := "pat"; token := Some "abc" |};
     env_fetch _ url options :=
       if String.eqb url prDetailsUrl then response 200 "OK" prBody
       else if String.eqb url diffsUrl then response 200 "OK" "diffs"
       else if String.eqb url (Ado.getBlobUrl baseUrl "o1")
       then response 200 "OK" DotNet.abc
       else if String.eqb url (Ado.getBlobUrl baseUrl "n1")
       then response 200 "OK" DotNet.axc
       else if String.eqb url (Ado.getBlobUrl baseUrl "n2")
       then response 200 "OK" ("hello" +:+ DotNet.LF)
       else if String.eqb url threadUrl
       then response 201 "Created" "thread"
       else response 404 "Not Found" EmptyString |}.

Definition commentOptions : PrCommentOptions :=
  {| opt_prUrl := prUrl; comment := "Looks good";
     opt_filePath := "/a.txt";
     rightFileStartLine := 2; rightFileStartOffset := 1;
     rightFileEndLine := 2; rightFileEndOffset := 2 |}.

(** One order in which the event loop may resume the three per-file
    tasks. *)
Definition schedule : list nat := [1; 0; 1; 0; 2; 0; 0; 1].

End Sample.

(* ===================================================================== *)
(** * Handlers and runs that fail *)
(* ===================================================================== *)

Module Control.
Import Models Async.

(** [try { p } catch (error) { h error }] around the body of an [async]
    function: an exception thrown by [p], at once or after any of its
    suspension points, is handed to [h]. *)
Fixpoint try_catch {A} (p : Prog A) (h : exn -> Prog A) : Prog A :=
  match p with
  | Ret a => Ret a
  | Throw e => h e
  | AwaitToken k => AwaitToken (fun r => try_catch (k r) h)
  | AwaitFetch u o k => AwaitFetch u o (fun r => try_catch (k r) h)
  end.

(** [throws F p]: [p] ends by throwing, whatever the token provider
    answers and whatever [fetch] answers to a request [u], [o] within
    [F u o]. *)
Fixpoint throws (F : string -> RequestInit -> Outcome Response -> Prop)
    {A} (p : Prog A) : Prop :=
  match p with
  | Ret _ => False
  | Throw _ => True
  | AwaitToken k => forall r, throws F (k r)
  | AwaitFetch u o k => forall r, F u o r -> throws F (k r)
  end.

(** The request for [url] is not answered with a status from 200 to 299:
    the promise of [fetch] rejects or the response is not [ok]. *)
Definition refused (url : string) (u : string) (o : RequestInit)
    (r : Outcome Response) : Prop :=
  u = url ->
  match r with
  | Ok resp => ok resp = false
  | Err _ => True
  end.

(** The events of a log that are requests to [fetch]. *)
Definition fetches (log : list Event) : list (string * RequestInit) :=
  flat_map (fun ev => match ev with
                      | TokenRequested => []
                      | Fetched u o => [(u, o)]
                      end) log.

(** [asks P p]: every request [p] makes to [fetch], on any run, satisfies
    [P]. *)
Fixpoint asks (P : string -> RequestInit -> Prop) {A} (p : Prog A) : Prop :=
  match p with
  | Ret _ | Throw _ => True
  | AwaitToken k => forall r, asks P (k r)
  | AwaitFetch u o k => P u o /\ forall r, asks P (k r)
  end.

(** Collaborators whose answers do not depend on what happened before. *)
Definition stateless (env : Env) : Prop :=
  forall log log',
    env_tokenProvider env log = env_tokenProvider env log'
    /\ forall u o, env_fetch env log u o = env_fetch env log' u o.

(** What [p] returns or throws when it runs alone from the empty log. *)
Definition value {A} (env : Env) (p : Prog A) : Outcome A :=
  fst (run env p []).

(** The blob URLs the per-file task of a file item asks for: that of its
    [originalObjectId], then that of its [objectId], each only when the id
    is neither [undefined] nor empty.  An id that stands in both slots
    gives its URL twice. *)
Definition blobUrls (baseUrl : string) (f : GitItem) : list string :=
  (if Js.truthy (originalObjectId f)
   then [Ado.getBlobUrl baseUrl (default EmptyString (originalObjectId f))]
   else [])
  ++ (if Js.truthy (objectId f)
      then [Ado.getBlobUrl baseUrl (default EmptyString (objectId f))]
      else []).

(** [asks_exactly us p]: on every run on which [p] returns a value, the
    URLs it has handed to [fetch] are those of [us], each as many times as
    it stands in [us], in some order. *)
Fixpoint asks_exactly {A} (us : list string) (p : Prog A) : Prop :=
  match p with
  | Ret _ => us = []
  | Throw _ => True
  | AwaitToken k => forall r, asks_exactly us (k r)
  | AwaitFetch u _ k =>
      exists us', us ≡ₚ u :: us' /\ forall r, asks_exactly us' (k r)
  end.

(** The request [getBlobContent] hands to [fetch] with the credential
    [auth]: the default headers, [Accept] replaced by [text/plain]. *)
Definition blobRequest (auth : AuthOptions) : RequestInit :=
  {| method := None;
     headers :=
       Some [("Authorization",
              Spec.authorization (Spec.kind_of (type auth))
                (default EmptyString (token auth)));
             ("Content-Type", "application/json");
             ("Accept", "text/plain")];
     body := None |}.

(** The error [getDefaultHeaders] ends with on an answer of the token
    provider: the rejection itself, or [MissingCredential] for a credential
    whose token is [undefined] or empty; none for a non-empty token. *)
Definition credential_error (r : Outcome AuthOptions) : option exn :=
  match r with
  | Err e => Some e
  | Ok auth =>
      if Js.truthy (token auth) then None else Some Ado.MissingCredential
  end.

End Control.

(* ===================================================================== *)
(** * [auth.ts]: the token providers *)
(* ===================================================================== *)

Module Auth.
Import Models Async.

(** [AccountInfo] of [@azure/msal-node], by its [homeAccountId]; the two
    fields of an [AuthenticationResult] the code reads. *)
Definition AccountInfo := string.

Record AuthenticationResult := {
  accessToken : string;
  account : option AccountInfo;
}.

(** What the [PublicClientApplication] was asked, in order. *)
Inductive Call :=
| AcquireTokenSilent (account : AccountInfo)
| AcquireTokenInteractive.

(** The application answers as a function of the request and of the calls
    made before. *)
Record PublicClientApplication := {
  acquireTokenSilent :
    list Call -> AccountInfo -> Outcome AuthenticationResult;
  acquireTokenInteractive : list Call -> Outcome AuthenticationResult;
}.

Definition TokenNotObtained : exn :=
  JsError "Failed to obtain Azure DevOps OAuth token.".
Definition PatNotFound : exn :=
  JsError
    "Personal Access Token (PAT) not found in AZURE_DEVOPS_PAT environment variable.".

(** The private state of an [OAuthAuthenticator]; [null] after the
    constructor. *)
Record OAuthAuthenticator := {
  accountId : option AccountInfo;
}.

Definition new_OAuthAuthenticator : OAuthAuthenticator :=
  {| accountId := None |}.

(** The last statements of [getToken]: an empty access token is an error. *)
Definition checked (authResult : AuthenticationResult) : Outcome string :=
  if negb (Js.truthy (Some (accessToken authResult)))
  then Err TokenNotObtained
  else Ok (accessToken authResult).

(** [getToken]: the result, the authenticator after the call and the calls
    made to the application. *)
Definition getToken (app : PublicClientApplication)
    (this : OAuthAuthenticator) (calls : list Call)
  : Outcome string * OAuthAuthenticator * list Call :=
  let '(authResult, calls) :=
    match accountId this with
    | Some account =>
        (match acquireTokenSilent app calls account with
         | Ok r => Some r
         | Err _ => None
         end,
         calls ++ [AcquireTokenSilent account])
    | None => (None, calls)
    end in
  match authResult with
  | Some authResult => (checked authResult, this, calls)
  | None =>
      match acquireTokenInteractive app calls with
      | Err e => (Err e, this, calls ++ [AcquireTokenInteractive])
      | Ok authResult =>
          (checked authResult, {| accountId := account authResult |},
           calls ++ [AcquireTokenInteractive])
      end
  end.

(** The function [createAuthenticator] returns: it holds the token read
    from the environment, or its own [OAuthAuthenticator]. *)
Inductive Provider :=
| PatProvider (pat : string)
| InteractiveProvider.

(** [createAuthenticator(type)]; [AZURE_DEVOPS_PAT] is the value of the
    environment variable, [None] when it is not set. *)
Definition createAuthenticator (type : option string)
    (AZURE_DEVOPS_PAT : option string) : Outcome Provider :=
  if bool_decide (type = Some "pat") then
    let pat := Js.or_empty AZURE_DEVOPS_PAT in
    if negb (Js.truthy (Some pat)) then Err PatNotFound
    else Ok (PatProvider pat)
  else Ok InteractiveProvider.

(** One call of the provider. *)
Definition invoke (app : PublicClientApplication) (provider : Provider)
    (this : OAuthAuthenticator) (calls : list Call)
  : Outcome AuthOptions * OAuthAuthenticator * list Call :=
  match provider with
  | PatProvider pat => (Ok {| type := "pat"; token := Some pat |}, this, calls)
  | InteractiveProvider =>
      match getToken app this calls with
      | (Ok token, this, calls) =>
          (Ok {| type := "interactive"; token := Some token |}, this, calls)
      | (Err e, this, calls) => (Err e, this, calls)
      end
  end.

(** The provider as the helper sees it: the answer to the request that
    follows [n] earlier ones, the authenticator starting from the state the
    constructor leaves and the application from no call.  The calls of the
    provider are taken one after the other. *)
Fixpoint after (app : PublicClientApplication) (provider : Provider)
    (n : nat) : OAuthAuthenticator * list Call :=
  match n with
  | O => (new_OAuthAuthenticator, [])
  | S n =>
      let '(this, calls) := after app provider n in
      let '(_, this, calls) := invoke app provider this calls in
      (this, calls)
  end.

Definition requests (log : list Event) : nat :=
  length (List.filter (fun ev => match ev with
                                | TokenRequested => true
                                | Fetched _ _ => false
                                end) log).

Definition tokenProvider_of (app : PublicClientApplication)
    (provider : Provider) (log : list Event) : Outcome AuthOptions :=
  let '(this, calls) := after app provider (requests log) in
  fst (fst (invoke app provider this calls)).

End Auth.

(* ===================================================================== *)
(** * [tools.ts]: the two tool handlers *)
(* ===================================================================== *)

Module Tools.
Import Models Async Control.

(** The result of a handler: the text items of [content], and [isError],
    [false] standing for the field left out. *)
Record TextContent := {
  text : string;
}.

Record CallToolResult := {
  tr_content : list TextContent;
  isError : bool;
}.

(** The object [get_pr_changes] serializes on success. *)
Record ChangesPayload := {
  success : bool;
  changesCount : nat;
  payload_changes : list FilePatch;
}.

(** [JSON.stringify(payload, null, 2)] on that object. *)
Class Imports := {
  JSON_stringify_payload : ChangesPayload -> string;
}.

(** [JSON.stringify({ success: true }, null, 2)]: three lines, the key in
    double quotes, two spaces of indentation. *)
Definition quoted (s : string) : string :=
  String "034" s +:+ String "034" EmptyString.

Definition success_true : string :=
  "{" +:+ String "010" ("  " +:+ quoted "success" +:+ ": true")
    +:+ String "010" "}".

(** [error instanceof Error ? error.message : String(error)] *)
Definition errorMessage (error : exn) : string :=
  match error with
  | JsError message => message
  end.

Definition text_result (t : string) (isError : bool) : CallToolResult :=
  {| tr_content := [{| text := t |}]; isError := isError |}.

Section Handlers.
Context {ado : Ado.Imports} {tools : Imports}.

(** The handler of [get_pr_changes]; [sched] as in [getPrFileChanges]. *)
Definition get_pr_changes (sched : list nat) (prUrl : string)
  : Prog CallToolResult :=
  try_catch
    (changes ← Ado.getPrFileChanges sched prUrl;
     Ret (text_result
            (JSON_stringify_payload
               {| success := true; changesCount := length changes;
                  payload_changes := changes |})
            false))
    (fun error =>
       Ret (text_result
              ("Error fetching PR changes: " +:+ errorMessage error) true)).

(** The handler of [post_pr_comment]; the input has the fields of
    [PrCommentOptions]. *)
Definition post_pr_comment (input : PrCommentOptions) : Prog CallToolResult :=
  try_catch
    (_ ← Ado.postPrComment (opt_prUrl input) input;
     Ret (text_result success_true false))
    (fun error =>
       Ret (text_result
              ("Error posting comment: " +:+ errorMessage error) true)).

End Handlers.

End Tools.

(* ===================================================================== *)
(** * The C# port: eligibility and the per-file task *)
(* ===================================================================== *)

Module DotNetPort.
Import Models Async.

(** [StringComparison.OrdinalIgnoreCase] compares the upper-case forms of
    the characters.  Below 256 the letters with codes 97-122 and 224-254
    (247 is not a letter) have their upper-case form 32 below; the upper-case
    forms of 181 and 255 lie above 255 and are the upper-case form of no
    other character below 256, so these two are compared as they are. *)
Definition ToUpperInvariant (c : ascii) : ascii :=
  let n := Js.code c in
  if ((97 <=? n) && (n <=? 122)
      || (224 <=? n) && (n <=? 254) && negb (n =? 247))%N
  then ascii_of_N (n - 32)
  else c.

Fixpoint Equals_OrdinalIgnoreCase (a b : string) : bool :=
  match a, b with
  | EmptyString, EmptyString => true
  | String x a', String y b' =>
      Ascii.eqb (ToUpperInvariant x) (ToUpperInvariant y)
      && Equals_OrdinalIgnoreCase a' b'
  | _, _ => false
  end.

(** [string.IsNullOrEmpty] on a [string?]. *)
Definition IsNullOrEmpty (o : option string) : bool :=
  match o with
  | Some s => String.eqb s EmptyString
  | None => true
  end.

(** [IsSupportedChange] *)
Definition IsSupportedChange (change : GitChange) : bool :=
  existsb (fun t => Equals_OrdinalIgnoreCase t (changeType change))
    ["add"; "edit"]
  && Equals_OrdinalIgnoreCase (gitObjectType (item change)) "blob"
  && negb (IsNullOrEmpty (path (item change)))
  && negb (IsNullOrEmpty (url (item change))).

Definition TokenNotAvailable : exn :=
  JsError "Azure DevOps authentication token is not available.".

(** [Encoding.ASCII.GetBytes]: a character above 127 becomes [?]. *)
Fixpoint ASCII_GetBytes (s : string) : string :=
  match s with
  | EmptyString => EmptyString
  | String c s' =>
      String (if (Js.code c <? 128)%N then c else "?"%char) (ASCII_GetBytes s')
  end.

(** The local [authorization] of [GetDefaultHeadersAsync];
    [Convert.ToBase64String] is the base64 of [Js.btoa]. *)
Definition authorization (authOptions : AuthOptions) : string :=
  if String.eqb (type authOptions) "pat"
  then "Basic "
         +:+ Js.btoa (ASCII_GetBytes
                        (":" +:+ default EmptyString (token authOptions)))
  else "Bearer " +:+ default EmptyString (token authOptions).

(** [GetDefaultHeadersAsync] *)
Definition GetDefaultHeadersAsync : Prog Js.Headers :=
  authOptions ← tokenProvider;
  if IsNullOrEmpty (token authOptions) then Throw TokenNotAvailable
  else
    Ret [("Authorization", authorization authOptions);
         ("Content-Type", "application/json");
         ("Accept", "application/json")].

(** [GetBlobContentAsync]: the request carries [Accept: text/plain] and the
    default headers other than [Content-Type] and [Accept]; an answer
    outside 200-299 is the result [null]. *)
Definition GetBlobContentAsync (url : string) : Prog (option string) :=
  headers0 ← GetDefaultHeadersAsync;
  let request :=
    {| method := Some "GET";
       headers :=
         Some (("Accept", "text/plain")
               :: List.filter
                    (fun h => negb (String.eqb (fst h) "Content-Type")
                              && negb (String.eqb (fst h) "Accept"))
                    headers0);
       body := None |} in
  response ← fetch url request;
  if negb (ok response) then Ret None
  else Ret (Some (r_body response)).

(** The request [GetBlobContentAsync] sends with the credential [auth]. *)
Definition blobRequest (auth : AuthOptions) : RequestInit :=
  {| method := Some "GET";
     headers := Some [("Accept", "text/plain");
                      ("Authorization", authorization auth)];
     body := None |}.

(** The text [GetBlobContentAsync] returns for a response. *)
Definition content (r : Response) : option string :=
  if ok r then Some (r_body r) else None.

(** [ToLowerInvariant]: below 256 the letters with codes 65-90 and
    192-222 (215 is not a letter) have their lower-case form 32 above. *)
Definition ToLowerInvariant_char (c : ascii) : ascii :=
  let n := Js.code c in
  if ((65 <=? n) && (n <=? 90)
      || (192 <=? n) && (n <=? 222) && negb (n =? 215))%N
  then ascii_of_N (n + 32)
  else c.

Fixpoint ToLowerInvariant (s : string) : string :=
  match s with
  | EmptyString => EmptyString
  | String c s' => String (ToLowerInvariant_char c) (ToLowerInvariant s')
  end.

(** [AuthenticatorFactory.CreateAuthenticator]: a [PatAuthenticator] is the
    provider [Auth.PatProvider], an [OAuthAuthenticator] the provider
    [Auth.InteractiveProvider]. *)
Definition CreateAuthenticator (authenticationType : string)
    (AZURE_DEVOPS_PAT : option string) : Outcome Auth.Provider :=
  if String.eqb (ToLowerInvariant authenticationType) "pat" then
    if IsNullOrEmpty AZURE_DEVOPS_PAT then Err Auth.PatNotFound
    else Ok (Auth.PatProvider (default EmptyString AZURE_DEVOPS_PAT))
  else Ok Auth.InteractiveProvider.

Section Patch.
(** The DiffPlex differ and [Environment.NewLine], as in
    [DotNet.GenerateUnifiedDiff]. *)
Variable BuildDiffModel : string -> string -> list DotNet.DiffPiece.
Variable NewLine : string.

(** [GetFilePatchAsync] *)
Definition GetFilePatchAsync (fileItem : GitItem) (baseUrl : string)
  : Prog FilePatch :=
  let filePath := path fileItem in
  sourceContent ←
    (if negb (IsNullOrEmpty (originalObjectId fileItem))
     then GetBlobContentAsync
            (Ado.getBlobUrl baseUrl
               (default EmptyString (originalObjectId fileItem)))
     else Ret None);
  newContent ←
    (if negb (IsNullOrEmpty (objectId fileItem))
     then GetBlobContentAsync
            (Ado.getBlobUrl baseUrl (default EmptyString (objectId fileItem)))
     else Ret None);
  let patch :=
    DotNet.GenerateUnifiedDiff BuildDiffModel NewLine
      (default EmptyString filePath)
      (default EmptyString sourceContent) (default EmptyString newContent) in
  Ret {| filePath := filePath; sourceContent := sourceContent;
         patch := patch |}.

End Patch.

End DotNetPort.

(* ===================================================================== *)
(** * The tool handler of the C# port *)
(* ===================================================================== *)

Module DotNetTools.
Import Models Async Control.

(** The arguments of a call, each [JsonElement] by the text its
    [ToString] gives. *)
Definition Arguments := gmap string string.

(** [new ArgumentException($"{key} is required")] *)
Definition ArgumentRequired (key : string) : exn :=
  JsError (key +:+ " is required").

Definition GetStringValue (args : Arguments) (key : string) : Outcome string :=
  match args !! key with
  | Some value => Ok value
  | None => Err (ArgumentRequired key)
  end.

Definition CreateCallToolResult (text : string) (isError : bool)
  : Tools.CallToolResult :=
  Tools.text_result text isError.

(** [JsonSerializer.Serialize(new { Success = true }, JsonOptions)] with
    the web defaults: camel-case names, no white space. *)
Definition success_true : string :=
  "{" +:+ Tools.quoted "success" +:+ ":true}".

Section Handler.
(** The two operations of the helper, the serializer of the result of
    [get_pr_changes], and [Convert.ToInt32] on a string. *)
Variable GetPrFileChangesAsync : string -> Prog (list FilePatch).
Variable PostPrCommentAsync : PrCommentOptions -> Prog unit.
Variable Serialize : Tools.ChangesPayload -> string.
Variable Convert_ToInt32 : string -> Outcome Z.

(** [CallToolHandler]; [toolName] is [request.Params?.Name] and [args] is
    [request.Params?.Arguments]. *)
Definition CallToolHandler (toolName : option string)
    (args : option Arguments) : Prog Tools.CallToolResult :=
  match toolName, args with
  | Some toolName, Some args =>
      if String.eqb toolName "get_pr_changes" then
        try_catch
          (prUrl ← settle (GetStringValue args "prUrl");
           changes ← GetPrFileChangesAsync prUrl;
           Ret (CreateCallToolResult
                  (Serialize {| Tools.success := true;
                                Tools.changesCount := length changes;
                                Tools.payload_changes := changes |})
                  false))
          (fun ex =>
             Ret (CreateCallToolResult
                    ("Error fetching PR changes: " +:+ Tools.errorMessage ex)
                    true))
      else if String.eqb toolName "post_pr_comment" then
        try_catch
          (prUrl ← settle (GetStringValue args "prUrl");
           comment ← settle (GetStringValue args "comment");
           filePath ← settle (GetStringValue args "filePath");
           startLine ← settle (GetStringValue args "rightFileStartLine");
           startLine ← settle (Convert_ToInt32 startLine);
           startOffset ← settle (GetStringValue args "rightFileStartOffset");
           startOffset ← settle (Convert_ToInt32 startOffset);
           endLine ← settle (GetStringValue args "rightFileEndLine");
           endLine ← settle (Convert_ToInt32 endLine);
           endOffset ← settle (GetStringValue args "rightFileEndOffset");
           endOffset ← settle (Convert_ToInt32 endOffset);
           _ ← PostPrCommentAsync
                 {| opt_prUrl := prUrl; comment := comment;
                    opt_filePath := filePath;
                    rightFileStartLine := startLine;
                    rightFileStartOffset := startOffset;
                    rightFileEndLine := endLine;
                    rightFileEndOffset := endOffset |};
           Ret (CreateCallToolResult success_true false))
          (fun ex =>
             Ret (CreateCallToolResult
                    ("Error posting comment: " +:+ Tools.errorMessage ex)
                    true))
      else Ret (CreateCallToolResult "Unknown tool" true)
  | _, _ => Ret (CreateCallToolResult "Unknown tool" true)
  end.

End Handler.

End DotNetTools.

(* ===================================================================== *)
(** * Line counts of a diff model *)
(* ===================================================================== *)

Module Hunks.
Import DotNet.

(** The pieces that stand for a line of the old text, of the new text. *)
Definition on_old (p : DiffPiece) : bool :=
  match Type_ p with
  | Unchanged | Deleted | Modified => true
  | Inserted | Imaginary => false
  end.

Definition on_new (p : DiffPiece) : bool :=
  match Type_ p with
  | Unchanged | Inserted | Modified => true
  | Deleted | Imaginary => false
  end.

Definition old_lines (l : list DiffPiece) : Z :=
  Z.of_nat (length (List.filter on_old l)).

Definition new_lines (l : list DiffPiece) : Z :=
  Z.of_nat (length (List.filter on_new l)).

(** The pieces that put lines into a hunk. *)
Definition changed (p : DiffPiece) : bool :=
  match Type_ p with
  | Deleted | Inserted | Modified => true
  | Unchanged | Imaginary => false
  end.

Definition starts_inserted (l : list DiffPiece) : bool :=
  match l with
  | p :: _ => match Type_ p with Inserted => true | _ => false end
  | [] => false
  end.

(** A run of pieces after which no hunk is pending: it is empty or ends
    with an unchanged piece. *)
Definition settled (l : list DiffPiece) : Prop :=
  l = [] \/ exists l' u, l = l' ++ [u] /\ Type_ u = Unchanged.

(** A run of pieces that closes the pending hunk at once: it is empty or
    starts with an unchanged piece. *)
Definition closing (l : list DiffPiece) : Prop :=
  l = [] \/ exists u l', l = u :: l' /\ Type_ u = Unchanged.

(** The local variables before the loop. *)
Definition initial (fileName : string) : Locals :=
  {| sb := header fileName; oldLineNumber := 1; newLineNumber := 1;
     hunkStart := 0; hunkLines := [] |}.

End Hunks.

(* ===================================================================== *)
(** * More sample services

    Variants of the sample service: pull requests without branch names,
    change lists without an eligible entry, blobs the service does not
    have, and token providers that yield no token. *)
(* ===================================================================== *)

Module Scenarios.
Import Models Async.

Definition pullRequest (source target : option string) : PullRequest :=
  {| pr_pullRequestId := Some 123%N;
     status := Some "active";
     mergeStatus := Some "succeeded";
     sourceRefName := source;
     targetRefName := target |}.

Definition ineligible : list GitChange :=
  [ {| item := Sample.gitItem "blob" "/gone.txt" (Some "o2") None;
       changeType := "delete" |};
    {| item := Sample.gitItem "tree" "/dir" None (Some "t1");
       changeType := "edit" |} ].

(** The decoders of the sample service, with four more tags. *)
Definition imports : Ado.Imports :=
  {| Ado.createPatch := Ado.createPatch (Imports:=Sample.imports);
     Ado.json_PullRequest body :=
       if String.eqb body "pr:no-refs"
       then Ok (pullRequest None None)
       else if String.eqb body "pr:empty-ref"
       then Ok (pullRequest (Some "refs/heads/") (Some "refs/heads/main"))
       else Ado.json_PullRequest (Imports:=Sample.imports) body;
     Ado.json_CommitDiffs body :=
       if String.eqb body "diffs:none"
       then Ok {| changes := None |}
       else if String.eqb body "diffs:ineligible"
       then Ok {| changes := Some ineligible |}
       else Ado.json_CommitDiffs (Imports:=Sample.imports) body;
     Ado.JSON_stringify := Ado.JSON_stringify (Imports:=Sample.imports) |}.

(** The sample service with the token provider answering [auth], the
    bodies [prBody] and [diffsBody] for the pull request and the change
    list, and no blob for the URLs in [missing]. *)
Definition env (auth : Outcome AuthOptions) (prBody diffsBody : string)
    (missing : list string) : Env :=
  {| env_tokenProvider _ := auth;
     env_fetch log url options :=
       if existsb (String.eqb url) missing
       then Sample.response 404 "Not Found" EmptyString
       else if String.eqb url Sample.diffsUrl
       then Sample.response 200 "OK" diffsBody
       else env_fetch (Sample.env prBody) log url options |}.

Definition pat : Outcome AuthOptions :=
  Ok {| type := "pat"; token := Some "abc" |}.

Definition no_token : Outcome AuthOptions :=
  Ok {| type := "pat"; token := None |}.

Definition prInfo : PrInfo :=
  {| organization := "org"; project := "project"; repository := "repo";
     pullRequestId := 123 |}.

(** An application with one user: the interactive acquisition signs the
    user in, the silent one serves that user's account only. *)
Definition app : Auth.PublicClientApplication :=
  {| Auth.acquireTokenSilent _ account :=
       if String.eqb account "user"
       then Ok {| Auth.accessToken := "silent-token";
                  Auth.account := Some account |}
       else Err (JsError "no_account_error");
     Auth.acquireTokenInteractive _ :=
       Ok {| Auth.accessToken := "interactive-token";
             Auth.account := Some "user" |} |}.

(** The sample service behind a provider made by [createAuthenticator]. *)
Definition env_of (provider : Auth.Provider) : Env :=
  {| env_tokenProvider := Auth.tokenProvider_of app provider;
     env_fetch := env_fetch (Sample.env "pr:active") |}.

(** A serializer that writes the count only. *)
Definition tools : Tools.Imports :=
  {| Tools.JSON_stringify_payload payload :=
       "changes:"
         +:+ Js.string_of_number (N.of_nat (Tools.changesCount payload)) |}.

End Scenarios.

(* ===================================================================== *)
(** * [createPatch] of the package [diff]

    [getFilePatch] calls [createPatch(filePath, old, new)] with neither
    headers nor options.  The package is a dependency of the TypeScript
    helper; its text is not part of the repository.  The definitions below
    follow the package: [createPatch] is [createTwoFilesPatch] with the file
    name given twice, which is [formatPatch] of [structuredPatch], and
    [structuredPatch] walks the change objects of [diffLines] with four
    lines of context, the default of the option [context]. *)
(* ===================================================================== *)

Module Jsdiff.
Import Models.

(** A change object of [diffLines]: [value] is the text of a run of lines,
    each with its line terminator; neither flag is set on a run common to
    both texts. *)
Record Change := {
  value : string;
  added : bool;
  removed : bool;
}.

Record Hunk := {
  oldStart : N;
  oldLines : N;
  newStart : N;
  newLines : N;
  lines : list string;
}.

(** The default of [options.context]. *)
Definition context : nat := 4.

(** [text.split('\n')] *)
Fixpoint split (cur text : string) : list string :=
  match text with
  | EmptyString => [cur]
  | String c text' =>
      if Ascii.eqb c "010" then cur :: split EmptyString text'
      else split (cur +:+ String c EmptyString) text'
  end.

(** [s.endsWith('\n')] and [s.slice(0, -1)] *)
Fixpoint endsWith_LF (s : string) : bool :=
  match s with
  | EmptyString => false
  | String c EmptyString => Ascii.eqb c "010"
  | String _ s' => endsWith_LF s'
  end.

Fixpoint slice_0_minus1 (s : string) : string :=
  match s with
  | EmptyString => EmptyString
  | String _ EmptyString => EmptyString
  | String c s' => String c (slice_0_minus1 s')
  end.

(** [splitLines]: the lines of a text, each with its line feed; the last
    one is without when the text does not end with a line feed. *)
Definition splitLines (text : string) : list string :=
  let result := map (fun line => line +:+ DotNet.LF) (split EmptyString text) in
  if endsWith_LF text then removelast result
  else removelast result ++ [slice_0_minus1 (List.last result EmptyString)].

(** The elements of the array the loop of [structuredPatch] walks: a change
    object with its lines, and at the end the empty object the function
    appends, [{value: '', lines: []}]. *)
Record Entry := {
  e_added : bool;
  e_removed : bool;
  e_lines : list string;
}.

Definition entry (c : Change) : Entry :=
  {| e_added := added c; e_removed := removed c;
     e_lines := splitLines (value c) |}.

Definition sentinel : Entry :=
  {| e_added := false; e_removed := false; e_lines := [] |}.

(** The local variables of the loop; [oldRangeStart] is [0] while no hunk
    is open. *)
Record Locals := {
  hunks : list Hunk;
  oldRangeStart : N;
  newRangeStart : N;
  curRange : list string;
  oldLine : N;
  newLine : N;
}.

Definition contextLines (ls : list string) : list string :=
  map (fun l => " " +:+ l) ls.

(** [ls.slice(-n)] *)
Definition slice_last (n : nat) (ls : list string) : list string :=
  skipn (length ls - n) ls.

Definition len (ls : list string) : N := N.of_nat (length ls).

(** One iteration of the loop on [current = diff[i]], with [prev] the
    element before it, if any, and [after] the number of elements that
    follow it: [i < diff.length - 2] is [2 <= after]. *)
Definition step (prev : option Entry) (current : Entry) (after : nat)
    (st : Locals) : Locals :=
  let lines := e_lines current in
  if e_added current || e_removed current then
    let st :=
      if (oldRangeStart st =? 0)%N then
        match prev with
        | Some p =>
            let cur := contextLines (slice_last context (e_lines p)) in
            {| hunks := hunks st;
               oldRangeStart := oldLine st - len cur;
               newRangeStart := newLine st - len cur;
               curRange := cur;
               oldLine := oldLine st; newLine := newLine st |}
        | None =>
            {| hunks := hunks st;
               oldRangeStart := oldLine st;
               newRangeStart := newLine st;
               curRange := curRange st;
               oldLine := oldLine st; newLine := newLine st |}
        end
      else st in
    {| hunks := hunks st;
       oldRangeStart := oldRangeStart st;
       newRangeStart := newRangeStart st;
       curRange :=
         curRange st
           ++ map (fun l => (if e_added current then "+" else "-") +:+ l) lines;
       oldLine := if e_added current then oldLine st
                  else (oldLine st + len lines)%N;
       newLine := if e_added current then (newLine st + len lines)%N
                  else newLine st |}
  else
    let st :=
      if (oldRangeStart st =? 0)%N then st
      else if (length lines <=? context * 2)%nat && (2 <=? after)%nat then
        {| hunks := hunks st;
           oldRangeStart := oldRangeStart st;
           newRangeStart := newRangeStart st;
           curRange := curRange st ++ contextLines lines;
           oldLine := oldLine st; newLine := newLine st |}
      else
        let contextSize := Nat.min (length lines) context in
        let curRange := curRange st ++ contextLines (firstn contextSize lines) in
        let hunk :=
          {| oldStart := oldRangeStart st;
             oldLines := oldLine st - oldRangeStart st + N.of_nat contextSize;
             newStart := newRangeStart st;
             newLines := newLine st - newRangeStart st + N.of_nat contextSize;
             lines := curRange |} in
        {| hunks := hunks st ++ [hunk];
           oldRangeStart := 0; newRangeStart := 0; curRange := [];
           oldLine := oldLine st; newLine := newLine st |} in
    {| hunks := hunks st;
       oldRangeStart := oldRangeStart st;
       newRangeStart := newRangeStart st;
       curRange := curRange st;
       oldLine := (oldLine st + len lines)%N;
       newLine := (newLine st + len lines)%N |}.

Fixpoint loop (prev : option Entry) (diff : list Entry) (st : Locals)
  : Locals :=
  match diff with
  | [] => st
  | current :: rest =>
      loop (Some current) rest (step prev current (length rest) st)
  end.

(** The second pass over the lines of a hunk: the line feed at the end of
    a line is dropped; a line without one is followed by the marker. *)
Definition settle_lines (ls : list string) : list string :=
  flat_map (fun l => if endsWith_LF l then [slice_0_minus1 l]
                     else [l; "\ No newline at end of file"]) ls.

Section CreatePatch.
(** [diffLines(oldStr, newStr, options)], the line comparison of the
    package. *)
Variable diffLines : string -> string -> list Change.

Definition structuredPatch (oldStr newStr : string) : list Hunk :=
  let diff := map entry (diffLines oldStr newStr) ++ [sentinel] in
  let st := loop None diff
              {| hunks := []; oldRangeStart := 0; newRangeStart := 0;
                 curRange := []; oldLine := 1; newLine := 1 |} in
  map (fun h => {| oldStart := oldStart h; oldLines := oldLines h;
                   newStart := newStart h; newLines := newLines h;
                   lines := settle_lines (lines h) |}) (hunks st).

(** The lines [formatPatch] joins, for a patch whose two file names are
    [fileName] and whose headers are [undefined]. *)
Definition formatHunk (hunk : Hunk) : list string :=
  let oldStart := if (oldLines hunk =? 0)%N then (oldStart hunk - 1)%N
                  else oldStart hunk in
  let newStart := if (newLines hunk =? 0)%N then (newStart hunk - 1)%N
                  else newStart hunk in
  ("@@ -" +:+ Js.string_of_number oldStart +:+ ","
     +:+ Js.string_of_number (oldLines hunk)
     +:+ " +" +:+ Js.string_of_number newStart +:+ ","
     +:+ Js.string_of_number (newLines hunk) +:+ " @@") :: lines hunk.

Definition createPatchLines (fileName oldStr newStr : string) : list string :=
  ["Index: " +:+ fileName;
   "===================================================================";
   "--- " +:+ fileName;
   "+++ " +:+ fileName]
  ++ flat_map formatHunk (structuredPatch oldStr newStr).

(** [ret.join('\n') + '\n'] *)
Definition createPatch (fileName oldStr newStr : string) : string :=
  String.concat DotNet.LF (createPatchLines fileName oldStr newStr)
    +:+ DotNet.LF.
End CreatePatch.

(** ** A sample line comparison

    [lineDiff] is one comparison of the kind [diffLines] makes, on which
    the statements are exercised: the lines of the two texts, each with its
    line feed, are aligned along a longest common subsequence, and runs of
    lines of one kind make one change object, removed lines before added
    ones. *)
Definition tokenize (text : string) : list string :=
  let pieces := split EmptyString text in
  map (fun line => line +:+ DotNet.LF) (removelast pieces)
  ++ (if String.eqb (List.last pieces EmptyString) EmptyString then []
      else [List.last pieces EmptyString]).

Definition change_of (p : DotNet.DiffPiece) : Change :=
  {| value := DotNet.Text p;
     added := match DotNet.Type_ p with DotNet.Inserted => true | _ => false end;
     removed := match DotNet.Type_ p with DotNet.Deleted => true | _ => false end |}.

Fixpoint group (pieces : list DotNet.DiffPiece) : list Change :=
  match pieces with
  | [] => []
  | p :: rest =>
      let c := change_of p in
      match group rest with
      | c' :: cs =>
          if Bool.eqb (added c) (added c') && Bool.eqb (removed c) (removed c')
          then {| value := value c +:+ value c'; added := added c;
                  removed := removed c |} :: cs
          else c :: c' :: cs
      | [] => [c]
      end
  end.

Definition lineDiff (oldStr newStr : string) : list Change :=
  group (DotNet.align (tokenize oldStr) (tokenize newStr)).

(** The change objects of the texts [a b c] and [a x c]. *)
Definition abc_axc_changes : list Change :=
  [ {| value := "a" +:+ DotNet.LF; added := false; removed := false |};
    {| value := "b" +:+ DotNet.LF; added := false; removed := true |};
    {| value := "x" +:+ DotNet.LF; added := true; removed := false |};
    {| value := "c" +:+ DotNet.LF; added := false; removed := false |} ].

(** The imported functions of the sample service, [createPatch] being that
    of the package on the sample line comparison; a file path that is
    [undefined] is printed as the string [undefined]. *)
Definition imports : Ado.Imports :=
  {| Ado.createPatch path old new :=
       createPatch lineDiff (default "undefined" path) old new;
     Ado.json_PullRequest := Ado.json_PullRequest (Imports:=Sample.imports);
     Ado.json_CommitDiffs := Ado.json_CommitDiffs (Imports:=Sample.imports);
     Ado.JSON_stringify := Ado.JSON_stringify (Imports:=Sample.imports) |}.

End Jsdiff.

(* ===================================================================== *)
(** * Properties *)
(* ===================================================================== *)

Import Models Async.

(** ** Strings *)

Lemma append_nil_l (a : string) : EmptyString +:+ a = a.
Proof. reflexivity. Qed.

Lemma append_cons x (a b : string) : String x a +:+ b = String x (a +:+ b).
Proof. reflexivity. Qed.

Lemma append_assoc (a b c : string) : (a +:+ b) +:+ c = a +:+ (b +:+ c).
Proof.
  induction a as [|x a IH]; [reflexivity|].
  rewrite !append_cons, IH. reflexivity.
Qed.

Lemma append_nil_r (a : string) : a +:+ EmptyString = a.
Proof.
  induction a as [|x a IH]; [reflexivity|].
  rewrite append_cons, IH. reflexivity.
Qed.

(** ** Runs of composed programs *)

Lemma run_bind {A B} env (p : Prog A) (f : A -> Prog B) log :
  run env (bind p f) log =
    match run env p log with
    | (Ok a, log') => run env (f a) log'
    | (Err e, log') => (Err e, log')
    end.
Proof.
  revert log. induction p as [a|e|k IH|u o k IH]; intros log; simpl; auto.
Qed.

Lemma run_mbind {A B} env (p : Prog A) (f : A -> Prog B) log :
  run env (p ≫= f) log =
    match run env p log with
    | (Ok a, log') => run env (f a) log'
    | (Err e, log') => (Err e, log')
    end.
Proof. apply run_bind. Qed.

Lemma settle_Ok_bind {A B} (a : A) (k : A -> Prog B) :
  settle (Ok a) ≫= k = k a.
Proof. reflexivity. Qed.

Lemma run_bind_Ok {A B} env (p : Prog A) (f : A -> Prog B) log b log' :
  run env (p ≫= f) log = (Ok b, log') ->
  exists a log1, run env p log = (Ok a, log1) /\ run env (f a) log1 = (Ok b, log').
Proof.
  rewrite run_mbind. destruct (run env p log) as [[a|e] log1]; [eauto|discriminate].
Qed.

Lemma returns_run {A} (Q : A -> Prop) env p log a log' :
  returns Q p -> run env p log = (Ok a, log') -> Q a.
Proof.
  revert log. induction p as [a0|e|k IH|u o k IH]; simpl; intros log HQ Hrun.
  - congruence.
  - discriminate.
  - eapply IH; [apply HQ|exact Hrun].
  - eapply IH; [apply HQ|exact Hrun].
Qed.

Lemma returns_mono {A} (Q Q' : A -> Prop) p :
  (forall a, Q a -> Q' a) -> returns Q p -> returns Q' p.
Proof.
  intros HQ. induction p as [a0|e|k IH|u o k IH]; simpl; auto.
Qed.

Lemma returns_bind {A B} (Q : B -> Prop) (p : Prog A) (f : A -> Prog B) :
  returns (fun a => returns Q (f a)) p -> returns Q (p ≫= f).
Proof.
  induction p as [a0|e|k IH|u o k IH]; simpl; auto.
Qed.

Lemma returns_bind_any {A B} (Q : B -> Prop) (p : Prog A) (f : A -> Prog B) :
  (forall a, returns Q (f a)) -> returns Q (p ≫= f).
Proof.
  intros Hf. apply returns_bind.
  induction p as [a0|e|k IH|u o k IH]; simpl; auto.
Qed.

Lemma completes_bind T F {A B} (p : Prog A) (f : A -> Prog B) :
  completes T F p -> (forall a, completes T F (f a)) ->
  completes T F (p ≫= f).
Proof.
  intros Hp Hf. induction p as [a0|e|k IH|u o k IH]; simpl in *; auto.
Qed.

Lemma completes_run T F {A} env (p : Prog A) log :
  obeys env T F -> completes T F p ->
  exists a log', run env p log = (Ok a, log').
Proof.
  intros [Htok Hfetch]. revert log.
  induction p as [a0|e|k IH|u o k IH]; simpl; intros log Hp.
  - eauto.
  - contradiction.
  - apply IH, Hp, Htok.
  - apply IH, Hp, Hfetch.
Qed.

(** ** [Promise.all] keeps the slots *)

Lemma join_in_order_slots {X A} (R : X -> A -> Prop) xs (pool : list (Prog A)) :
  Forall2 (fun x p => returns (R x) p) xs pool ->
  returns (fun vs => Forall2 R xs vs) (join_in_order pool).
Proof.
  induction 1 as [|x p xs pool Hp _ IH]; simpl; [constructor|].
  apply (returns_bind _ p). eapply returns_mono; [|exact Hp].
  intros v Hv. simpl.
  apply (returns_bind _ (join_in_order pool)).
  eapply returns_mono; [|exact IH].
  intros vs Hvs. simpl. constructor; assumption.
Qed.

Lemma Promise_all_slots {X A} (R : X -> A -> Prop) sched xs
    (pool : list (Prog A)) :
  Forall2 (fun x p => returns (R x) p) xs pool ->
  returns (fun vs => Forall2 R xs vs) (Promise_all sched pool).
Proof.
  revert pool. induction sched as [|i sched IH]; intros pool Hpool; simpl.
  - apply join_in_order_slots, Hpool.
  - destruct (pool !! i) as [p|] eqn:Hi; [|apply IH, Hpool].
    destruct (Forall2_lookup_r _ _ _ _ _ Hpool Hi) as (x & Hx & Hp).
    destruct p as [a|e|k|u o k]; simpl in *.
    + apply IH, Hpool.
    + exact I.
    + intros r. apply IH.
      rewrite <- (list_insert_id xs i x) by exact Hx.
      apply Forall2_insert; [exact Hpool|apply Hp].
    + intros r. apply IH.
      rewrite <- (list_insert_id xs i x) by exact Hx.
      apply Forall2_insert; [exact Hpool|apply Hp].
Qed.

(** ** Header objects *)

Lemma get_set k k' v h :
  Js.get k (Js.set k' v h) = if String.eqb k k' then Some v else Js.get k h.
Proof.
  induction h as [|[k0 v0] h IH]; simpl.
  - destruct (String.eqb_spec k k'); reflexivity.
  - destruct (String.eqb_spec k' k0) as [->|Hne]; simpl.
    + destruct (String.eqb_spec k k0); reflexivity.
    + rewrite IH. destruct (String.eqb_spec k k0) as [->|]; [|reflexivity].
      destruct (String.eqb_spec k0 k'); congruence.
Qed.

Lemma get_spread k a b :
  Js.get k b = None -> Js.get k (Js.spread a b) = Js.get k a.
Proof.
  unfold Js.spread. revert a.
  induction b as [|[k0 v0] b IH]; intros a Hb; simpl in *; [reflexivity|].
  destruct (String.eqb_spec k k0) as [->|Hne]; [discriminate|].
  rewrite IH by assumption. rewrite get_set.
  destruct (String.eqb_spec k k0); congruence.
Qed.

(** ** The eligibility filter *)

Lemma isSupportedChange_spec (change : GitChange) :
  Ado.isSupportedChange change = true <->
    (changeType change = "add" \/ changeType change = "edit")
    /\ gitObjectType (item change) = "blob"
    /\ is_Some (path (item change))
    /\ is_Some (url (item change)).
Proof.
  destruct change as [[oid ooid ty cid p f u] ct].
  unfold Ado.isSupportedChange; simpl.
  rewrite !andb_true_iff, !orb_true_iff, !bool_decide_eq_true.
  rewrite <- !not_eq_None_Some.
  destruct (String.eqb_spec ct "add"), (String.eqb_spec ct "edit"),
    (String.eqb_spec ty "blob"); intuition congruence.
Qed.

(** C4.  A change entry is eligible exactly when its change type is [add]
    or [edit], its item is a [blob], and the item's path and url are
    present; whatever list is filtered, no entry of type [delete], [rename]
    or [move] and no [tree] entry is left, whatever its path and url. *)
Theorem isSupportedChange_iff :
  (forall change : GitChange,
     Ado.isSupportedChange change = true <->
       (changeType change = "add" \/ changeType change = "edit")
       /\ gitObjectType (item change) = "blob"
       /\ is_Some (path (item change))
       /\ is_Some (url (item change)))
  /\ (forall changes : list GitChange,
        Forall (fun c => changeType c <> "delete"
                         /\ changeType c <> "rename"
                         /\ changeType c <> "move"
                         /\ gitObjectType (item c) <> "tree")
               (List.filter Ado.isSupportedChange changes)).
Proof.
  split; [exact isSupportedChange_spec|].
  intros changes. apply List.Forall_forall. intros c Hc.
  apply List.filter_In in Hc as [_ Hc]. apply isSupportedChange_spec in Hc.
  destruct Hc as ([-> | ->] & -> & _); repeat split; discriminate.
Qed.

Section Helper.
Context {imports : Ado.Imports}.

(** ** The REST gateway *)

Lemma run_getDefaultHeaders env log auth :
  env_tokenProvider env log = Ok auth ->
  Js.truthy (token auth) = true ->
  run env Ado.getDefaultHeaders log
  = (Ok (Spec.defaultHeaders auth), log ++ [TokenRequested]).
Proof.
  intros Htok Htruthy. unfold Ado.getDefaultHeaders, tokenProvider.
  rewrite run_mbind. simpl. rewrite Htok. simpl. rewrite Htruthy. simpl.
  unfold Spec.defaultHeaders, Spec.authorization, Spec.kind_of.
  destruct (String.eqb (type auth) "pat"); reflexivity.
Qed.

Lemma run_sendRequest env log auth url msg options :
  env_tokenProvider env log = Ok auth ->
  Js.truthy (token auth) = true ->
  run env (Ado.sendRequest url msg options) log
  = let log' :=
      log ++ [TokenRequested; Fetched url (Spec.outgoing auth options)] in
    match env_fetch env (log ++ [TokenRequested]) url
            (Spec.outgoing auth options) with
    | Ok r =>
        if ok r then (Ok r, log')
        else (Err (Ado.RemoteRequestFailed msg r), log')
    | Err e => (Err e, log')
    end.
Proof.
  intros Htok Htruthy. unfold Ado.sendRequest.
  rewrite run_mbind, (run_getDefaultHeaders _ _ auth) by assumption.
  rewrite run_mbind. unfold fetch. simpl. fold (Spec.outgoing auth options).
  rewrite <- app_assoc. simpl.
  destruct (env_fetch _ _ _ _) as [r|e]; simpl; [|reflexivity].
  destruct (ok r); reflexivity.
Qed.

(** C7.  For a credential with a non-empty token the gateway's headers
    carry [Authorization: Basic base64(":" + token)] when the credential
    is of the static kind (["pat"]) and [Authorization: Bearer token]
    otherwise; the request [sendRequest] hands to [fetch] carries the same
    value for every URL, error label and caller options that do not set
    the header themselves; the static token ["abc"] gives exactly
    [Basic OmFiYw==]. *)
Theorem authorization_by_kind env log auth tok :
  env_tokenProvider env log = Ok auth ->
  token auth = Some tok ->
  tok <> EmptyString ->
  let expected :=
    if bool_decide (type auth = "pat")
    then "Basic " +:+ Js.btoa (":" +:+ tok)
    else "Bearer " +:+ tok in
  (exists headers,
      run env Ado.getDefaultHeaders log = (Ok headers, log ++ [TokenRequested])
      /\ Js.get "Authorization" headers = Some expected)
  /\ (forall url msg options,
        Js.get "Authorization" (default [] (headers options)) = None ->
        exists sent outcome,
          run env (Ado.sendRequest url msg options) log
          = (outcome, log ++ [TokenRequested; Fetched url sent])
          /\ Js.get "Authorization" (default [] (headers sent)) = Some expected)
  /\ (type auth = "pat" -> tok = "abc" -> expected = "Basic OmFiYw==").
Proof.
  intros Htok Htoken Hne expected.
  assert (Htruthy : Js.truthy (token auth) = true).
  { rewrite Htoken. simpl.
    destruct (String.eqb_spec tok EmptyString); [contradiction | reflexivity]. }
  assert (Hexp : Js.get "Authorization" (Spec.defaultHeaders auth)
                 = Some expected).
  { unfold Spec.defaultHeaders, Spec.kind_of, expected. simpl.
    rewrite Htoken. simpl.
    destruct (String.eqb_spec (type auth) "pat") as [Heq|Hneq].
    - rewrite bool_decide_eq_true_2 by assumption. reflexivity.
    - rewrite bool_decide_eq_false_2 by assumption. reflexivity. }
  split; [|split].
  - exists (Spec.defaultHeaders auth). split; [|exact Hexp].
    apply run_getDefaultHeaders; assumption.
  - intros url msg options Hnone.
    exists (Spec.outgoing auth options).
    rewrite (run_sendRequest _ _ auth) by assumption. simpl.
    destruct (env_fetch _ _ _ _) as [r|e];
      [destruct (ok r)|]; eexists; (split; [reflexivity|]);
      rewrite get_spread by assumption; exact Hexp.
  - intros Hpat ->. unfold expected.
    rewrite bool_decide_eq_true_2 by assumption. reflexivity.
Qed.

(** ** Locator failures *)

Lemma parsePrUrl_Err prUrl e :
  Ado.parsePrUrl prUrl = Err e -> e = Ado.InvalidLocator.
Proof.
  unfold Ado.parsePrUrl.
  destruct (Ado.parsePrUrlInternal prUrl Ado.devAzureRegex); [discriminate|].
  destruct (Ado.parsePrUrlInternal prUrl Ado.visualStudioRegex);
    [discriminate|].
  congruence.
Qed.

(** C10.  When parsing the URL fails, both public operations are the
    program that throws [InvalidLocator] at once: they reach no suspension
    point, so no credential is acquired and no HTTP request is issued, and
    every run leaves the event log as it found it. *)
Theorem locator_failure_has_no_effect prUrl e :
  Ado.parsePrUrl prUrl = Err e ->
  e = Ado.InvalidLocator
  /\ (forall sched, Ado.getPrFileChanges sched prUrl = Throw Ado.InvalidLocator)
  /\ (forall options, Ado.postPrComment prUrl options = Throw Ado.InvalidLocator)
  /\ (forall env log sched,
        run env (Ado.getPrFileChanges sched prUrl) log
        = (Err Ado.InvalidLocator, log))
  /\ (forall env log options,
        run env (Ado.postPrComment prUrl options) log
        = (Err Ado.InvalidLocator, log)).
Proof.
  intros Hparse. pose proof (parsePrUrl_Err _ _ Hparse) as ->.
  assert (Hget : forall sched,
             Ado.getPrFileChanges sched prUrl = Throw Ado.InvalidLocator).
  { intros sched. unfold Ado.getPrFileChanges. rewrite Hparse. reflexivity. }
  assert (Hpost : forall options,
             Ado.postPrComment prUrl options = Throw Ado.InvalidLocator).
  { intros options. unfold Ado.postPrComment. rewrite Hparse. reflexivity. }
  repeat split; auto.
  - intros env log sched. rewrite Hget. reflexivity.
  - intros env log options. rewrite Hpost. reflexivity.
Qed.

(** ** The per-file task *)

(** C9.  An [add] or [edit] entry on a blob with a path and a url but with
    neither [objectId] nor [originalObjectId] is eligible, and its per-file
    task returns at once, without any request: the patch is the diff of
    the empty text against the empty text and [sourceContent] is absent. *)
Theorem no_blob_id_still_eligible (change : GitChange) baseUrl p u :
  changeType change = "add" \/ changeType change = "edit" ->
  gitObjectType (item change) = "blob" ->
  path (item change) = Some p ->
  url (item change) = Some u ->
  objectId (item change) = None ->
  originalObjectId (item change) = None ->
  let result :=
    {| filePath := Some p; sourceContent := None;
       patch := Ado.createPatch (Some p) EmptyString EmptyString |} in
  Ado.isSupportedChange change = true
  /\ Ado.getFilePatch (item change) baseUrl = Ret result
  /\ (forall env log,
        run env (Ado.getFilePatch (item change) baseUrl) log = (Ok result, log)).
Proof.
  intros Hct Hty Hp Hu Hnew Hold result.
  assert (Hpatch : Ado.getFilePatch (item change) baseUrl = Ret result).
  { unfold Ado.getFilePatch. rewrite Hold, Hnew, Hp. reflexivity. }
  split; [|split; [exact Hpatch|]].
  - apply isSupportedChange_spec. rewrite Hp, Hu. eauto.
  - intros env log. rewrite Hpatch. reflexivity.
Qed.

(** ** The comment publisher *)

(** C8.  For a URL that parses and a credential with a non-empty token,
    [postPrComment] issues one request: a POST to
    [{baseUrl}/pullRequests/{id}/threads] whose body is the serialized
    thread with exactly one comment, the supplied text, and a thread
    context made of the supplied file path and the start and end
    line/offset pairs.  Whenever the answer has a status from 200 to 299
    the operation succeeds, and what it returns is [tt]: nothing of the
    answer's body is handed back. *)
Theorem postPrComment_publishes env log prUrl prInfo options auth r :
  Ado.parsePrUrl prUrl = Ok prInfo ->
  env_tokenProvider env log = Ok auth ->
  Js.truthy (token auth) = true ->
  let baseUrl :=
    Ado.getBaseUrl (organization prInfo) (project prInfo) (repository prInfo) in
  let threadUrl :=
    baseUrl +:+ "/pullRequests/" +:+ Js.string_of_number (pullRequestId prInfo)
      +:+ "/threads?api-version=7.1" in
  let thread :=
    {| comments := [{| content := comment options |}];
       threadContext :=
         {| tc_filePath := opt_filePath options;
            rightFileStart :=
              Some {| line := rightFileStartLine options;
                      offset := rightFileStartOffset options |};
            rightFileEnd :=
              Some {| line := rightFileEndLine options;
                      offset := rightFileEndOffset options |} |} |} in
  let request :=
    {| method := Some "POST";
       headers := Some (Spec.defaultHeaders auth);
       body := Some (Ado.JSON_stringify thread) |} in
  env_fetch env (log ++ [TokenRequested]) threadUrl request = Ok r ->
  (200 <= r_status r <= 299)%N ->
  run env (Ado.postPrComment prUrl options) log
  = (Ok tt, log ++ [TokenRequested; Fetched threadUrl request]).
Proof.
  intros Hparse Htok Htruthy baseUrl threadUrl thread request Hfetch Hstatus.
  assert (Hok : ok r = true).
  { unfold ok. apply andb_true_iff. split; apply N.leb_le; lia. }
  unfold Ado.postPrComment. rewrite Hparse, settle_Ok_bind. cbv zeta.
  rewrite run_mbind, (run_sendRequest _ _ auth) by assumption.
  change (Spec.outgoing auth _) with request.
  change (Ado.getThreadUrl _ _) with threadUrl.
  cbv zeta. rewrite Hfetch, Hok. reflexivity.
Qed.

(** ** The pull-request gate *)

(** C3.  Once the pull-request summary has been fetched and decoded, a
    status other than ["active"] makes [getPrFileChanges] fail with
    [PullRequestNotActive], and an active summary whose merge status is
    not ["succeeded"] makes it fail with [PullRequestHasConflicts]; in
    both cases the run has asked for the token once and fetched the
    summary, and nothing else: the change list is never requested. *)
Theorem gate_fails_before_change_list env log sched prUrl prInfo auth r pr :
  Ado.parsePrUrl prUrl = Ok prInfo ->
  env_tokenProvider env log = Ok auth ->
  Js.truthy (token auth) = true ->
  let baseUrl :=
    Ado.getBaseUrl (organization prInfo) (project prInfo) (repository prInfo) in
  let prDetailsUrl := Ado.getPrDetailsUrl baseUrl (pullRequestId prInfo) in
  let request := Spec.outgoing auth Ado.no_options in
  env_fetch env (log ++ [TokenRequested]) prDetailsUrl request = Ok r ->
  ok r = true ->
  Ado.json_PullRequest (r_body r) = Ok pr ->
  let log' := log ++ [TokenRequested; Fetched prDetailsUrl request] in
  (status pr <> Some "active" ->
   run env (Ado.getPrFileChanges sched prUrl) log
   = (Err Ado.PullRequestNotActive, log'))
  /\ (status pr = Some "active" ->
      mergeStatus pr <> Some "succeeded" ->
      run env (Ado.getPrFileChanges sched prUrl) log
      = (Err Ado.PullRequestHasConflicts, log')).
Proof.
  intros Hparse Htok Htruthy baseUrl prDetailsUrl request Hfetch Hok Hjson log'.
  assert (Hrun : forall k : PullRequest -> Prog (list FilePatch),
    run env (Ado.getPrDetails prDetailsUrl ≫= k) log =
      if Ado.differs (status pr) "active"
      then (Err Ado.PullRequestNotActive, log')
      else if Ado.differs (mergeStatus pr) "succeeded"
      then (Err Ado.PullRequestHasConflicts, log')
      else run env (k pr) log').
  { intros k. rewrite run_mbind. unfold Ado.getPrDetails.
    rewrite run_mbind, (run_sendRequest _ _ auth) by assumption.
    fold request. cbv zeta. rewrite Hfetch, Hok.
    rewrite run_mbind, Hjson. cbn [settle run].
    destruct (Ado.differs (status pr) "active"); [reflexivity|].
    destruct (Ado.differs (mergeStatus pr) "succeeded"); reflexivity. }
  unfold Ado.getPrFileChanges. rewrite Hparse, settle_Ok_bind. cbv zeta.
  fold baseUrl. fold prDetailsUrl. rewrite Hrun.
  unfold Ado.differs. split.
  - intros Hst. rewrite bool_decide_eq_false_2 by assumption. reflexivity.
  - intros Hst Hms. rewrite bool_decide_eq_true_2 by assumption. simpl.
    rewrite bool_decide_eq_false_2 by assumption. reflexivity.
Qed.

(** ** The fan-out *)

Lemma getFilePatch_returns f baseUrl :
  returns (Spec.diffOf f) (Ado.getFilePatch f baseUrl).
Proof.
  unfold Ado.getFilePatch. cbv zeta.
  apply returns_bind_any. intros sourceContent.
  apply returns_bind_any. intros newContent.
  split; [reflexivity|]. exists newContent. reflexivity.
Qed.

Lemma join_in_order_completes T F {A} (pool : list (Prog A)) :
  Forall (completes T F) pool -> completes T F (join_in_order pool).
Proof.
  induction 1 as [|p pool Hp _ IH]; simpl; [exact I|].
  apply (completes_bind T F p); [exact Hp|]. intros v.
  apply (completes_bind T F (join_in_order pool)); [exact IH|].
  intros vs. exact I.
Qed.

Lemma Promise_all_completes T F {A} sched (pool : list (Prog A)) :
  Forall (completes T F) pool -> completes T F (Promise_all sched pool).
Proof.
  revert pool. induction sched as [|i sched IH]; intros pool Hpool; simpl.
  - apply join_in_order_completes, Hpool.
  - destruct (pool !! i) as [p|] eqn:Hi; [|apply IH, Hpool].
    pose proof (Forall_lookup_1 _ _ _ _ Hpool Hi) as Hp.
    destruct p as [a|e|k|u o k]; simpl in *.
    + apply IH, Hpool.
    + contradiction.
    + intros r Hr. apply IH, Forall_insert; auto.
    + intros r Hr. apply IH, Forall_insert; auto.
Qed.

Lemma getBlobContent_completes urls url :
  In url urls -> completes token_granted (served urls) (Ado.getBlobContent url).
Proof.
  intros Hin. unfold Ado.getBlobContent, Ado.sendRequest, Ado.getDefaultHeaders.
  simpl. intros r (auth & -> & Htruthy). simpl. rewrite Htruthy. simpl.
  intros r Hr. destruct (Hr Hin) as (resp & -> & Hok). simpl.
  rewrite Hok. exact I.
Qed.

(** The blob URLs the task of a file item asks for. *)
Lemma getFilePatch_completes urls f baseUrl :
  (forall sha,
     originalObjectId f = Some sha \/ objectId f = Some sha ->
     sha <> EmptyString ->
     In (Ado.getBlobUrl baseUrl sha) urls) ->
  completes token_granted (served urls) (Ado.getFilePatch f baseUrl).
Proof.
  intros Hurls. unfold Ado.getFilePatch. cbv zeta.
  assert (Hblob : forall o : option string,
            originalObjectId f = o \/ objectId f = o ->
            completes token_granted (served urls)
              (if Js.truthy o
               then Ado.getBlobContent
                      (Ado.getBlobUrl baseUrl (default EmptyString o))
               else Ret None)).
  { intros [sha|] Ho; simpl; [|exact I].
    destruct (String.eqb_spec sha EmptyString) as [->|Hne]; simpl; [exact I|].
    apply getBlobContent_completes, Hurls; assumption. }
  apply completes_bind; [apply Hblob; auto|]. intros sourceContent.
  apply completes_bind; [apply Hblob; auto|]. intros newContent.
  exact I.
Qed.

Lemma getPrFileChanges_slots env sched prUrl log res log' :
  run env (Ado.getPrFileChanges sched prUrl) log = (Ok res, log') ->
  exists prInfo prDetails changes log1 log2,
    Ado.parsePrUrl prUrl = Ok prInfo
    /\ (let baseUrl :=
          Ado.getBaseUrl (organization prInfo) (project prInfo)
            (repository prInfo) in
        run env (Ado.getPrDetails
                   (Ado.getPrDetailsUrl baseUrl (pullRequestId prInfo))) log
        = (Ok prDetails, log1)
        /\ run env (Ado.getGitChanges
                      (Ado.getDiffsUrl baseUrl
                         (Ado.branchName (sourceRefName prDetails))
                         (Ado.branchName (targetRefName prDetails)))) log1
           = (Ok changes, log2))
    /\ (let fileItems := map item (List.filter Ado.isSupportedChange changes) in
        fileItems <> []
        /\ length res = length fileItems
        /\ map filePath res = map path fileItems
        /\ Forall2 Spec.diffOf fileItems res).
Proof.
  unfold Ado.getPrFileChanges. intros Hrun.
  destruct (Ado.parsePrUrl prUrl) as [prInfo|e] eqn:Hparse;
    [rewrite settle_Ok_bind in Hrun|discriminate Hrun].
  cbv zeta in Hrun.
  apply run_bind_Ok in Hrun as (prDetails & log1 & Hdetails & Hrun).
  destruct (_ || _); [discriminate Hrun|].
  apply run_bind_Ok in Hrun as (changes & log2 & Hchanges & Hrun).
  destruct (length changes =? 0)%nat; [discriminate Hrun|].
  destruct (length (map item (List.filter Ado.isSupportedChange changes)) =? 0)%nat
    eqn:Hnonempty; [discriminate Hrun|].
  apply run_bind_Ok in Hrun as (fileChanges & log3 & Hall & Hret).
  simpl in Hret. injection Hret as -> ->.
  exists prInfo, prDetails, changes, log1, log2.
  split; [reflexivity|]. split; [split; assumption|]. cbv zeta.
  set (fileItems := map item (List.filter Ado.isSupportedChange changes)) in *.
  assert (Hslots : Forall2 Spec.diffOf fileItems res).
  { eapply returns_run; [|exact Hall].
    apply Promise_all_slots. apply Forall2_fmap_r, Forall_Forall2_diag.
    apply List.Forall_forall. intros f _. apply getFilePatch_returns. }
  split; [|split; [|split; [|exact Hslots]]].
  - intros Hnil. rewrite Hnil in Hnonempty. discriminate.
  - symmetry. eapply Forall2_length, Hslots.
  - clear -Hslots. induction Hslots as [|f r fs rs [Hpath _] _ IH]; simpl;
      [reflexivity|]. rewrite Hpath, IH. reflexivity.
Qed.

Lemma Forall2_diffOf_paths fileItems res :
  Forall2 Spec.diffOf fileItems res -> map filePath res = map path fileItems.
Proof.
  induction 1 as [|f r fs rs [Hpath _] _ IH]; simpl; [reflexivity|].
  rewrite Hpath, IH. reflexivity.
Qed.

(** The blob URLs the per-file tasks of [fileItems] ask for. *)
Lemma getFileTasks_complete env baseUrl fileItems sched log :
  (forall log, token_granted (env_tokenProvider env log)) ->
  (forall log f sha o,
     In f fileItems ->
     originalObjectId f = Some sha \/ objectId f = Some sha ->
     exists resp,
       env_fetch env log (Ado.getBlobUrl baseUrl sha) o = Ok resp
       /\ ok resp = true) ->
  exists res log',
    run env (Promise_all sched
               (map (fun f => Ado.getFilePatch f baseUrl) fileItems)) log
    = (Ok res, log').
Proof.
  intros Htok Hblob.
  set (urls := flat_map
                 (fun f => map (Ado.getBlobUrl baseUrl)
                             (option_list (originalObjectId f)
                                ++ option_list (objectId f))) fileItems).
  apply (completes_run token_granted (served urls)).
  - split; [exact Htok|]. intros log0 u o Hin.
    apply in_flat_map in Hin as (f & Hf & Hin).
    apply in_map_iff in Hin as (sha & <- & Hsha).
    apply (Hblob log0 f sha o Hf).
    apply in_app_iff in Hsha as [Hsha|Hsha]; [left|right];
      [destruct (originalObjectId f)|destruct (objectId f)]; simpl in Hsha;
      intuition congruence.
  - apply Promise_all_completes, Forall_fmap, List.Forall_forall.
    intros f Hf. apply getFilePatch_completes. intros sha Hsha _.
    apply in_flat_map. exists f. split; [exact Hf|].
    apply in_map, in_app_iff.
    destruct Hsha as [-> | ->]; [left|right]; simpl; auto.
Qed.

Lemma getPrFileChanges_returns env sched prUrl log prInfo prDetails changes
    log1 log2 :
  Ado.parsePrUrl prUrl = Ok prInfo ->
  let baseUrl :=
    Ado.getBaseUrl (organization prInfo) (project prInfo) (repository prInfo) in
  let sourceBranch := Ado.branchName (sourceRefName prDetails) in
  let targetBranch := Ado.branchName (targetRefName prDetails) in
  let fileItems := map item (List.filter Ado.isSupportedChange changes) in
  run env (Ado.getPrDetails
             (Ado.getPrDetailsUrl baseUrl (pullRequestId prInfo))) log
  = (Ok prDetails, log1) ->
  sourceBranch <> EmptyString -> targetBranch <> EmptyString ->
  run env (Ado.getGitChanges
             (Ado.getDiffsUrl baseUrl sourceBranch targetBranch)) log1
  = (Ok changes, log2) ->
  fileItems <> [] ->
  (forall log, token_granted (env_tokenProvider env log)) ->
  (forall log f sha o,
     In f fileItems ->
     originalObjectId f = Some sha \/ objectId f = Some sha ->
     exists resp,
       env_fetch env log (Ado.getBlobUrl baseUrl sha) o = Ok resp
       /\ ok resp = true) ->
  exists res log',
    run env (Ado.getPrFileChanges sched prUrl) log = (Ok res, log')
    /\ length res = length fileItems
    /\ map filePath res = map path fileItems
    /\ Forall2 Spec.diffOf fileItems res.
Proof.
  intros Hparse baseUrl sourceBranch targetBranch fileItems
    Hdetails Hsource Htarget Hchanges Hitems Htok Hblob.
  destruct (getFileTasks_complete env baseUrl fileItems sched log2 Htok Hblob)
    as (res & log' & Hall).
  assert (Hrun : run env (Ado.getPrFileChanges sched prUrl) log
                 = (Ok res, log')).
  { unfold Ado.getPrFileChanges. rewrite Hparse, settle_Ok_bind. cbv zeta.
    fold baseUrl. rewrite run_mbind, Hdetails.
    fold sourceBranch targetBranch.
    destruct (String.eqb_spec sourceBranch EmptyString); [contradiction|].
    destruct (String.eqb_spec targetBranch EmptyString); [contradiction|].
    cbn [orb]. rewrite run_mbind, Hchanges. fold fileItems.
    destruct changes as [|c changes]; [contradiction Hitems; reflexivity|].
    cbn [length Nat.eqb].
    destruct fileItems as [|f fileItems'] eqn:Hfi; [contradiction|].
    cbn [length Nat.eqb]. rewrite run_mbind, Hall. reflexivity. }
  exists res, log'. split; [exact Hrun|].
  destruct (getPrFileChanges_slots _ _ _ _ _ _ Hrun)
    as (prInfo' & prDetails' & changes' & log1' & log2' & Hparse' & Hruns
        & _ & Hlen & Hpaths & Hslots).
  rewrite Hparse in Hparse'. injection Hparse' as <-.
  cbv zeta in Hruns. destruct Hruns as [Hdetails' Hchanges'].
  fold baseUrl in Hdetails', Hchanges'.
  rewrite Hdetails in Hdetails'. injection Hdetails' as <- <-.
  fold sourceBranch targetBranch in Hchanges'.
  rewrite Hchanges in Hchanges'. injection Hchanges' as <- <-.
  auto.
Qed.

(** C6.  Whatever order the event loop resumes the per-file tasks in:
    when [getPrFileChanges] returns an array, the change list it fetched
    has a non-empty eligible part, and the array has one [FilePatch] for
    each eligible entry, at the entry's position in the filtered change
    list (same length, same paths in the same order, each patch computed
    for the entry at that position); and it does return such an array for
    every pull request that passes the gate and has a non-empty eligible
    change set, when the token provider grants a token and the service
    serves the blobs of the eligible entries. *)
Theorem results_follow_change_list_order :
  (forall env sched prUrl log res log',
     run env (Ado.getPrFileChanges sched prUrl) log = (Ok res, log') ->
     exists prInfo prDetails changes log1 log2,
       Ado.parsePrUrl prUrl = Ok prInfo
       /\ (let baseUrl :=
             Ado.getBaseUrl (organization prInfo) (project prInfo)
               (repository prInfo) in
           run env (Ado.getPrDetails
                      (Ado.getPrDetailsUrl baseUrl (pullRequestId prInfo))) log
           = (Ok prDetails, log1)
           /\ run env (Ado.getGitChanges
                         (Ado.getDiffsUrl baseUrl
                            (Ado.branchName (sourceRefName prDetails))
                            (Ado.branchName (targetRefName prDetails)))) log1
              = (Ok changes, log2))
       /\ (let fileItems :=
             map item (List.filter Ado.isSupportedChange changes) in
           fileItems <> []
           /\ length res = length fileItems
           /\ map filePath res = map path fileItems
           /\ Forall2 Spec.diffOf fileItems res))
  /\ (forall env sched prUrl log prInfo prDetails changes log1 log2,
        Ado.parsePrUrl prUrl = Ok prInfo ->
        let baseUrl :=
          Ado.getBaseUrl (organization prInfo) (project prInfo)
            (repository prInfo) in
        let sourceBranch := Ado.branchName (sourceRefName prDetails) in
        let targetBranch := Ado.branchName (targetRefName prDetails) in
        let fileItems :=
          map item (List.filter Ado.isSupportedChange changes) in
        run env (Ado.getPrDetails
                   (Ado.getPrDetailsUrl baseUrl (pullRequestId prInfo))) log
        = (Ok prDetails, log1) ->
        sourceBranch <> EmptyString -> targetBranch <> EmptyString ->
        run env (Ado.getGitChanges
                   (Ado.getDiffsUrl baseUrl sourceBranch targetBranch)) log1
        = (Ok changes, log2) ->
        fileItems <> [] ->
        (forall log, token_granted (env_tokenProvider env log)) ->
        (forall log f sha o,
           In f fileItems ->
           originalObjectId f = Some sha \/ objectId f = Some sha ->
           exists resp,
             env_fetch env log (Ado.getBlobUrl baseUrl sha) o = Ok resp
             /\ ok resp = true) ->
        exists res log',
          run env (Ado.getPrFileChanges sched prUrl) log = (Ok res, log')
          /\ length res = length fileItems
          /\ map filePath res = map path fileItems
          /\ Forall2 Spec.diffOf fileItems res).
Proof.
  split.
  - exact getPrFileChanges_slots.
  - exact getPrFileChanges_returns.
Qed.

End Helper.

(** ** The diff synthesizer *)

Section SynthesizerProperties.
Import DotNet.
Variable BuildDiffModel : string -> string -> list DiffPiece.

Lemma WriteHunk_render sb0 a b c lines :
  WriteHunk sb0 a b c lines
  = sb0 ++ render {| h_start := a; h_oldCount := b; h_newCount := c;
                     h_body := lines |}.
Proof. reflexivity. Qed.

Lemma loop_inv_flush hdr seen st :
  loop_inv hdr seen st ->
  hunkLines st <> [] ->
  loop_inv hdr seen
    {| sb := WriteHunk (sb st) (hunkStart st)
               (minus (oldLineNumber st) (hunkStart st))
               (minus (newLineNumber st) (hunkStart st)) (hunkLines st);
       oldLineNumber := oldLineNumber st;
       newLineNumber := newLineNumber st;
       hunkStart := hunkStart st;
       hunkLines := [] |}.
Proof.
  intros (hunks & Hsb & Hbody & Hne) Hpending.
  eexists (hunks ++ [_]). simpl. rewrite WriteHunk_render, Hsb.
  rewrite flat_map_app, map_app, concat_app, <- app_assoc. simpl.
  rewrite !app_nil_r. repeat split; [exact Hbody|].
  apply Forall_app. split; [exact Hne|]. constructor; [exact Hpending|constructor].
Qed.

Lemma loop_inv_step hdr seen st line :
  loop_inv hdr seen st -> loop_inv hdr (seen ++ [line]) (step st line).
Proof.
  intros Hinv. unfold step.
  assert (Hcl : changed_lines line =
                match Type_ line with
                | Deleted => ["-" +:+ Text line]
                | Inserted => ["+" +:+ Text line]
                | Modified => ["-" +:+ Text line; "+" +:+ Text line]
                | Unchanged | Imaginary => []
                end) by reflexivity.
  destruct (Type_ line).
  - (* Unchanged *)
    assert (Hinv' : loop_inv hdr seen
      (if (0 <? length (hunkLines st))%nat
       then {| sb := WriteHunk (sb st) (hunkStart st)
                       (minus (oldLineNumber st) (hunkStart st))
                       (minus (newLineNumber st) (hunkStart st)) (hunkLines st);
               oldLineNumber := oldLineNumber st;
               newLineNumber := newLineNumber st;
               hunkStart := hunkStart st;
               hunkLines := [] |}
       else st)).
    { destruct (hunkLines st) eqn:Hpending; simpl; [exact Hinv|].
      rewrite <- Hpending. apply loop_inv_flush; [exact Hinv|].
      rewrite Hpending. discriminate. }
    destruct Hinv' as (hunks & Hsb & Hbody & Hne).
    exists hunks. simpl. rewrite flat_map_app. simpl.
    rewrite Hcl, !app_nil_r. auto.
  - (* Deleted *)
    destruct Hinv as (hunks & Hsb & Hbody & Hne).
    exists hunks. simpl. rewrite flat_map_app, app_assoc, Hbody. simpl.
    rewrite Hcl, app_nil_r. auto.
  - (* Inserted *)
    destruct Hinv as (hunks & Hsb & Hbody & Hne).
    exists hunks. simpl. rewrite flat_map_app, app_assoc, Hbody. simpl.
    rewrite Hcl, app_nil_r. auto.
  - (* Imaginary *)
    destruct Hinv as (hunks & Hsb & Hbody & Hne).
    exists hunks. rewrite flat_map_app. simpl.
    rewrite Hcl, !app_nil_r. auto.
  - (* Modified *)
    destruct Hinv as (hunks & Hsb & Hbody & Hne).
    exists hunks. simpl. rewrite flat_map_app, app_assoc, Hbody. simpl.
    rewrite Hcl, app_nil_r. auto.
Qed.

Lemma loop_inv_fold hdr pieces seen st :
  loop_inv hdr seen st ->
  loop_inv hdr (seen ++ pieces) (fold_left step pieces st).
Proof.
  revert seen st. induction pieces as [|p pieces IH]; intros seen st Hinv; simpl.
  - rewrite app_nil_r. exact Hinv.
  - replace (seen ++ p :: pieces) with ((seen ++ [p]) ++ pieces)
      by (rewrite <- app_assoc; reflexivity).
    apply IH, loop_inv_step, Hinv.
Qed.

Lemma GenerateUnifiedDiffLines_hunks fileName oldText newText :
  exists hunks,
    GenerateUnifiedDiffLines BuildDiffModel fileName oldText newText
    = header fileName ++ flat_map render hunks
    /\ concat (map h_body hunks)
       = flat_map changed_lines (BuildDiffModel oldText newText)
    /\ Forall (fun h => h_body h <> []) hunks.
Proof.
  unfold GenerateUnifiedDiffLines. cbv zeta.
  set (st0 := {| sb := header fileName; oldLineNumber := 1;
                 newLineNumber := 1; hunkStart := 0; hunkLines := [] |}).
  assert (H0 : loop_inv (header fileName) [] st0).
  { exists []. split; [apply eq_sym, app_nil_r|]. split; [reflexivity|constructor]. }
  apply (loop_inv_fold _ (BuildDiffModel oldText newText)) in H0.
  simpl in H0. set (st := fold_left step _ st0) in *.
  unfold finish. destruct (hunkLines st) eqn:Hpending; simpl.
  - destruct H0 as (hunks & Hsb & Hbody & Hne). exists hunks.
    rewrite Hpending, app_nil_r in Hbody. auto.
  - assert (Hne : hunkLines st <> []) by (rewrite Hpending; discriminate).
    destruct (loop_inv_flush _ _ _ H0 Hne) as (hunks & Hsb & Hbody & Hne').
    simpl in *. rewrite Hpending in *. exists hunks.
    rewrite app_nil_r in Hbody. auto.
Qed.

Lemma fold_unchanged pieces st :
  Forall (fun p => Type_ p = Unchanged) pieces ->
  hunkLines st = [] ->
  sb (fold_left step pieces st) = sb st
  /\ hunkLines (fold_left step pieces st) = [].
Proof.
  intros Hall. revert st.
  induction Hall as [|p pieces Hp _ IH]; intros st Hpending; simpl; [auto|].
  assert (Hstep : sb (step st p) = sb st /\ hunkLines (step st p) = []).
  { unfold step. rewrite Hp, Hpending. simpl. auto. }
  destruct Hstep as [Hsb Hlines].
  destruct (IH _ Hlines) as [IHsb IHlines]. rewrite IHsb. auto.
Qed.

Lemma align_same l : align l l = map (piece Unchanged) l.
Proof.
  induction l as [|x l IH]; simpl; [reflexivity|].
  rewrite String.eqb_refl, IH. reflexivity.
Qed.

Lemma inlineDiff_same s :
  Forall (fun p => Type_ p = Unchanged) (inlineDiff s s).
Proof.
  unfold inlineDiff. rewrite align_same.
  apply List.Forall_forall. intros p Hp.
  apply List.in_map_iff in Hp as (t & <- & _). reflexivity.
Qed.

(** C2, counterexample.  On the example of the claim the synthesizer of
    the TypeScript helper, [createPatch] of the package [diff] with its
    default options, gives one hunk [@@ -1,3 +1,3 @@] whose body holds the
    unchanged lines [ a] and [ c] around [-b] and [+x]; this is the patch
    [getFilePatch] returns for a file whose two blobs are the two texts. *)
Lemma createPatch_keeps_unchanged_lines :
  Jsdiff.lineDiff abc axc = Jsdiff.abc_axc_changes
  /\ Jsdiff.createPatchLines Jsdiff.lineDiff "/a.txt" abc axc
     = ["Index: /a.txt";
        "===================================================================";
        "--- /a.txt"; "+++ /a.txt";
        "@@ -1,3 +1,3 @@"; " a"; "-b"; "+x"; " c"]
  /\ fst (run (Sample.env "pr:active")
            (Ado.getFilePatch (imports:=Jsdiff.imports)
               (Sample.gitItem "blob" "/a.txt" (Some "o1") (Some "n1"))
               Sample.baseUrl) [])
     = Ok {| filePath := Some "/a.txt";
             sourceContent := Some abc;
             patch :=
               String.concat LF
                 ["Index: /a.txt";
                  "===================================================================";
                  "--- /a.txt"; "+++ /a.txt";
                  "@@ -1,3 +1,3 @@"; " a"; "-b"; "+x"; " c"] +:+ LF |}.
Proof. repeat split; vm_compute; reflexivity. Qed.

(** C2, as amended.  The synthesizer of the C# port emits no unchanged
    line: whatever diff model the line differ returns, the document is the
    two header lines followed by hunks whose bodies, taken together, are
    exactly the [-] and [+] lines of the deleted, inserted and modified
    pieces of the model, in order: an unchanged piece contributes no line,
    and no hunk has an empty body.  For the texts [a b c] and [a x c],
    whose model is [a] unchanged, [b] deleted, [x] inserted, [c] unchanged,
    the document has the single hunk [@@ -2,1 +2,1 @@] with the lines [-b]
    and [+x].  The synthesizer of the TypeScript helper, [createPatch] of
    the package [diff] with its default options, keeps unchanged lines as
    context: for the same texts, whose change objects are [a] common, [b]
    removed, [x] added, [c] common, its document has the single hunk
    [@@ -1,3 +1,3 @@] with the lines [ a], [-b], [+x] and [ c]. *)
Theorem change_only_hunks fileName oldText newText :
  (exists hunks,
      GenerateUnifiedDiffLines BuildDiffModel fileName oldText newText
      = ["--- a/" +:+ fileName; "+++ b/" +:+ fileName] ++ flat_map render hunks
      /\ concat (map h_body hunks)
         = flat_map changed_lines (BuildDiffModel oldText newText)
      /\ Forall (fun h => h_body h <> []) hunks
      /\ Forall (fun l =>
                   exists p, In p (BuildDiffModel oldText newText)
                             /\ Type_ p <> Unchanged
                             /\ (l = "-" +:+ Text p \/ l = "+" +:+ Text p))
                (concat (map h_body hunks)))
  /\ (BuildDiffModel abc axc = abc_axc_model ->
      GenerateUnifiedDiffLines BuildDiffModel fileName abc axc
      = ["--- a/" +:+ fileName; "+++ b/" +:+ fileName;
         "@@ -2,1 +2,1 @@"; "-b"; "+x"])
  /\ (forall diffLines,
        diffLines abc axc = Jsdiff.abc_axc_changes ->
        Jsdiff.createPatchLines diffLines fileName abc axc
        = ["Index: " +:+ fileName;
           "===================================================================";
           "--- " +:+ fileName; "+++ " +:+ fileName;
           "@@ -1,3 +1,3 @@"; " a"; "-b"; "+x"; " c"]).
Proof.
  split; [|split].
  - destruct (GenerateUnifiedDiffLines_hunks fileName oldText newText)
      as (hunks & Hdoc & Hbody & Hne).
    exists hunks. repeat split; [exact Hdoc|exact Hbody|exact Hne|].
    rewrite Hbody. apply List.Forall_forall. intros l Hl.
    apply List.in_flat_map in Hl as (p & Hp & Hl). exists p.
    split; [exact Hp|]. unfold changed_lines in Hl.
    destruct (Type_ p); simpl in Hl; intuition (try discriminate; auto).
  - intros Hmodel. unfold GenerateUnifiedDiffLines. rewrite Hmodel.
    reflexivity.
  - intros diffLines Hchanges.
    unfold Jsdiff.createPatchLines, Jsdiff.structuredPatch.
    rewrite Hchanges. reflexivity.
Qed.

(** C5.  When the line differ reports a text compared with itself as
    unchanged lines only, the document for [(path, s, s)] is the two header
    lines and nothing else, whatever the path and the text. *)
Theorem identical_texts_header_only :
  (forall s, Forall (fun p => Type_ p = Unchanged) (BuildDiffModel s s)) ->
  forall fileName s NewLine,
    GenerateUnifiedDiffLines BuildDiffModel fileName s s
    = ["--- a/" +:+ fileName; "+++ b/" +:+ fileName]
    /\ GenerateUnifiedDiff BuildDiffModel NewLine fileName s s
       = "--- a/" +:+ fileName +:+ NewLine
           +:+ "+++ b/" +:+ fileName +:+ NewLine.
Proof.
  intros Hsame fileName s NewLine.
  assert (Hlines : GenerateUnifiedDiffLines BuildDiffModel fileName s s
                   = ["--- a/" +:+ fileName; "+++ b/" +:+ fileName]).
  { unfold GenerateUnifiedDiffLines. cbv zeta.
    set (st0 := {| sb := header fileName; oldLineNumber := 1;
                   newLineNumber := 1; hunkStart := 0; hunkLines := [] |}).
    destruct (fold_unchanged (BuildDiffModel s s) st0 (Hsame s) eq_refl)
      as [Hsb Hpending].
    unfold finish. rewrite Hpending, Hsb. reflexivity. }
  split; [exact Hlines|].
  unfold GenerateUnifiedDiff. rewrite Hlines. unfold ToString.
  cbn [fold_right]. rewrite !append_assoc, append_nil_r. reflexivity.
Qed.

End SynthesizerProperties.

Lemma change_only_hunks_witness :
  (DotNet.inlineDiff DotNet.abc DotNet.axc = DotNet.abc_axc_model
   /\ DotNet.GenerateUnifiedDiffLines DotNet.inlineDiff "src/app.ts"
        DotNet.abc DotNet.axc
      = ["--- a/src/app.ts"; "+++ b/src/app.ts"; "@@ -2,1 +2,1 @@"; "-b"; "+x"])
  /\ (Jsdiff.lineDiff DotNet.abc DotNet.axc = Jsdiff.abc_axc_changes
      /\ Jsdiff.createPatchLines Jsdiff.lineDiff "src/app.ts"
           DotNet.abc DotNet.axc
         = ["Index: src/app.ts";
            "===================================================================";
            "--- src/app.ts"; "+++ src/app.ts";
            "@@ -1,3 +1,3 @@"; " a"; "-b"; "+x"; " c"]).
Proof.
  split; (split; [reflexivity|]).
  - apply (proj1 (proj2 (change_only_hunks DotNet.inlineDiff "src/app.ts"
                           EmptyString EmptyString))).
    reflexivity.
  - apply (proj2 (proj2 (change_only_hunks DotNet.inlineDiff "src/app.ts"
                           EmptyString EmptyString)) Jsdiff.lineDiff).
    reflexivity.
Defined.

Lemma identical_texts_header_only_witness :
  DotNet.GenerateUnifiedDiffLines DotNet.inlineDiff "src/app.ts"
    DotNet.abc DotNet.abc
  = ["--- a/src/app.ts"; "+++ b/src/app.ts"].
Proof.
  apply (identical_texts_header_only DotNet.inlineDiff inlineDiff_same
           "src/app.ts" DotNet.abc DotNet.LF).
Defined.

(** ** The statements on the sample service *)

Lemma authorization_by_kind_witness :
  env_tokenProvider (Sample.env "pr:active") []
  = Ok {| type := "pat"; token := Some "abc" |}
  /\ exists headers,
       run (Sample.env "pr:active")
         Ado.getDefaultHeaders []
       = (Ok headers, [TokenRequested])
       /\ Js.get "Authorization" headers = Some "Basic OmFiYw==".
Proof.
  split; [reflexivity|].
  refine (proj1 (authorization_by_kind (Sample.env "pr:active") []
                   {| type := "pat"; token := Some "abc" |} "abc" _ _ _));
    [reflexivity | reflexivity | discriminate].
Defined.

Lemma locator_failure_has_no_effect_witness :
  Ado.parsePrUrl "dev.azure.com/org/project/_git/repo/pullrequest/123"
  = Err Ado.InvalidLocator
  /\ forall env log sched,
       run env
         (Ado.getPrFileChanges (imports:=Sample.imports) sched
            "dev.azure.com/org/project/_git/repo/pullrequest/123") log
       = (Err Ado.InvalidLocator, log).
Proof.
  split; [reflexivity|].
  refine (proj1 (proj2 (proj2 (proj2
            (locator_failure_has_no_effect (imports:=Sample.imports)
               "dev.azure.com/org/project/_git/repo/pullrequest/123"
               Ado.InvalidLocator _)))));
    reflexivity.
Defined.

Lemma no_blob_id_still_eligible_witness :
  Ado.isSupportedChange
    {| item := Sample.gitItem "blob" "/c.txt" None None; changeType := "add" |}
  = true
  /\ Ado.getFilePatch (imports:=Sample.imports)
       (Sample.gitItem "blob" "/c.txt" None None) Sample.baseUrl
     = Ret {| filePath := Some "/c.txt"; sourceContent := None;
              patch := Ado.createPatch (Imports:=Sample.imports)
                         (Some "/c.txt") EmptyString EmptyString |}.
Proof.
  pose proof (no_blob_id_still_eligible (imports:=Sample.imports)
    {| item := Sample.gitItem "blob" "/c.txt" None None; changeType := "add" |}
    Sample.baseUrl "/c.txt" (Sample.baseUrl +:+ "/items/c.txt")
    (or_introl eq_refl) eq_refl eq_refl eq_refl eq_refl eq_refl)
    as (Heligible & Hret & _).
  split; [exact Heligible | exact Hret].
Defined.

Lemma postPrComment_publishes_witness :
  exists log,
    run (Sample.env "pr:active")
      (Ado.postPrComment (imports:=Sample.imports) Sample.prUrl Sample.commentOptions)
      []
    = (Ok tt, log)
    /\ length log = 2.
Proof.
  eexists. split.
  - refine (postPrComment_publishes (imports:=Sample.imports)
              (Sample.env "pr:active") [] Sample.prUrl
              {| organization := "org"; project := "project";
                 repository := "repo"; pullRequestId := 123 |}
              Sample.commentOptions
              {| type := "pat"; token := Some "abc" |}
              {| r_status := 201; r_statusText := "Created";
                 r_body := "thread" |} _ _ _ _ _);
      [reflexivity | reflexivity | reflexivity | reflexivity
      | simpl; lia].
  - reflexivity.
Defined.

Lemma gate_fails_before_change_list_witness :
  run (Sample.env "pr:completed")
    (Ado.getPrFileChanges (imports:=Sample.imports) Sample.schedule Sample.prUrl) []
  = (Err Ado.PullRequestNotActive,
     [TokenRequested;
      Fetched Sample.prDetailsUrl
        (Spec.outgoing {| type := "pat"; token := Some "abc" |}
           Ado.no_options)]).
Proof.
  refine (proj1 (gate_fails_before_change_list (imports:=Sample.imports)
                   (Sample.env "pr:completed") [] Sample.schedule Sample.prUrl
                   {| organization := "org"; project := "project";
                      repository := "repo"; pullRequestId := 123 |}
                   {| type := "pat"; token := Some "abc" |}
                   {| r_status := 200; r_statusText := "OK";
                      r_body := "pr:completed" |}
                   (Sample.pullRequest "completed" "succeeded")
                   _ _ _ _ _ _) _);
    try reflexivity.
  discriminate.
Defined.

Lemma results_follow_change_list_order_witness :
  exists res log',
    run (Sample.env "pr:active")
      (Ado.getPrFileChanges (imports:=Sample.imports) Sample.schedule Sample.prUrl) []
    = (Ok res, log')
    /\ length res = 3%nat
    /\ map filePath res = [Some "/a.txt"; Some "/b.txt"; Some "/c.txt"].
Proof.
  destruct (proj2 (results_follow_change_list_order (imports:=Sample.imports))
              (Sample.env "pr:active") Sample.schedule Sample.prUrl []
              {| organization := "org"; project := "project";
                 repository := "repo"; pullRequestId := 123 |}
              (Sample.pullRequest "active" "succeeded")
              Sample.gitChanges
              (snd (run (Sample.env "pr:active")
                      (Ado.getPrDetails (imports:=Sample.imports)
                         Sample.prDetailsUrl) []))
              (snd (run (Sample.env "pr:active")
                      (Ado.getGitChanges (imports:=Sample.imports)
                         Sample.diffsUrl)
                      (snd (run (Sample.env "pr:active")
                              (Ado.getPrDetails (imports:=Sample.imports)
                                 Sample.prDetailsUrl) [])))))
    as (res & log' & Hrun & Hlen & Hpaths & _).
  - reflexivity.
  - vm_compute. reflexivity.
  - discriminate.
  - discriminate.
  - vm_compute. reflexivity.
  - discriminate.
  - intros log. eexists. split; reflexivity.
  - intros log f sha o Hf Hsha.
    repeat (destruct Hf as [<-|Hf]; [
      destruct Hsha as [Hsha|Hsha]; try discriminate Hsha;
      injection Hsha as <-; eexists; split; reflexivity |]).
    destruct Hf.
  - exists res, log'. split; [exact Hrun|]. split; [exact Hlen|exact Hpaths].
Defined.

(** ** The locator *)

Section Locator.
Import Js Spec.

Lemma canonicalize_slash c :
  Ascii.eqb (canonicalize c) "/" = Ascii.eqb c "/".
Proof. destruct c as [[] [] [] [] [] [] [] []]; reflexivity. Qed.

Lemma char_eq_ci_is_slash p c :
  char_eq_ci p c = true -> is_slash p = is_slash c.
Proof.
  unfold char_eq_ci, is_slash. intros Heq. apply Ascii.eqb_eq in Heq.
  rewrite <- (canonicalize_slash p), <- (canonicalize_slash c), Heq.
  reflexivity.
Qed.

Lemma char_eq_ci_trans q p c :
  char_eq_ci p c = true -> char_eq_ci q c = char_eq_ci q p.
Proof.
  unfold char_eq_ci. intros Heq. apply Ascii.eqb_eq in Heq.
  rewrite Heq. reflexivity.
Qed.

Lemma strip_prefix_ci_app l h t :
  eq_ci l h = true -> strip_prefix_ci l (h +:+ t) = Some t.
Proof.
  revert h. induction l as [|p l IH]; intros [|c h] Heq; simpl in Heq;
    try discriminate; [reflexivity|].
  apply andb_true_iff in Heq as [Hc Hrest].
  rewrite append_cons. simpl. rewrite Hc. apply IH, Hrest.
Qed.

Lemma strip_prefix_ci_inv l s r :
  strip_prefix_ci l s = Some r ->
  exists h, s = h +:+ r /\ eq_ci l h = true.
Proof.
  revert s. induction l as [|p l IH]; intros s Hs; simpl in Hs.
  - injection Hs as ->. exists EmptyString. auto.
  - destruct s as [|c s]; [discriminate|].
    destruct (char_eq_ci p c) eqn:Hc; [|discriminate].
    destruct (IH _ Hs) as (h & -> & Hh). exists (String c h).
    simpl. rewrite Hc, Hh. auto.
Qed.

Lemma strip_prefix_ci_slash_pos l s r :
  strip_prefix_ci l s = Some r ->
  slash_free l = false ->
  slash_pos s = slash_pos l.
Proof.
  revert s. induction l as [|p l IH]; intros s Hs Hl; simpl in *;
    [discriminate|].
  destruct s as [|c s]; [discriminate|].
  destruct (char_eq_ci p c) eqn:Hc; [|discriminate].
  simpl. rewrite <- (char_eq_ci_is_slash _ _ Hc).
  destruct (is_slash p) eqn:Hp; [reflexivity|].
  f_equal. apply IH; [assumption|].
  unfold slash_free in *. simpl in Hl. rewrite Hp in Hl. exact Hl.
Qed.

Lemma slash_pos_app g t :
  slash_free g = true -> slash_pos (g +:+ t) = (String.length g + slash_pos t)%nat.
Proof.
  induction g as [|c g IH]; intros Hg; [reflexivity|].
  unfold slash_free in *. cbn [all_chars] in Hg.
  apply andb_true_iff in Hg as [Hc Hg]. apply negb_true_iff in Hc.
  rewrite append_cons. cbn [slash_pos String.length].
  rewrite Hc, IH by assumption. reflexivity.
Qed.

Lemma segment_inv g :
  segment g = true ->
  nonempty g = true
  /\ slash_free g = true
  /\ all_chars (fun c => negb (is_line_terminator c)) g = true.
Proof.
  unfold segment, slash_free. intros Hg.
  apply andb_true_iff in Hg as [Hne Hall]. split; [exact Hne|].
  clear Hne. induction g as [|c g IH]; simpl in *; [auto|].
  apply andb_true_iff in Hall as [Hc Hall].
  apply andb_true_iff in Hc as [Hc1 Hc2].
  destruct (IH Hall) as [-> ->]. rewrite Hc1, Hc2. auto.
Qed.

(** A lazy group in front of a literal that contains a [/] captures a
    segment whole: the literal cannot match before the segment ends. *)
Lemma lazy_any_segment l pat g t caps taken :
  segment g = true ->
  slash_free l = false ->
  exec_at (Lit l :: pat) t = Some caps ->
  lazy_any (exec_at (Lit l :: pat)) taken (g +:+ t)
  = Some ((taken +:+ g) :: caps).
Proof.
  intros Hseg Hl Ht. apply segment_inv in Hseg as (Hne & Hfree & Hterm).
  assert (Hpos : slash_pos t = slash_pos l).
  { simpl in Ht. destruct (strip_prefix_ci l t) as [r|] eqn:Hr; [|discriminate].
    eapply strip_prefix_ci_slash_pos; eassumption. }
  revert taken. induction g as [|c g IH]; intros taken; [discriminate|].
  simpl in Hfree, Hterm.
  apply andb_true_iff in Hfree as [_ Hfree].
  apply andb_true_iff in Hterm as [Hc Hterm].
  rewrite append_cons. cbn [lazy_any]. apply negb_true_iff in Hc. rewrite Hc.
  destruct g as [|c' g].
  - rewrite append_nil_l, Ht. reflexivity.
  - assert (Hnone : exec_at (Lit l :: pat) (String c' g +:+ t) = None).
    { cbn [exec_at].
      destruct (strip_prefix_ci l (String c' g +:+ t)) as [r|] eqn:Hr;
        [|reflexivity].
      apply strip_prefix_ci_slash_pos in Hr; [|assumption].
      rewrite slash_pos_app in Hr by assumption. simpl in Hr. lia. }
    rewrite Hnone, IH by (assumption || reflexivity).
    rewrite append_assoc. reflexivity.
Qed.

(** The digit group takes the whole run of digits. *)
Lemma greedy_digits_run ds post taken :
  digits ds = true ->
  no_leading_digit post = true ->
  greedy_digits (exec_at []) taken (ds +:+ post) = Some [taken +:+ ds].
Proof.
  unfold digits. intros Hds Hpost.
  apply andb_true_iff in Hds as [Hne Hall].
  revert taken. induction ds as [|c ds IH]; intros taken; [discriminate|].
  simpl in Hall. apply andb_true_iff in Hall as [Hc Hall].
  rewrite append_cons. cbn [greedy_digits]. rewrite Hc.
  destruct ds as [|c' ds].
  - rewrite append_nil_l.
    assert (Hstop : greedy_digits (exec_at [])
                      (taken +:+ String c EmptyString) post = None).
    { destruct post as [|d post]; [reflexivity|]. simpl in Hpost.
      apply negb_true_iff in Hpost. cbn [greedy_digits]. rewrite Hpost.
      reflexivity. }
    rewrite Hstop. reflexivity.
  - rewrite IH by (assumption || reflexivity).
    rewrite append_assoc. reflexivity.
Qed.

Lemma exec_at_Lit l h pat t :
  eq_ci l h = true -> exec_at (Lit l :: pat) (h +:+ t) = exec_at pat t.
Proof.
  intros Heq. cbn [exec_at]. rewrite strip_prefix_ci_app by assumption.
  reflexivity.
Qed.

Lemma exec_at_LazyAny l pat g t caps :
  segment g = true ->
  slash_free l = false ->
  exec_at (Lit l :: pat) t = Some caps ->
  exec_at (LazyAny :: Lit l :: pat) (g +:+ t) = Some (g :: caps).
Proof.
  intros Hg Hl Ht. cbn [exec_at].
  apply (lazy_any_segment l pat g t caps EmptyString Hg Hl Ht).
Qed.

Lemma exec_at_Digits ds post :
  digits ds = true ->
  no_leading_digit post = true ->
  exec_at [Digits] (ds +:+ post) = Some [ds].
Proof.
  intros Hds Hpost. cbn [exec_at].
  apply (greedy_digits_run ds post EmptyString Hds Hpost).
Qed.

(** The tail [/<project>/_git/<repository>/pullrequest/<id>] shared by the
    two shapes, after the literal that ends the organization. *)
Lemma exec_at_tail sep l proj repo ds post :
  eq_ci l sep = true ->
  segment proj = true -> segment repo = true ->
  digits ds = true -> no_leading_digit post = true ->
  exec_at [Lit l; LazyAny; Lit "/_git/"; LazyAny; Lit "/pullrequest/"; Digits]
    (sep +:+ proj +:+ "/_git/" +:+ repo +:+ "/pullrequest/" +:+ ds +:+ post)
  = Some [proj; repo; ds].
Proof.
  intros Hsep Hproj Hrepo Hds Hpost.
  rewrite exec_at_Lit by assumption.
  apply exec_at_LazyAny; [assumption|reflexivity|].
  rewrite exec_at_Lit by reflexivity.
  apply exec_at_LazyAny; [assumption|reflexivity|].
  rewrite exec_at_Lit by reflexivity.
  apply exec_at_Digits; assumption.
Qed.

Lemma devAzureUrl_assoc host org proj repo ds post :
  devAzureUrl host org proj repo ds +:+ post
  = host +:+ org +:+ "/" +:+ proj +:+ "/_git/" +:+ repo +:+ "/pullrequest/"
      +:+ ds +:+ post.
Proof. unfold devAzureUrl. rewrite !append_assoc. reflexivity. Qed.

Lemma visualStudioUrl_assoc scheme org domain proj repo ds post :
  visualStudioUrl scheme org domain proj repo ds +:+ post
  = scheme +:+ org +:+ domain +:+ proj +:+ "/_git/" +:+ repo
      +:+ "/pullrequest/" +:+ ds +:+ post.
Proof. unfold visualStudioUrl. rewrite !append_assoc. reflexivity. Qed.

Lemma devAzureRegex_exec host org proj repo ds post :
  eq_ci "https://dev.azure.com/" host = true ->
  segment org = true -> segment proj = true -> segment repo = true ->
  digits ds = true -> no_leading_digit post = true ->
  exec_at Ado.devAzureRegex (devAzureUrl host org proj repo ds +:+ post)
  = Some [org; proj; repo; ds].
Proof.
  intros Hhost Horg Hproj Hrepo Hds Hpost.
  rewrite devAzureUrl_assoc. unfold Ado.devAzureRegex.
  rewrite exec_at_Lit by assumption.
  apply exec_at_LazyAny; [assumption|reflexivity|].
  apply exec_at_tail; (assumption || reflexivity).
Qed.

Lemma visualStudioRegex_exec scheme org domain proj repo ds post :
  eq_ci "https://" scheme = true ->
  eq_ci ".visualstudio.com/" domain = true ->
  segment org = true -> segment proj = true -> segment repo = true ->
  digits ds = true -> no_leading_digit post = true ->
  exec_at Ado.visualStudioRegex
    (visualStudioUrl scheme org domain proj repo ds +:+ post)
  = Some [org; proj; repo; ds].
Proof.
  intros Hscheme Hdomain Horg Hproj Hrepo Hds Hpost.
  rewrite visualStudioUrl_assoc. unfold Ado.visualStudioRegex.
  rewrite exec_at_Lit by assumption.
  apply exec_at_LazyAny; [assumption|reflexivity|].
  apply exec_at_tail; (assumption || reflexivity).
Qed.

Lemma regexp_match_at_start pat s caps :
  exec_at pat s = Some caps -> regexp_match pat s = Some caps.
Proof. intros H. destruct s; simpl; rewrite H; reflexivity. Qed.

(** *** The first pattern does not match a visualstudio URL *)

Lemma is_digit_not_slash c : is_digit c = true -> is_slash c = false.
Proof. destruct c as [[] [] [] [] [] [] [] []]; (reflexivity || discriminate). Qed.

Lemma digits_inv ds :
  digits ds = true -> nonempty ds = true /\ slash_free ds = true.
Proof.
  unfold digits, slash_free. intros Hds.
  apply andb_true_iff in Hds as [Hne Hall]. split; [exact Hne|]. clear Hne.
  induction ds as [|c ds IH]; [reflexivity|]. cbn [all_chars] in *.
  apply andb_true_iff in Hall as [Hc Hall].
  rewrite (is_digit_not_slash _ Hc), IH by assumption. reflexivity.
Qed.

Lemma starts_with_slash_free g t :
  nonempty g = true -> slash_free g = true ->
  starts_with_slash (g +:+ t) = false.
Proof.
  destruct g as [|c g]; [discriminate|]. unfold slash_free.
  cbn [all_chars]. intros _ Hg. apply andb_true_iff in Hg as [Hc _].
  apply negb_true_iff in Hc. exact Hc.
Qed.

Lemma no_double_slash_free g t :
  slash_free g = true -> no_double_slash (g +:+ t) = no_double_slash t.
Proof.
  unfold slash_free. induction g as [|c g IH]; intros Hg; [reflexivity|].
  cbn [all_chars] in Hg. apply andb_true_iff in Hg as [Hc Hg].
  apply negb_true_iff in Hc. rewrite append_cons. cbn [no_double_slash].
  rewrite Hc, IH by assumption. reflexivity.
Qed.

Lemma slash_free_no_double_slash g :
  slash_free g = true -> no_double_slash g = true.
Proof.
  intros Hg. rewrite <- (append_nil_r g), no_double_slash_free by assumption.
  reflexivity.
Qed.

Lemma eq_ci_slashes l h t :
  eq_ci l h = true ->
  starts_with_slash (h +:+ t) = starts_with_slash (l +:+ t)
  /\ no_double_slash (h +:+ t) = no_double_slash (l +:+ t).
Proof.
  revert h. induction l as [|p l IH]; intros [|c h] Heq; simpl in Heq;
    try discriminate; [auto|].
  apply andb_true_iff in Heq as [Hc Hrest].
  destruct (IH _ Hrest) as [IHs IHn].
  rewrite !append_cons. cbn [starts_with_slash no_double_slash].
  rewrite (char_eq_ci_is_slash _ _ Hc), IHs, IHn. auto.
Qed.

Lemma exec_at_devAzure_double_slash s caps :
  exec_at Ado.devAzureRegex s = Some caps -> no_double_slash s = false.
Proof.
  unfold Ado.devAzureRegex. cbn [exec_at].
  destruct (strip_prefix_ci "https://dev.azure.com/" s) as [r|] eqn:Hr;
    [|discriminate].
  intros _. apply strip_prefix_ci_inv in Hr as (h & -> & Hh).
  rewrite (proj2 (eq_ci_slashes _ _ r Hh)). reflexivity.
Qed.

Lemma regexp_match_devAzure_None s :
  no_double_slash s = true -> regexp_match Ado.devAzureRegex s = None.
Proof.
  induction s as [|c s IH]; intros Hs.
  - reflexivity.
  - cbn [regexp_match].
    destruct (exec_at Ado.devAzureRegex (String c s)) as [caps|] eqn:Hexec.
    + apply exec_at_devAzure_double_slash in Hexec. congruence.
    + apply IH. cbn [no_double_slash] in Hs.
      apply andb_true_iff in Hs as [_ Hs]. exact Hs.
Qed.

Lemma regexp_match_cons pat c s :
  exec_at pat (String c s) = None ->
  regexp_match pat (String c s) = regexp_match pat s.
Proof. intros H. cbn [regexp_match]. rewrite H. reflexivity. Qed.

Lemma exec_at_first_char p l pat q c s :
  char_eq_ci q c = true ->
  char_eq_ci p q = false ->
  exec_at (Lit (String p l) :: pat) (String c s) = None.
Proof.
  intros Hqc Hpq. cbn [exec_at strip_prefix_ci].
  rewrite (char_eq_ci_trans p q c Hqc), Hpq. reflexivity.
Qed.

(** What follows the scheme of a visualstudio URL has no [//], and its
    first [/] comes after the organization and the 17 characters of
    [.visualstudio.com]. *)
Lemma visualStudio_rest org domain proj repo ds post :
  eq_ci ".visualstudio.com/" domain = true ->
  segment org = true -> segment proj = true -> segment repo = true ->
  digits ds = true -> slash_free post = true ->
  let rest := org +:+ domain +:+ proj +:+ "/_git/" +:+ repo
                +:+ "/pullrequest/" +:+ ds +:+ post in
  no_double_slash rest = true
  /\ slash_pos rest = (String.length org + 17)%nat.
Proof.
  intros Hdomain Horg Hproj Hrepo Hds Hpost rest. subst rest.
  apply segment_inv in Horg as (_ & Horg & _).
  apply segment_inv in Hproj as (Hproj_ne & Hproj & _).
  apply segment_inv in Hrepo as (Hrepo_ne & Hrepo & _).
  apply digits_inv in Hds as (Hds_ne & Hds).
  split.
  - rewrite no_double_slash_free by assumption.
    rewrite (proj2 (eq_ci_slashes _ _ _ Hdomain)).
    set (x1 := proj +:+ _).
    assert (Hx1 : starts_with_slash x1 = false)
      by (apply starts_with_slash_free; assumption).
    assert (Hnd : no_double_slash x1 = true).
    { subst x1. rewrite no_double_slash_free by assumption.
      set (x3 := repo +:+ _).
      assert (Hx3 : starts_with_slash x3 = false)
        by (apply starts_with_slash_free; assumption).
      assert (Hnd3 : no_double_slash x3 = true).
      { subst x3. rewrite no_double_slash_free by assumption.
        set (x5 := ds +:+ post).
        assert (Hx5 : starts_with_slash x5 = false)
          by (apply starts_with_slash_free; assumption).
        assert (Hnd5 : no_double_slash x5 = true).
        { subst x5. rewrite no_double_slash_free by assumption.
          apply slash_free_no_double_slash, Hpost. }
        rewrite !append_cons, append_nil_l. cbn [no_double_slash starts_with_slash].
        rewrite Hx5, Hnd5. reflexivity. }
      rewrite !append_cons, append_nil_l. cbn [no_double_slash starts_with_slash].
      rewrite Hx3, Hnd3. reflexivity. }
    rewrite !append_cons, append_nil_l. cbn [no_double_slash starts_with_slash].
    rewrite Hx1, Hnd. reflexivity.
  - rewrite slash_pos_app by assumption. f_equal.
    apply (strip_prefix_ci_slash_pos ".visualstudio.com/" _
             (proj +:+ "/_git/" +:+ repo +:+ "/pullrequest/" +:+ ds +:+ post)).
    + apply strip_prefix_ci_app, Hdomain.
    + reflexivity.
Qed.

Lemma strip_prefix_ci_cons p l c s :
  char_eq_ci p c = true ->
  strip_prefix_ci (String p l) (String c s) = strip_prefix_ci l s.
Proof. intros Hc. cbn [strip_prefix_ci]. rewrite Hc. reflexivity. Qed.

Lemma eq_ci_cons_inv p l h :
  eq_ci (String p l) h = true ->
  exists c h', h = String c h' /\ char_eq_ci p c = true /\ eq_ci l h' = true.
Proof.
  destruct h as [|c h']; [discriminate|]. cbn [eq_ci]. intros Heq.
  apply andb_true_iff in Heq as [Hc Hrest]. eauto.
Qed.

Lemma eq_ci_nil_inv h : eq_ci EmptyString h = true -> h = EmptyString.
Proof. destruct h; [reflexivity|discriminate]. Qed.

Lemma regexp_match_devAzure_visualStudio scheme org domain proj repo ds post :
  eq_ci "https://" scheme = true ->
  eq_ci ".visualstudio.com/" domain = true ->
  segment org = true -> segment proj = true -> segment repo = true ->
  digits ds = true -> slash_free post = true ->
  regexp_match Ado.devAzureRegex
    (visualStudioUrl scheme org domain proj repo ds +:+ post) = None.
Proof.
  intros Hscheme Hdomain Horg Hproj Hrepo Hds Hpost.
  rewrite visualStudioUrl_assoc.
  destruct (visualStudio_rest org domain proj repo ds post)
    as [Hnd Hpos]; try assumption.
  set (rest := org +:+ _) in *.
  repeat (apply eq_ci_cons_inv in Hscheme as (? & ? & -> & ? & Hscheme)).
  apply eq_ci_nil_inv in Hscheme as ->.
  rewrite !append_cons, append_nil_l.
  rewrite regexp_match_cons.
  2:{ unfold Ado.devAzureRegex. cbn [exec_at].
      destruct (strip_prefix_ci _ _) as [r|] eqn:Hr; [|reflexivity].
      exfalso. rewrite !strip_prefix_ci_cons in Hr by assumption.
      apply strip_prefix_ci_slash_pos in Hr; [|reflexivity].
      rewrite Hpos in Hr. simpl in Hr. lia. }
  do 7 (rewrite regexp_match_cons
          by (eapply exec_at_first_char; [eassumption|reflexivity])).
  apply regexp_match_devAzure_None, Hnd.
Qed.

(** *** Every match is a full match *)

Lemma lazy_any_sound pat rest :
  (forall s caps, rest s = Some caps ->
     exists m post, s = m +:+ post /\ matches pat caps m) ->
  forall s taken caps',
    lazy_any rest taken s = Some caps' ->
    exists g caps m post,
      caps' = (taken +:+ g) :: caps
      /\ nonempty g = true
      /\ all_chars (fun c => negb (is_line_terminator c)) g = true
      /\ s = g +:+ m +:+ post
      /\ matches pat caps m.
Proof.
  intros Hrest. induction s as [|c s IH]; intros taken caps' Hlazy;
    [discriminate|].
  cbn [lazy_any] in Hlazy.
  destruct (is_line_terminator c) eqn:Hc; [discriminate|].
  destruct (rest s) as [caps|] eqn:Hs.
  - injection Hlazy as <-. destruct (Hrest _ _ Hs) as (m & post & -> & Hm).
    exists (String c EmptyString), caps, m, post.
    cbn [all_chars nonempty]. rewrite Hc. auto.
  - destruct (IH _ _ Hlazy) as (g & caps & m & post & -> & _ & Hg & -> & Hm).
    exists (String c g), caps, m, post.
    cbn [all_chars nonempty]. rewrite Hc, Hg, append_assoc. auto.
Qed.

Lemma greedy_digits_sound pat rest :
  (forall s caps, rest s = Some caps ->
     exists m post, s = m +:+ post /\ matches pat caps m) ->
  forall s taken caps',
    greedy_digits rest taken s = Some caps' ->
    exists g caps m post,
      caps' = (taken +:+ g) :: caps
      /\ nonempty g = true
      /\ all_chars is_digit g = true
      /\ s = g +:+ m +:+ post
      /\ matches pat caps m.
Proof.
  intros Hrest. induction s as [|c s IH]; intros taken caps' Hgreedy;
    [discriminate|].
  cbn [greedy_digits] in Hgreedy.
  destruct (is_digit c) eqn:Hc; [|discriminate].
  destruct (greedy_digits rest (taken +:+ String c EmptyString) s)
    as [r|] eqn:Hmore.
  - injection Hgreedy as <-.
    destruct (IH _ _ Hmore) as (g & caps & m & post & -> & _ & Hg & -> & Hm).
    exists (String c g), caps, m, post.
    cbn [all_chars nonempty]. rewrite Hc, Hg, append_assoc. auto.
  - destruct (rest s) as [caps|] eqn:Hs; [|discriminate].
    injection Hgreedy as <-. destruct (Hrest _ _ Hs) as (m & post & -> & Hm).
    exists (String c EmptyString), caps, m, post.
    cbn [all_chars nonempty]. rewrite Hc. auto.
Qed.

Lemma exec_at_sound pat s caps :
  exec_at pat s = Some caps ->
  exists m post, s = m +:+ post /\ matches pat caps m.
Proof.
  revert s caps. induction pat as [|[l| |] pat IH]; intros s caps Hexec;
    cbn [exec_at] in Hexec.
  - injection Hexec as <-. exists EmptyString, s. split; [reflexivity|constructor].
  - destruct (strip_prefix_ci l s) as [r|] eqn:Hr; [|discriminate].
    apply strip_prefix_ci_inv in Hr as (h & -> & Hh).
    destruct (IH _ _ Hexec) as (m & post & -> & Hm).
    exists (h +:+ m), post. rewrite append_assoc.
    split; [reflexivity|]. constructor; assumption.
  - destruct (lazy_any_sound pat _ IH _ _ _ Hexec)
      as (g & caps0 & m & post & -> & Hne & Hg & -> & Hm).
    exists (g +:+ m), post. rewrite append_assoc, append_nil_l.
    split; [reflexivity|]. constructor; assumption.
  - destruct (greedy_digits_sound pat _ IH _ _ _ Hexec)
      as (g & caps0 & m & post & -> & Hne & Hg & -> & Hm).
    exists (g +:+ m), post. rewrite append_assoc, append_nil_l.
    split; [reflexivity|]. constructor; assumption.
Qed.

Lemma regexp_match_sound pat s caps :
  regexp_match pat s = Some caps ->
  exists pre m post, s = pre +:+ m +:+ post /\ matches pat caps m.
Proof.
  induction s as [|c s IH]; cbn [regexp_match];
    destruct (exec_at pat _) as [caps0|] eqn:Hexec; intros Hmatch;
    try discriminate.
  - injection Hmatch as <-. apply exec_at_sound in Hexec as (m & post & Hs & Hm).
    exists EmptyString, m, post. auto.
  - injection Hmatch as <-. apply exec_at_sound in Hexec as (m & post & Hs & Hm).
    exists EmptyString, m, post. auto.
  - destruct (IH Hmatch) as (pre & m & post & -> & Hm).
    exists (String c pre), m, post. auto.
Qed.

(** Both patterns have four groups. *)
Lemma four_groups pat caps m :
  pat = Ado.devAzureRegex \/ pat = Ado.visualStudioRegex ->
  matches pat caps m ->
  exists org proj repo ds, caps = [org; proj; repo; ds].
Proof.
  intros [-> | ->] Hm;
    unfold Ado.devAzureRegex, Ado.visualStudioRegex in Hm;
    repeat match goal with
           | H : matches (_ :: _) _ _ |- _ => inversion H; subst; clear H
           | H : matches [] _ _ |- _ => inversion H; subst; clear H
           end; do 4 eexists; reflexivity.
Qed.

Lemma parsePrUrlInternal_sound prUrl pat info :
  pat = Ado.devAzureRegex \/ pat = Ado.visualStudioRegex ->
  Ado.parsePrUrlInternal prUrl pat = Some info ->
  exists pre m post org proj repo ds,
    prUrl = pre +:+ m +:+ post
    /\ matches pat [org; proj; repo; ds] m
    /\ info = locator org proj repo ds.
Proof.
  intros Hpat. unfold Ado.parsePrUrlInternal.
  destruct (regexp_match pat prUrl) as [caps|] eqn:Hmatch; [|discriminate].
  intros [= <-].
  apply regexp_match_sound in Hmatch as (pre & m & post & -> & Hm).
  destruct (four_groups _ _ _ Hpat Hm) as (org & proj & repo & ds & ->).
  exists pre, m, post, org, proj, repo, ds. auto.
Qed.

Lemma parsePrUrlInternal_exec prUrl pat org proj repo ds :
  regexp_match pat prUrl = Some [org; proj; repo; ds] ->
  Ado.parsePrUrlInternal prUrl pat = Some (locator org proj repo ds).
Proof. unfold Ado.parsePrUrlInternal. intros ->. reflexivity. Qed.

End Locator.

Lemma parsePrUrl_devAzure host org proj repo ds post :
  Js.eq_ci "https://dev.azure.com/" host = true ->
  Spec.segment org = true -> Spec.segment proj = true ->
  Spec.segment repo = true -> Spec.digits ds = true ->
  Spec.no_leading_digit post = true ->
  Ado.parsePrUrl (Spec.devAzureUrl host org proj repo ds +:+ post)
  = Ok (Spec.locator org proj repo ds).
Proof.
  intros Hhost Horg Hproj Hrepo Hds Hpost. unfold Ado.parsePrUrl.
  rewrite (parsePrUrlInternal_exec _ _ org proj repo ds); [reflexivity|].
  apply regexp_match_at_start, devAzureRegex_exec; assumption.
Qed.

Lemma parsePrUrl_visualStudio scheme org domain proj repo ds post :
  Js.eq_ci "https://" scheme = true ->
  Js.eq_ci ".visualstudio.com/" domain = true ->
  Spec.segment org = true -> Spec.segment proj = true ->
  Spec.segment repo = true -> Spec.digits ds = true ->
  Spec.no_leading_digit post = true -> Spec.slash_free post = true ->
  Ado.parsePrUrl (Spec.visualStudioUrl scheme org domain proj repo ds +:+ post)
  = Ok (Spec.locator org proj repo ds).
Proof.
  intros Hscheme Hdomain Horg Hproj Hrepo Hds Hpost Hfree.
  unfold Ado.parsePrUrl.
  assert (Hfirst : Ado.parsePrUrlInternal
                     (Spec.visualStudioUrl scheme org domain proj repo ds
                        +:+ post) Ado.devAzureRegex = None).
  { unfold Ado.parsePrUrlInternal.
    rewrite regexp_match_devAzure_visualStudio by assumption. reflexivity. }
  rewrite Hfirst.
  rewrite (parsePrUrlInternal_exec _ _ org proj repo ds); [reflexivity|].
  apply regexp_match_at_start, visualStudioRegex_exec; assumption.
Qed.

(** The code agrees with the spec on every string the spec accepts. *)
Lemma accepted_parsePrUrl prUrl info :
  Spec.accepted prUrl info -> Ado.parsePrUrl prUrl = Ok info.
Proof.
  intros [host org proj repo ds Hhost Horg Hproj Hrepo Hds _
         |scheme org domain proj repo ds Hscheme Hdomain Horg Hproj Hrepo Hds _].
  - rewrite <- (append_nil_r (Spec.devAzureUrl _ _ _ _ _)).
    apply parsePrUrl_devAzure; (assumption || reflexivity).
  - rewrite <- (append_nil_r (Spec.visualStudioUrl _ _ _ _ _ _)).
    apply parsePrUrl_visualStudio; (assumption || reflexivity).
Qed.

Lemma accepted_positive prUrl info :
  Spec.accepted prUrl info -> (1 <= pullRequestId info)%N.
Proof. intros [? ? ? ? ? _ _ _ _ _ Hid|? ? ? ? ? ? _ _ _ _ _ _ Hid]; exact Hid. Qed.

Lemma accepted_first_char prUrl info :
  Spec.accepted prUrl info ->
  exists c rest, prUrl = String c rest /\ Js.char_eq_ci "h" c = true.
Proof.
  intros [host org proj repo ds Hhost _ _ _ _ _
         |scheme org domain proj repo ds Hscheme _ _ _ _ _ _].
  - apply eq_ci_cons_inv in Hhost as (c & h' & -> & Hc & _).
    unfold Spec.devAzureUrl. rewrite append_cons. eauto.
  - apply eq_ci_cons_inv in Hscheme as (c & h' & -> & Hc & _).
    unfold Spec.visualStudioUrl. rewrite append_cons. eauto.
Qed.

(** C1, counterexample.  The spec accepts neither a URL whose id is [0]
    nor a sentence around a URL; [parsePrUrl] returns a locator for both
    instead of failing with [InvalidLocator]. *)
Lemma parsePrUrl_accepts_more :
  ((forall info,
      ~ Spec.accepted "https://dev.azure.com/o/p/_git/r/pullrequest/0" info)
   /\ Ado.parsePrUrl "https://dev.azure.com/o/p/_git/r/pullrequest/0"
      = Ok {| organization := "o"; project := "p"; repository := "r";
              pullRequestId := 0 |})
  /\ ((forall info,
         ~ Spec.accepted
             "see https://dev.azure.com/o/p/_git/r/pullrequest/7x now" info)
      /\ Ado.parsePrUrl "see https://dev.azure.com/o/p/_git/r/pullrequest/7x now"
         = Ok {| organization := "o"; project := "p"; repository := "r";
                 pullRequestId := 7 |}).
Proof.
  split; (split; [|reflexivity]); intros info Hacc.
  - pose proof (accepted_positive _ _ Hacc) as Hid.
    apply accepted_parsePrUrl in Hacc.
    assert (Hinfo : Ok info
                    = Ok {| organization := "o"; project := "p";
                            repository := "r"; pullRequestId := 0 |})
      by (rewrite <- Hacc; reflexivity).
    injection Hinfo as ->. simpl in Hid. lia.
  - apply accepted_first_char in Hacc as (c & rest & Heq & Hc).
    injection Heq as <- _. discriminate Hc.
Qed.

(** C1, as amended.  [parsePrUrl] of the TypeScript helper is a function
    of the string.  It looks for the two patterns anywhere in the string,
    the dev.azure.com pattern first, without regard to case, the id being
    any non-empty run of digits.  JavaScript numbers hold the integers
    below [2 ^ 53] exactly, and the statement is about ids below that bound.
    For every URL of the dev.azure.com shape whose organization, project and
    repository are non-empty segments without [/] and line breaks and whose
    id is below [2 ^ 53], whatever text that does not go on with a digit
    follows the id, and for every URL of the visualstudio.com shape with
    such components, followed by text without [/] that does not go on with
    a digit, it returns exactly the four components, the id being the number
    the digits denote.  Whenever it returns a locator, the string contains a
    full match of one of the two patterns, the locator holds the first three
    groups of that match and, when the digits of the fourth denote a number
    below [2 ^ 53], that number; otherwise it fails with
    [InvalidLocator]. *)
Theorem parsePrUrl_locator :
  (forall host org proj repo ds post,
     Js.eq_ci "https://dev.azure.com/" host = true ->
     Spec.segment org = true -> Spec.segment proj = true ->
     Spec.segment repo = true -> Spec.digits ds = true ->
     (Js.parseInt ds < 2 ^ 53)%N ->
     Spec.no_leading_digit post = true ->
     Ado.parsePrUrl (Spec.devAzureUrl host org proj repo ds +:+ post)
     = Ok (Spec.locator org proj repo ds))
  /\ (forall scheme org domain proj repo ds post,
        Js.eq_ci "https://" scheme = true ->
        Js.eq_ci ".visualstudio.com/" domain = true ->
        Spec.segment org = true -> Spec.segment proj = true ->
        Spec.segment repo = true -> Spec.digits ds = true ->
        (Js.parseInt ds < 2 ^ 53)%N ->
        Spec.no_leading_digit post = true -> Spec.slash_free post = true ->
        Ado.parsePrUrl
          (Spec.visualStudioUrl scheme org domain proj repo ds +:+ post)
        = Ok (Spec.locator org proj repo ds))
  /\ (forall prUrl info,
        Ado.parsePrUrl prUrl = Ok info ->
        exists pat pre m post org proj repo ds,
          (pat = Ado.devAzureRegex \/ pat = Ado.visualStudioRegex)
          /\ prUrl = pre +:+ m +:+ post
          /\ Js.matches pat [org; proj; repo; ds] m
          /\ organization info = org
          /\ project info = proj
          /\ repository info = repo
          /\ ((Js.parseInt ds < 2 ^ 53)%N ->
              pullRequestId info = Js.parseInt ds))
  /\ (forall prUrl e, Ado.parsePrUrl prUrl = Err e -> e = Ado.InvalidLocator).
Proof.
  split; [|split; [|split]].
  - intros host org proj repo ds post Hhost Horg Hproj Hrepo Hds _ Hpost.
    apply parsePrUrl_devAzure; assumption.
  - intros scheme org domain proj repo ds post
      Hscheme Hdomain Horg Hproj Hrepo Hds _ Hpost Hfree.
    apply parsePrUrl_visualStudio; assumption.
  - intros prUrl info. unfold Ado.parsePrUrl.
    destruct (Ado.parsePrUrlInternal prUrl Ado.devAzureRegex)
      as [i1|] eqn:H1.
    + intros [= <-]. exists Ado.devAzureRegex.
      destruct (parsePrUrlInternal_sound _ _ _ (or_introl eq_refl) H1)
        as (pre & m & post & org & proj & repo & ds & ? & ? & ->).
      exists pre, m, post, org, proj, repo, ds. repeat split; auto.
    + destruct (Ado.parsePrUrlInternal prUrl Ado.visualStudioRegex)
        as [i2|] eqn:H2; [|discriminate].
      intros [= <-]. exists Ado.visualStudioRegex.
      destruct (parsePrUrlInternal_sound _ _ _ (or_intror eq_refl) H2)
        as (pre & m & post & org & proj & repo & ds & ? & ? & ->).
      exists pre, m, post, org, proj, repo, ds. repeat split; auto.
  - intros prUrl e. unfold Ado.parsePrUrl.
    destruct (Ado.parsePrUrlInternal prUrl Ado.devAzureRegex); [discriminate|].
    destruct (Ado.parsePrUrlInternal prUrl Ado.visualStudioRegex);
      [discriminate|].
    congruence.
Qed.

Lemma parsePrUrl_locator_witness :
  Ado.parsePrUrl
    "HTTPS://Dev.Azure.com/org/project/_git/repo/pullrequest/123?_a=files"
  = Ok {| organization := "org"; project := "project"; repository := "repo";
          pullRequestId := 123 |}
  /\ Ado.parsePrUrl
       "https://org.VisualStudio.com/project/_git/repo/pullrequest/45"
     = Ok {| organization := "org"; project := "project";
             repository := "repo"; pullRequestId := 45 |}.
Proof.
  split.
  - apply (proj1 parsePrUrl_locator "HTTPS://Dev.Azure.com/" "org" "project"
             "repo" "123" "?_a=files"); reflexivity.
  - apply (proj1 (proj2 parsePrUrl_locator) "https://" "org"
             ".VisualStudio.com/" "project" "repo" "45" EmptyString); reflexivity.
Defined.

(* ===================================================================== *)
(** * Further properties: the REST gateway *)
(* ===================================================================== *)

Import Control.

Lemma run_extends {A} env (p : Prog A) log :
  exists rest, snd (run env p log) = log ++ rest.
Proof.
  revert log. induction p as [a|e|k IH|u o k IH]; intros log; simpl.
  - exists []. rewrite app_nil_r. reflexivity.
  - exists []. rewrite app_nil_r. reflexivity.
  - destruct (IH (env_tokenProvider env log) (log ++ [TokenRequested]))
      as [rest Hrest].
    exists (TokenRequested :: rest). rewrite Hrest, <- app_assoc. reflexivity.
  - destruct (IH (env_fetch env log u o) (log ++ [Fetched u o]))
      as [rest Hrest].
    exists (Fetched u o :: rest). rewrite Hrest, <- app_assoc. reflexivity.
Qed.

Lemma truthy_token_credential_error auth :
  Js.truthy (token auth) = true <-> credential_error (Ok auth) = None.
Proof.
  unfold credential_error. destruct (Js.truthy (token auth)); split;
    intros H; try reflexivity; discriminate.
Qed.

Lemma run_getDefaultHeaders_Err env log e :
  credential_error (env_tokenProvider env log) = Some e ->
  run env Ado.getDefaultHeaders log = (Err e, log ++ [TokenRequested]).
Proof.
  intros Hcred. unfold Ado.getDefaultHeaders, tokenProvider.
  rewrite run_mbind. simpl.
  destruct (env_tokenProvider env log) as [auth|e0]; simpl in *.
  - destruct (Js.truthy (token auth)); [discriminate|].
    injection Hcred as <-. reflexivity.
  - injection Hcred as <-. reflexivity.
Qed.

Lemma run_sendRequest_Err env log e url msg options :
  credential_error (env_tokenProvider env log) = Some e ->
  run env (Ado.sendRequest url msg options) log
  = (Err e, log ++ [TokenRequested]).
Proof.
  intros Hcred. unfold Ado.sendRequest.
  rewrite run_mbind, (run_getDefaultHeaders_Err _ _ e) by assumption.
  reflexivity.
Qed.

Lemma get_not_in k (h : Js.Headers) :
  ~ In k (map fst h) -> Js.get k h = None.
Proof.
  induction h as [|[k0 v0] h IH]; simpl; [reflexivity|]. intros Hnot.
  destruct (String.eqb_spec k k0) as [->|Hne]; [tauto|]. apply IH. tauto.
Qed.

Lemma get_spread_NoDup k a b :
  List.NoDup (map fst b) ->
  Js.get k (Js.spread a b)
  = match Js.get k b with
    | Some v => Some v
    | None => Js.get k a
    end.
Proof.
  unfold Js.spread. intros Hnodup. revert a.
  induction b as [|[k0 v0] b IH]; intros a; simpl in *; [reflexivity|].
  apply List.NoDup_cons_iff in Hnodup as [Hnot Hnodup].
  rewrite IH by assumption. rewrite get_set.
  destruct (String.eqb_spec k k0) as [->|Hne]; [|reflexivity].
  rewrite get_not_in by assumption. reflexivity.
Qed.

Section Gateway.
Context {imports : Ado.Imports}.

(** X1.  When the token provider rejects, or yields a credential whose
    token is undefined or empty, the gateway fails with the rejection,
    respectively with [MissingCredential], after the token request alone:
    no HTTP request is made.  Both public operations on a URL that parses
    fail in the same way, with the same log. *)
Theorem no_credential_no_request env log e :
  credential_error (env_tokenProvider env log) = Some e ->
  (forall url msg options,
     run env (Ado.sendRequest url msg options) log
     = (Err e, log ++ [TokenRequested]))
  /\ (forall prUrl prInfo options,
        Ado.parsePrUrl prUrl = Ok prInfo ->
        run env (Ado.postPrComment prUrl options) log
        = (Err e, log ++ [TokenRequested]))
  /\ (forall sched prUrl prInfo,
        Ado.parsePrUrl prUrl = Ok prInfo ->
        run env (Ado.getPrFileChanges sched prUrl) log
        = (Err e, log ++ [TokenRequested])).
Proof.
  intros Hcred. split; [|split].
  - intros url msg options. apply run_sendRequest_Err, Hcred.
  - intros prUrl prInfo options Hparse. unfold Ado.postPrComment.
    rewrite Hparse, settle_Ok_bind. cbv zeta.
    rewrite run_mbind, (run_sendRequest_Err _ _ e) by assumption.
    reflexivity.
  - intros sched prUrl prInfo Hparse. unfold Ado.getPrFileChanges.
    rewrite Hparse, settle_Ok_bind. cbv zeta.
    rewrite run_mbind. unfold Ado.getPrDetails.
    rewrite run_mbind, (run_sendRequest_Err _ _ e) by assumption.
    reflexivity.
Qed.

(** X2.  With a credential in hand, an answer whose status is outside
    200-299 makes [sendRequest] throw the error whose message is the
    caller's label, the status number and the status text, in the form
    [label: HTTP status: text]; the request was made once and is not
    repeated. *)
Theorem sendRequest_remote_failure env log auth url msg options r :
  env_tokenProvider env log = Ok auth ->
  Js.truthy (token auth) = true ->
  env_fetch env (log ++ [TokenRequested]) url (Spec.outgoing auth options)
  = Ok r ->
  (r_status r < 200 \/ 299 < r_status r)%N ->
  run env (Ado.sendRequest url msg options) log
  = (Err (JsError (msg +:+ ": HTTP " +:+ Js.string_of_number (r_status r)
                     +:+ ": " +:+ r_statusText r)),
     log ++ [TokenRequested; Fetched url (Spec.outgoing auth options)]).
Proof.
  intros Htok Htruthy Hfetch Hstatus.
  rewrite (run_sendRequest _ _ auth) by assumption. cbv zeta.
  rewrite Hfetch.
  assert (Hok : ok r = false).
  { unfold ok. apply andb_false_iff.
    destruct Hstatus; [left|right]; apply N.leb_gt; assumption. }
  rewrite Hok. reflexivity.
Qed.

(** X3.  Every run of [sendRequest] asks the token provider exactly once
    and calls [fetch] at most once: either it stops after the token
    request with an error, or the token provider granted a non-empty token
    and the one request goes to the URL given, with the caller's method
    and body. *)
Theorem sendRequest_at_most_one_fetch env log url msg options :
  (exists e,
      run env (Ado.sendRequest url msg options) log
      = (Err e, log ++ [TokenRequested]))
  \/ (exists auth outcome sent,
        env_tokenProvider env log = Ok auth
        /\ Js.truthy (token auth) = true
        /\ run env (Ado.sendRequest url msg options) log
           = (outcome, log ++ [TokenRequested; Fetched url sent])
        /\ method sent = method options
        /\ body sent = body options).
Proof.
  destruct (credential_error (env_tokenProvider env log)) as [e|] eqn:Hcred.
  - left. exists e. apply run_sendRequest_Err, Hcred.
  - right. destruct (env_tokenProvider env log) as [auth|e] eqn:Htok;
      [|discriminate].
    apply truthy_token_credential_error in Hcred.
    exists auth.
    rewrite (run_sendRequest _ _ auth) by assumption. cbv zeta.
    destruct (env_fetch _ _ _ _) as [r|e];
      [destruct (ok r)|]; do 2 eexists;
      (split; [reflexivity|]); (split; [exact Hcred|]);
      repeat split; reflexivity.
Qed.

(** X4.  The headers of the request [sendRequest] makes are the three
    default headers overridden by the caller's: for caller headers whose
    keys are distinct, every key the caller sets carries the caller's
    value, [Authorization] included, and every other key its default. *)
Theorem caller_headers_override env log auth url msg options :
  env_tokenProvider env log = Ok auth ->
  Js.truthy (token auth) = true ->
  List.NoDup (map fst (default [] (headers options))) ->
  exists outcome sent,
    run env (Ado.sendRequest url msg options) log
    = (outcome, log ++ [TokenRequested; Fetched url sent])
    /\ forall k,
         Js.get k (default [] (headers sent))
         = match Js.get k (default [] (headers options)) with
           | Some v => Some v
           | None => Js.get k (Spec.defaultHeaders auth)
           end.
Proof.
  intros Htok Htruthy Hnodup.
  rewrite (run_sendRequest _ _ auth) by assumption. cbv zeta.
  destruct (env_fetch _ _ _ _) as [r|e];
    [destruct (ok r)|]; do 2 eexists; (split; [reflexivity|]);
    intros k; simpl; apply get_spread_NoDup, Hnodup.
Qed.

End Gateway.

(* ===================================================================== *)
(** * Further properties: downloads and the per-file task *)
(* ===================================================================== *)

Lemma or_empty_Some s : Js.or_empty (Some s) = s.
Proof.
  unfold Js.or_empty. simpl.
  destruct (String.eqb_spec s EmptyString) as [->|]; reflexivity.
Qed.

Lemma truthy_Some s : s <> EmptyString -> Js.truthy (Some s) = true.
Proof.
  intros Hne. simpl.
  destruct (String.eqb_spec s EmptyString); [contradiction|reflexivity].
Qed.

Lemma run_getBlobContent env log auth url :
  env_tokenProvider env log = Ok auth ->
  Js.truthy (token auth) = true ->
  run env (Ado.getBlobContent url) log
  = let log' := log ++ [TokenRequested; Fetched url (blobRequest auth)] in
    match env_fetch env (log ++ [TokenRequested]) url (blobRequest auth) with
    | Ok r =>
        if ok r then (Ok (Some (r_body r)), log')
        else (Err (Ado.RemoteRequestFailed "Failed to download blob content" r),
              log')
    | Err e => (Err e, log')
    end.
Proof.
  intros Htok Htruthy. unfold Ado.getBlobContent.
  rewrite run_mbind, (run_sendRequest _ _ auth) by assumption. cbv zeta.
  change (Spec.outgoing auth _) with (blobRequest auth).
  destruct (env_fetch _ _ _ _) as [r|e]; [|reflexivity].
  destruct (ok r); reflexivity.
Qed.

Section Downloads.
Context {imports : Ado.Imports}.

(** X5.  For a file item with both blob ids, the per-file task first
    downloads the original blob and then the new one, each with a token
    request of its own and the header [Accept: text/plain].  When the
    first answer is outside 200-299 the task throws the download error and
    the new blob is never requested; when both answers are successful the
    result carries the item's path, the original text as [sourceContent]
    and the patch of the original text against the new text. *)
Theorem getFilePatch_downloads_in_order env log f baseUrl old new auth1 r1 :
  originalObjectId f = Some old -> old <> EmptyString ->
  objectId f = Some new -> new <> EmptyString ->
  env_tokenProvider env log = Ok auth1 ->
  Js.truthy (token auth1) = true ->
  let first := Fetched (Ado.getBlobUrl baseUrl old) (blobRequest auth1) in
  env_fetch env (log ++ [TokenRequested]) (Ado.getBlobUrl baseUrl old)
    (blobRequest auth1) = Ok r1 ->
  (ok r1 = false ->
   run env (Ado.getFilePatch f baseUrl) log
   = (Err (Ado.RemoteRequestFailed "Failed to download blob content" r1),
      log ++ [TokenRequested; first]))
  /\ (ok r1 = true ->
      forall auth2 r2,
        env_tokenProvider env (log ++ [TokenRequested; first]) = Ok auth2 ->
        Js.truthy (token auth2) = true ->
        env_fetch env (log ++ [TokenRequested; first; TokenRequested])
          (Ado.getBlobUrl baseUrl new) (blobRequest auth2) = Ok r2 ->
        ok r2 = true ->
        run env (Ado.getFilePatch f baseUrl) log
        = (Ok {| filePath := path f;
                 sourceContent := Some (r_body r1);
                 patch := Ado.createPatch (path f) (r_body r1) (r_body r2) |},
           log ++ [TokenRequested; first; TokenRequested;
                   Fetched (Ado.getBlobUrl baseUrl new) (blobRequest auth2)])).
Proof.
  intros Hold Holdne Hnew Hnewne Htok1 Htruthy1 first Hfetch1.
  unfold Ado.getFilePatch. cbv zeta.
  rewrite Hold, Hnew, !truthy_Some by assumption.
  change (default EmptyString (Some old)) with old.
  change (default EmptyString (Some new)) with new.
  rewrite run_mbind, (run_getBlobContent _ _ auth1) by assumption.
  cbv zeta. rewrite Hfetch1. fold first. split.
  - intros ->. reflexivity.
  - intros -> auth2 r2 Htok2 Htruthy2 Hfetch2 Hok2.
    rewrite run_mbind, (run_getBlobContent _ _ auth2) by assumption.
    cbv zeta. rewrite <- !app_assoc. cbn [app].
    rewrite Hfetch2, Hok2. cbn [run]. rewrite !or_empty_Some. reflexivity.
Qed.

End Downloads.

(* ===================================================================== *)
(** * Further properties: branch names and the change list *)
(* ===================================================================== *)

Lemma strip_prefix_Some p s s' :
  Js.strip_prefix p s = Some s' -> s = p +:+ s'.
Proof.
  revert s. induction p as [|x p IH]; intros s; simpl.
  - intros [= ->]. reflexivity.
  - destruct s as [|c s]; [discriminate|].
    destruct (Ascii.eqb_spec x c) as [->|]; [|discriminate].
    intros H. rewrite (IH _ H). reflexivity.
Qed.

Lemma strip_prefix_app p s : Js.strip_prefix p (p +:+ s) = Some s.
Proof.
  induction p as [|x p IH]; simpl; [reflexivity|].
  rewrite Ascii.eqb_refl. exact IH.
Qed.

Lemma remove_first_eq p s :
  Js.remove_first p s
  = match Js.strip_prefix p s with
    | Some s' => s'
    | None =>
        match s with
        | EmptyString => EmptyString
        | String c s' => String c (Js.remove_first p s')
        end
    end.
Proof. destruct s; reflexivity. Qed.

Lemma remove_first_prefix p s : Js.remove_first p (p +:+ s) = s.
Proof. rewrite remove_first_eq, strip_prefix_app. reflexivity. Qed.

Lemma remove_first_empty p s :
  Js.remove_first p s = EmptyString <-> s = EmptyString \/ s = p.
Proof.
  rewrite remove_first_eq. split.
  - destruct (Js.strip_prefix p s) as [s'|] eqn:Hs.
    + intros ->. apply strip_prefix_Some in Hs.
      rewrite append_nil_r in Hs. auto.
    + destruct s; [auto|discriminate].
  - intros [-> | ->].
    + destruct p; reflexivity.
    + pose proof (strip_prefix_app p EmptyString) as H.
      rewrite append_nil_r in H. rewrite H. reflexivity.
Qed.

Lemma encodeURIComponent_empty s :
  Js.encodeURIComponent s = EmptyString <-> s = EmptyString.
Proof.
  split; [|intros ->; reflexivity].
  destruct s as [|c s]; [reflexivity|]. cbn [Js.encodeURIComponent].
  destruct (Js.uri_unreserved c); [discriminate|].
  unfold Js.percent. destruct (_ <? 128)%N; discriminate.
Qed.

Lemma all_chars_app P a b :
  Js.all_chars P (a +:+ b) = Js.all_chars P a && Js.all_chars P b.
Proof.
  induction a as [|x a IH]; [reflexivity|].
  rewrite append_cons. cbn [Js.all_chars]. rewrite IH, andb_assoc. reflexivity.
Qed.

Lemma hex_digit_unreserved n : Js.uri_unreserved (Js.hex_digit n) = true.
Proof.
  unfold Js.hex_digit. generalize (N.to_nat n) as m. intros m.
  do 17 (destruct m as [|m]; [reflexivity|]). reflexivity.
Qed.

Lemma percent_escaped n :
  Js.all_chars (fun c => Js.uri_unreserved c || Ascii.eqb c "%") (Js.percent n)
  = true.
Proof.
  unfold Js.percent. cbn [Js.all_chars].
  rewrite !hex_digit_unreserved. reflexivity.
Qed.

Lemma encodeURIComponent_escaped s :
  Js.all_chars (fun c => Js.uri_unreserved c || Ascii.eqb c "%")
    (Js.encodeURIComponent s) = true.
Proof.
  induction s as [|c s IH]; [reflexivity|]. cbn [Js.encodeURIComponent].
  rewrite all_chars_app, IH, andb_true_r.
  destruct (Js.uri_unreserved c) eqn:Hc.
  - cbn [Js.all_chars]. rewrite Hc. reflexivity.
  - destruct (_ <? 128)%N; [apply percent_escaped|].
    rewrite all_chars_app, !percent_escaped. reflexivity.
Qed.

Lemma branchName_empty ref :
  Ado.branchName ref = EmptyString
  <-> ref = Some EmptyString \/ ref = Some "refs/heads/".
Proof.
  destruct ref as [r|]; simpl.
  - rewrite encodeURIComponent_empty, remove_first_empty.
    split; intros [H|H]; [left|right|left|right]; congruence.
  - split; [discriminate|]. intros [H|H]; discriminate.
Qed.

(** X6.  The branch name put into the change-list URL is empty exactly
    for the refs [''] and ["refs/heads/"]; for a ref [refs/heads/b] it is
    [encodeURIComponent b]; and it consists of unreserved characters and
    percent escapes only, so it cannot add [&], [=], [/], [?] or [#] to
    the URL. *)
Theorem branchName_spec :
  (forall ref,
     Ado.branchName ref = EmptyString
     <-> ref = Some EmptyString \/ ref = Some "refs/heads/")
  /\ (forall b,
        Ado.branchName (Some ("refs/heads/" +:+ b)) = Js.encodeURIComponent b)
  /\ (forall ref,
        Js.all_chars (fun c => Js.uri_unreserved c || Ascii.eqb c "%")
          (Ado.branchName ref) = true)
  /\ (forall ref c,
        In c (list_ascii_of_string "&=/?#") ->
        ~ In c (list_ascii_of_string (Ado.branchName ref))).
Proof.
  assert (Hsafe : forall ref,
            Js.all_chars (fun c => Js.uri_unreserved c || Ascii.eqb c "%")
              (Ado.branchName ref) = true).
  { intros [r|]; [apply encodeURIComponent_escaped|reflexivity]. }
  split; [exact branchName_empty|]. split; [|split; [exact Hsafe|]].
  - intros b. unfold Ado.branchName. rewrite remove_first_prefix. reflexivity.
  - intros ref c Hc Hin. specialize (Hsafe ref).
    induction (Ado.branchName ref) as [|x s IH]; [contradiction|].
    cbn [Js.all_chars] in Hsafe. apply andb_true_iff in Hsafe as [Hx Hs].
    destruct Hin as [->|Hin]; [|exact (IH Hs Hin)].
    simpl in Hc.
    repeat (destruct Hc as [<-|Hc]; [discriminate Hx|]). contradiction.
Qed.

Lemma run_extends_ex {A} env (p : Prog A) log :
  exists outcome rest, run env p log = (outcome, log ++ rest).
Proof.
  destruct (run_extends env p log) as [rest Hrest].
  destruct (run env p log) as [outcome log'] eqn:Hrun. simpl in Hrest.
  subst log'. eauto.
Qed.

Section ChangeList.
Context {imports : Ado.Imports}.

(** X7.  Once the pull request has passed the gate, a source or target
    ref that is [''] or ["refs/heads/"] makes [getPrFileChanges] fail with
    [BranchResolutionFailed] and the change list is not requested; with any
    other refs, a missing one included, the next request goes to the
    change-list URL built from the two branch names. *)
Theorem branch_resolution env sched prUrl log prInfo prDetails log1 :
  Ado.parsePrUrl prUrl = Ok prInfo ->
  let baseUrl :=
    Ado.getBaseUrl (organization prInfo) (project prInfo) (repository prInfo) in
  run env (Ado.getPrDetails
             (Ado.getPrDetailsUrl baseUrl (pullRequestId prInfo))) log
  = (Ok prDetails, log1) ->
  let unresolved ref := ref = Some EmptyString \/ ref = Some "refs/heads/" in
  (unresolved (sourceRefName prDetails) \/ unresolved (targetRefName prDetails) ->
   run env (Ado.getPrFileChanges sched prUrl) log
   = (Err Ado.BranchResolutionFailed, log1))
  /\ (~ (unresolved (sourceRefName prDetails)
         \/ unresolved (targetRefName prDetails)) ->
      forall auth,
        env_tokenProvider env log1 = Ok auth ->
        Js.truthy (token auth) = true ->
        exists outcome rest,
          run env (Ado.getPrFileChanges sched prUrl) log
          = (outcome,
             log1 ++ [TokenRequested;
                      Fetched (Ado.getDiffsUrl baseUrl
                                 (Ado.branchName (sourceRefName prDetails))
                                 (Ado.branchName (targetRefName prDetails)))
                        (Spec.outgoing auth Ado.no_options)] ++ rest)).
Proof.
  intros Hparse baseUrl Hdetails unresolved.
  assert (Hrun : forall b,
    (String.eqb (Ado.branchName (sourceRefName prDetails)) EmptyString
     || String.eqb (Ado.branchName (targetRefName prDetails)) EmptyString) = b ->
    run env (Ado.getPrFileChanges sched prUrl) log
    = if b then (Err Ado.BranchResolutionFailed, log1)
      else run env
             (changes ← Ado.getGitChanges
                          (Ado.getDiffsUrl baseUrl
                             (Ado.branchName (sourceRefName prDetails))
                             (Ado.branchName (targetRefName prDetails)));
              if (length changes =? 0)%nat then Throw Ado.NoChangesFound
              else
                let fileItems :=
                  map item (List.filter Ado.isSupportedChange changes) in
                if (length fileItems =? 0)%nat then Throw Ado.NoEligibleFiles
                else
                  fileChanges ←
                    Promise_all sched
                      (map (fun f => Ado.getFilePatch f baseUrl) fileItems);
                  Ret fileChanges) log1).
  { intros b Hb. unfold Ado.getPrFileChanges.
    rewrite Hparse, settle_Ok_bind. cbv zeta. fold baseUrl.
    rewrite run_mbind, Hdetails, Hb. destruct b; reflexivity. }
  assert (Hiff : (String.eqb (Ado.branchName (sourceRefName prDetails)) EmptyString
     || String.eqb (Ado.branchName (targetRefName prDetails)) EmptyString) = true
     <-> unresolved (sourceRefName prDetails)
         \/ unresolved (targetRefName prDetails)).
  { rewrite orb_true_iff, !String.eqb_eq, !branchName_empty. reflexivity. }
  split.
  - intros Hun. apply Hiff in Hun. rewrite (Hrun true Hun). reflexivity.
  - intros Hres auth Htok Htruthy.
    rewrite (Hrun false)
      by (apply not_true_is_false; intros H; apply Hres, Hiff, H).
    rewrite run_mbind. unfold Ado.getGitChanges.
    rewrite run_mbind, (run_sendRequest _ _ auth) by assumption. cbv zeta.
    set (log2 := log1 ++ [TokenRequested; _]).
    destruct (env_fetch _ _ _ _) as [r|e];
      [destruct (ok r)|]; try (exists (Err e); exists []);
      try (eexists; exists []; rewrite app_nil_r; reflexivity).
    rewrite run_mbind.
    destruct (Ado.json_CommitDiffs (r_body r)) as [data|e]; cbn [settle run].
    + match goal with
      | |- exists outcome rest, run env ?p log2 = _ =>
          destruct (run_extends_ex env p log2) as (outcome & rest & ->)
      end.
      exists outcome, rest. unfold log2. rewrite <- app_assoc. reflexivity.
    + eexists; exists []; rewrite app_nil_r; reflexivity.
Qed.

End ChangeList.

(* ===================================================================== *)
(** * Further properties: the fan-out *)
(* ===================================================================== *)

Lemma throws_bind_l F {A B} (p : Prog A) (f : A -> Prog B) :
  throws F p -> throws F (p ≫= f).
Proof.
  induction p as [a|e|k IH|u o k IH]; simpl; auto. contradiction.
Qed.

Lemma throws_bind_r F {A B} (p : Prog A) (f : A -> Prog B) :
  (forall a, throws F (f a)) -> throws F (p ≫= f).
Proof.
  intros Hf. induction p as [a|e|k IH|u o k IH]; simpl; auto.
Qed.

Lemma throws_run F {A} env (p : Prog A) log :
  (forall log u o, F u o (env_fetch env log u o)) ->
  throws F p ->
  exists e log', run env p log = (Err e, log').
Proof.
  intros Hfetch. revert log.
  induction p as [a|e|k IH|u o k IH]; simpl; intros log Hp.
  - contradiction.
  - eauto.
  - apply IH, Hp.
  - apply IH, Hp, Hfetch.
Qed.

Lemma join_in_order_throws F {A} (pool : list (Prog A)) i p :
  pool !! i = Some p -> throws F p -> throws F (join_in_order pool).
Proof.
  revert i. induction pool as [|q pool IH]; intros i Hi Hp; [discriminate|].
  simpl. destruct i as [|i]; simpl in Hi.
  - injection Hi as ->. apply (throws_bind_l F p), Hp.
  - apply (throws_bind_r F q). intros v.
    apply (throws_bind_l F (join_in_order pool)). eapply IH; eassumption.
Qed.

Lemma Promise_all_throws F {A} sched (pool : list (Prog A)) i p :
  pool !! i = Some p -> throws F p -> throws F (Promise_all sched pool).
Proof.
  revert pool p. induction sched as [|j sched IH]; intros pool p Hi Hp; simpl.
  - eapply join_in_order_throws; eassumption.
  - destruct (pool !! j) as [q|] eqn:Hj; [|eapply IH; eassumption].
    destruct q as [a|e|k|u o k]; simpl.
    + eapply IH; eassumption.
    + exact I.
    + intros r. destruct (decide (j = i)) as [->|Hne].
      * rewrite Hi in Hj. injection Hj as ->.
        apply (IH _ (k r)); [|apply Hp].
        apply list_lookup_insert_eq. eapply lookup_lt_Some, Hi.
      * apply (IH _ p); [|exact Hp].
        rewrite list_lookup_insert_ne by assumption. exact Hi.
    + intros r Hr. destruct (decide (j = i)) as [->|Hne].
      * rewrite Hi in Hj. injection Hj as ->.
        apply (IH _ (k r)); [|apply Hp, Hr].
        apply list_lookup_insert_eq. eapply lookup_lt_Some, Hi.
      * apply (IH _ p); [|exact Hp].
        rewrite list_lookup_insert_ne by assumption. exact Hi.
Qed.

Lemma getBlobContent_throws url :
  throws (refused url) (Ado.getBlobContent url).
Proof.
  unfold Ado.getBlobContent, Ado.sendRequest, Ado.getDefaultHeaders.
  simpl. intros [auth|e]; simpl; [|exact I].
  destruct (Js.truthy (token auth)); simpl; [|exact I].
  intros [resp|e] Hr; simpl; [|exact I].
  rewrite (Hr eq_refl). exact I.
Qed.

Section FanOut.
Context {imports : Ado.Imports}.

Lemma getFilePatch_throws f baseUrl sha :
  originalObjectId f = Some sha \/ objectId f = Some sha ->
  sha <> EmptyString ->
  throws (refused (Ado.getBlobUrl baseUrl sha)) (Ado.getFilePatch f baseUrl).
Proof.
  intros Hsha Hne. unfold Ado.getFilePatch. cbv zeta.
  destruct Hsha as [Hsha|Hsha].
  - apply throws_bind_l. rewrite Hsha, truthy_Some by assumption.
    apply getBlobContent_throws.
  - apply throws_bind_r. intros sourceContent. apply throws_bind_l.
    rewrite Hsha, truthy_Some by assumption. apply getBlobContent_throws.
Qed.

Lemma run_getPrFileChanges_changes env sched prUrl log prInfo prDetails
    changes log1 log2 :
  Ado.parsePrUrl prUrl = Ok prInfo ->
  let baseUrl :=
    Ado.getBaseUrl (organization prInfo) (project prInfo) (repository prInfo) in
  let sourceBranch := Ado.branchName (sourceRefName prDetails) in
  let targetBranch := Ado.branchName (targetRefName prDetails) in
  run env (Ado.getPrDetails
             (Ado.getPrDetailsUrl baseUrl (pullRequestId prInfo))) log
  = (Ok prDetails, log1) ->
  sourceBranch <> EmptyString -> targetBranch <> EmptyString ->
  run env (Ado.getGitChanges
             (Ado.getDiffsUrl baseUrl sourceBranch targetBranch)) log1
  = (Ok changes, log2) ->
  run env (Ado.getPrFileChanges sched prUrl) log
  = if (length changes =? 0)%nat then (Err Ado.NoChangesFound, log2)
    else
      let fileItems := map item (List.filter Ado.isSupportedChange changes) in
      if (length fileItems =? 0)%nat then (Err Ado.NoEligibleFiles, log2)
      else run env (Promise_all sched
                      (map (fun f => Ado.getFilePatch f baseUrl) fileItems))
             log2.
Proof.
  intros Hparse baseUrl sourceBranch targetBranch Hdetails Hsource Htarget
    Hchanges.
  unfold Ado.getPrFileChanges. rewrite Hparse, settle_Ok_bind. cbv zeta.
  fold baseUrl. rewrite run_mbind, Hdetails. fold sourceBranch targetBranch.
  destruct (String.eqb_spec sourceBranch EmptyString); [contradiction|].
  destruct (String.eqb_spec targetBranch EmptyString); [contradiction|].
  cbn [orb]. rewrite run_mbind, Hchanges.
  destruct (length changes =? 0)%nat; [reflexivity|].
  destruct (length (map item (List.filter Ado.isSupportedChange changes)) =? 0)%nat;
    [reflexivity|].
  rewrite run_mbind.
  destruct (run env (Promise_all sched _) log2) as [[res|e] log3]; reflexivity.
Qed.

(** X8.  When the change list decodes to no entry, [getPrFileChanges]
    fails with [NoChangesFound]; when it has entries but none is eligible,
    it fails with [NoEligibleFiles].  In both cases the log of the run is
    the log after the change-list request: no blob is requested. *)
Theorem empty_change_sets env sched prUrl log prInfo prDetails changes
    log1 log2 :
  Ado.parsePrUrl prUrl = Ok prInfo ->
  let baseUrl :=
    Ado.getBaseUrl (organization prInfo) (project prInfo) (repository prInfo) in
  let sourceBranch := Ado.branchName (sourceRefName prDetails) in
  let targetBranch := Ado.branchName (targetRefName prDetails) in
  run env (Ado.getPrDetails
             (Ado.getPrDetailsUrl baseUrl (pullRequestId prInfo))) log
  = (Ok prDetails, log1) ->
  sourceBranch <> EmptyString -> targetBranch <> EmptyString ->
  run env (Ado.getGitChanges
             (Ado.getDiffsUrl baseUrl sourceBranch targetBranch)) log1
  = (Ok changes, log2) ->
  (changes = [] ->
   run env (Ado.getPrFileChanges sched prUrl) log
   = (Err Ado.NoChangesFound, log2))
  /\ (changes <> [] ->
      List.filter Ado.isSupportedChange changes = [] ->
      run env (Ado.getPrFileChanges sched prUrl) log
      = (Err Ado.NoEligibleFiles, log2)).
Proof.
  intros Hparse baseUrl sourceBranch targetBranch Hdetails Hsource Htarget
    Hchanges.
  rewrite (run_getPrFileChanges_changes env sched prUrl log prInfo prDetails
             changes log1 log2) by assumption.
  split.
  - intros ->. reflexivity.
  - intros Hne Hnone. destruct changes as [|c changes]; [contradiction|].
    cbn [length Nat.eqb]. cbv zeta. rewrite Hnone. reflexivity.
Qed.

(** X9.  All or nothing: when the service does not answer the request for
    one blob of one eligible entry with a status from 200 to 299,
    [getPrFileChanges] fails, in whatever order the event loop resumes the
    per-file tasks; it returns no partial list. *)
Theorem one_refused_blob_fails_all env sched prUrl log prInfo prDetails
    changes log1 log2 f sha :
  Ado.parsePrUrl prUrl = Ok prInfo ->
  let baseUrl :=
    Ado.getBaseUrl (organization prInfo) (project prInfo) (repository prInfo) in
  let sourceBranch := Ado.branchName (sourceRefName prDetails) in
  let targetBranch := Ado.branchName (targetRefName prDetails) in
  run env (Ado.getPrDetails
             (Ado.getPrDetailsUrl baseUrl (pullRequestId prInfo))) log
  = (Ok prDetails, log1) ->
  sourceBranch <> EmptyString -> targetBranch <> EmptyString ->
  run env (Ado.getGitChanges
             (Ado.getDiffsUrl baseUrl sourceBranch targetBranch)) log1
  = (Ok changes, log2) ->
  In f (map item (List.filter Ado.isSupportedChange changes)) ->
  originalObjectId f = Some sha \/ objectId f = Some sha ->
  sha <> EmptyString ->
  (forall log o,
     match env_fetch env log (Ado.getBlobUrl baseUrl sha) o with
     | Ok resp => ok resp = false
     | Err _ => True
     end) ->
  exists e log',
    run env (Ado.getPrFileChanges sched prUrl) log = (Err e, log').
Proof.
  intros Hparse baseUrl sourceBranch targetBranch Hdetails Hsource Htarget
    Hchanges Hf Hsha Hne Hrefused.
  rewrite (run_getPrFileChanges_changes env sched prUrl log prInfo prDetails
             changes log1 log2) by assumption.
  destruct changes as [|c changes]; [contradiction Hf|].
  cbn [length Nat.eqb]. cbv zeta.
  set (fileItems := map item (List.filter Ado.isSupportedChange (c :: changes)))
    in *.
  destruct fileItems as [|f0 fileItems'] eqn:Hitems; [contradiction Hf|].
  cbn [length Nat.eqb]. rewrite <- Hitems.
  apply (throws_run (refused (Ado.getBlobUrl baseUrl sha))).
  - intros log0 u o ->. apply Hrefused.
  - rewrite <- Hitems in Hf. apply list_elem_of_In in Hf.
    apply list_elem_of_lookup_1 in Hf as [i Hi].
    apply (Promise_all_throws _ _ _ i (Ado.getFilePatch f baseUrl)).
    + change (map ?g ?l) with (g <$> l). rewrite list_lookup_fmap, Hi.
      reflexivity.
    + apply getFilePatch_throws; assumption.
Qed.

End FanOut.

(** ** The statements on the sample services *)

Lemma no_credential_no_request_witness :
  run (Scenarios.env Scenarios.no_token "pr:active" "diffs" [])
    (Ado.postPrComment (imports:=Sample.imports) Sample.prUrl
       Sample.commentOptions) []
  = (Err Ado.MissingCredential, [TokenRequested])
  /\ forall sched,
       run (Scenarios.env Scenarios.no_token "pr:active" "diffs" [])
         (Ado.getPrFileChanges (imports:=Sample.imports) sched Sample.prUrl) []
       = (Err Ado.MissingCredential, [TokenRequested]).
Proof.
  pose proof (no_credential_no_request (imports:=Sample.imports)
                (Scenarios.env Scenarios.no_token "pr:active" "diffs" []) []
                Ado.MissingCredential eq_refl) as (_ & Hpost & Hget).
  split.
  - apply (Hpost Sample.prUrl Scenarios.prInfo). reflexivity.
  - intros sched. apply (Hget sched Sample.prUrl Scenarios.prInfo). reflexivity.
Defined.

Lemma sendRequest_remote_failure_witness :
  run (Sample.env "pr:active")
    (Ado.sendRequest "https://dev.azure.com/none" "Failed to get PR details"
       Ado.no_options) []
  = (Err (JsError "Failed to get PR details: HTTP 404: Not Found"),
     [TokenRequested;
      Fetched "https://dev.azure.com/none"
        (Spec.outgoing {| type := "pat"; token := Some "abc" |}
           Ado.no_options)]).
Proof.
  apply (sendRequest_remote_failure (Sample.env "pr:active") []
           {| type := "pat"; token := Some "abc" |}
           "https://dev.azure.com/none" "Failed to get PR details"
           Ado.no_options
           {| r_status := 404; r_statusText := "Not Found";
              r_body := EmptyString |});
    [reflexivity | reflexivity | reflexivity | right; reflexivity].
Defined.

Lemma caller_headers_override_witness :
  exists outcome sent,
    run (Sample.env "pr:active")
      (Ado.sendRequest (Ado.getBlobUrl Sample.baseUrl "n2")
         "Failed to download blob content"
         {| method := None; headers := Some [("Accept", "text/plain")];
            body := None |}) []
    = (outcome,
       [TokenRequested; Fetched (Ado.getBlobUrl Sample.baseUrl "n2") sent])
    /\ Js.get "Accept" (default [] (headers sent)) = Some "text/plain"
    /\ Js.get "Authorization" (default [] (headers sent))
       = Some "Basic OmFiYw==".
Proof.
  destruct (caller_headers_override (Sample.env "pr:active") []
              {| type := "pat"; token := Some "abc" |}
              (Ado.getBlobUrl Sample.baseUrl "n2")
              "Failed to download blob content"
              {| method := None; headers := Some [("Accept", "text/plain")];
                 body := None |} eq_refl eq_refl)
    as (outcome & sent & Hrun & Hget).
  - constructor; [intros []|constructor].
  - exists outcome, sent. split; [exact Hrun|].
    split; [exact (Hget "Accept") | exact (Hget "Authorization")].
Defined.

Lemma getFilePatch_downloads_in_order_witness :
  exists log',
    run (Sample.env "pr:active")
      (Ado.getFilePatch (imports:=Sample.imports)
         (Sample.gitItem "blob" "/a.txt" (Some "o1") (Some "n1"))
         Sample.baseUrl) []
    = (Ok {| filePath := Some "/a.txt";
             sourceContent := Some DotNet.abc;
             patch := Ado.createPatch (Imports:=Sample.imports)
                        (Some "/a.txt") DotNet.abc DotNet.axc |}, log')
    /\ length log' = 4%nat.
Proof.
  eexists. split.
  - apply (proj2 (getFilePatch_downloads_in_order (imports:=Sample.imports)
             (Sample.env "pr:active") []
             (Sample.gitItem "blob" "/a.txt" (Some "o1") (Some "n1"))
             Sample.baseUrl "o1" "n1"
             {| type := "pat"; token := Some "abc" |}
             {| r_status := 200; r_statusText := "OK"; r_body := DotNet.abc |}
             eq_refl ltac:(discriminate) eq_refl ltac:(discriminate)
             eq_refl eq_refl eq_refl)
           eq_refl {| type := "pat"; token := Some "abc" |}
           {| r_status := 200; r_statusText := "OK"; r_body := DotNet.axc |});
      reflexivity.
  - reflexivity.
Defined.

Lemma branch_resolution_witness :
  run (Scenarios.env Scenarios.pat "pr:empty-ref" "diffs" [])
    (Ado.getPrFileChanges (imports:=Scenarios.imports) Sample.schedule
       Sample.prUrl) []
  = (Err Ado.BranchResolutionFailed,
     [TokenRequested;
      Fetched Sample.prDetailsUrl
        (Spec.outgoing {| type := "pat"; token := Some "abc" |}
           Ado.no_options)])
  /\ exists outcome rest,
       run (Scenarios.env Scenarios.pat "pr:no-refs" "diffs" [])
         (Ado.getPrFileChanges (imports:=Scenarios.imports) Sample.schedule
            Sample.prUrl) []
       = (outcome,
          [TokenRequested;
           Fetched Sample.prDetailsUrl
             (Spec.outgoing {| type := "pat"; token := Some "abc" |}
                Ado.no_options)]
          ++ [TokenRequested;
              Fetched
                (Sample.baseUrl
                   +:+ "/diffs/commits?baseVersion=undefined"
                   +:+ "&targetVersion=undefined&$top=2000&api-version=7.1")
                (Spec.outgoing {| type := "pat"; token := Some "abc" |}
                   Ado.no_options)]
          ++ rest).
Proof.
  split.
  - apply (proj1 (branch_resolution (imports:=Scenarios.imports)
                    (Scenarios.env Scenarios.pat "pr:empty-ref" "diffs" [])
                    Sample.schedule Sample.prUrl [] Scenarios.prInfo
                    (Scenarios.pullRequest (Some "refs/heads/")
                       (Some "refs/heads/main"))
                    [TokenRequested;
                     Fetched Sample.prDetailsUrl
                       (Spec.outgoing {| type := "pat"; token := Some "abc" |}
                          Ado.no_options)]
                    eq_refl eq_refl)).
    left. right. reflexivity.
  - apply (proj2 (branch_resolution (imports:=Scenarios.imports)
                    (Scenarios.env Scenarios.pat "pr:no-refs" "diffs" [])
                    Sample.schedule Sample.prUrl [] Scenarios.prInfo
                    (Scenarios.pullRequest None None)
                    [TokenRequested;
                     Fetched Sample.prDetailsUrl
                       (Spec.outgoing {| type := "pat"; token := Some "abc" |}
                          Ado.no_options)]
                    eq_refl eq_refl)).
    + intros [[H|H]|[H|H]]; discriminate H.
    + reflexivity.
    + reflexivity.
Defined.

Lemma empty_change_sets_witness :
  (exists log',
      run (Scenarios.env Scenarios.pat "pr:active" "diffs:none" [])
        (Ado.getPrFileChanges (imports:=Scenarios.imports) Sample.schedule
           Sample.prUrl) []
      = (Err Ado.NoChangesFound, log')
      /\ length log' = 4%nat)
  /\ (exists log',
        run (Scenarios.env Scenarios.pat "pr:active" "diffs:ineligible" [])
          (Ado.getPrFileChanges (imports:=Scenarios.imports) Sample.schedule
             Sample.prUrl) []
        = (Err Ado.NoEligibleFiles, log')
        /\ length log' = 4%nat).
Proof.
  split; eexists; split.
  - apply (proj1 (empty_change_sets (imports:=Scenarios.imports)
                    (Scenarios.env Scenarios.pat "pr:active" "diffs:none" [])
                    Sample.schedule Sample.prUrl [] Scenarios.prInfo
                    (Scenarios.pullRequest (Some "refs/heads/feature/x")
                       (Some "refs/heads/main"))
                    []
                    (snd (run (Scenarios.env Scenarios.pat "pr:active"
                                 "diffs:none" [])
                            (Ado.getPrDetails (imports:=Scenarios.imports)
                               Sample.prDetailsUrl) []))
                    (snd (run (Scenarios.env Scenarios.pat "pr:active"
                                 "diffs:none" [])
                            (Ado.getGitChanges (imports:=Scenarios.imports)
                               Sample.diffsUrl)
                            [TokenRequested;
                             Fetched Sample.prDetailsUrl
                               (Spec.outgoing
                                  {| type := "pat"; token := Some "abc" |}
                                  Ado.no_options)]))
                    eq_refl ltac:(vm_compute; reflexivity)
                    ltac:(discriminate) ltac:(discriminate)
                    ltac:(vm_compute; reflexivity)) eq_refl).
  - vm_compute. reflexivity.
  - apply (proj2 (empty_change_sets (imports:=Scenarios.imports)
                    (Scenarios.env Scenarios.pat "pr:active"
                       "diffs:ineligible" [])
                    Sample.schedule Sample.prUrl [] Scenarios.prInfo
                    (Scenarios.pullRequest (Some "refs/heads/feature/x")
                       (Some "refs/heads/main"))
                    Scenarios.ineligible
                    (snd (run (Scenarios.env Scenarios.pat "pr:active"
                                 "diffs:ineligible" [])
                            (Ado.getPrDetails (imports:=Scenarios.imports)
                               Sample.prDetailsUrl) []))
                    (snd (run (Scenarios.env Scenarios.pat "pr:active"
                                 "diffs:ineligible" [])
                            (Ado.getGitChanges (imports:=Scenarios.imports)
                               Sample.diffsUrl)
                            [TokenRequested;
                             Fetched Sample.prDetailsUrl
                               (Spec.outgoing
                                  {| type := "pat"; token := Some "abc" |}
                                  Ado.no_options)]))
                    eq_refl ltac:(vm_compute; reflexivity)
                    ltac:(discriminate) ltac:(discriminate)
                    ltac:(vm_compute; reflexivity))
             ltac:(discriminate) eq_refl).
  - vm_compute. reflexivity.
Defined.

Lemma one_refused_blob_fails_all_witness :
  exists e log',
    run (Scenarios.env Scenarios.pat "pr:active" "diffs"
           [Ado.getBlobUrl Sample.baseUrl "n2"])
      (Ado.getPrFileChanges (imports:=Sample.imports) Sample.schedule
         Sample.prUrl) []
    = (Err e, log').
Proof.
  apply (one_refused_blob_fails_all (imports:=Sample.imports)
           (Scenarios.env Scenarios.pat "pr:active" "diffs"
              [Ado.getBlobUrl Sample.baseUrl "n2"])
           Sample.schedule Sample.prUrl [] Scenarios.prInfo
           (Sample.pullRequest "active" "succeeded") Sample.gitChanges
           (snd (run (Scenarios.env Scenarios.pat "pr:active" "diffs"
                        [Ado.getBlobUrl Sample.baseUrl "n2"])
                   (Ado.getPrDetails (imports:=Sample.imports)
                      Sample.prDetailsUrl) []))
           (snd (run (Scenarios.env Scenarios.pat "pr:active" "diffs"
                        [Ado.getBlobUrl Sample.baseUrl "n2"])
                   (Ado.getGitChanges (imports:=Sample.imports)
                      Sample.diffsUrl)
                   (snd (run (Scenarios.env Scenarios.pat "pr:active" "diffs"
                                [Ado.getBlobUrl Sample.baseUrl "n2"])
                           (Ado.getPrDetails (imports:=Sample.imports)
                              Sample.prDetailsUrl) []))))
           (Sample.gitItem "blob" "/b.txt" None (Some "n2")) "n2").
  - reflexivity.
  - vm_compute. reflexivity.
  - discriminate.
  - discriminate.
  - vm_compute. reflexivity.
  - right. left. reflexivity.
  - right. reflexivity.
  - discriminate.
  - intros log o. reflexivity.
Defined.

(* ===================================================================== *)
(** * Further properties: hunk headers of the C# writer *)
(* ===================================================================== *)

Section HunkHeaders.
Import DotNet Hunks.
Local Open Scope Z_scope.

Lemma wrap_small z : - 2 ^ 31 <= z < 2 ^ 31 -> wrap z = z.
Proof. intros Hz. unfold wrap. rewrite Z.mod_small; lia. Qed.

Lemma old_lines_cons p l :
  old_lines (p :: l) = (if on_old p then 1 else 0) + old_lines l.
Proof.
  unfold old_lines. simpl. destruct (on_old p); simpl length; lia.
Qed.

Lemma new_lines_cons p l :
  new_lines (p :: l) = (if on_new p then 1 else 0) + new_lines l.
Proof.
  unfold new_lines. simpl. destruct (on_new p); simpl length; lia.
Qed.

Lemma old_lines_bounds l : 0 <= old_lines l <= Z.of_nat (length l).
Proof.
  unfold old_lines. pose proof (List.filter_length_le on_old l). lia.
Qed.

Lemma new_lines_bounds l : 0 <= new_lines l <= Z.of_nat (length l).
Proof.
  unfold new_lines. pose proof (List.filter_length_le on_new l). lia.
Qed.

Lemma step_cursors st p :
  oldLineNumber (step st p)
  = (if on_old p then incr (oldLineNumber st) else oldLineNumber st)
  /\ newLineNumber (step st p)
     = (if on_new p then incr (newLineNumber st) else newLineNumber st).
Proof.
  unfold step, on_old, on_new. destruct (Type_ p); simpl; auto.
  destruct (0 <? length (hunkLines st))%nat; simpl; auto.
Qed.

Lemma fold_cursors pieces st :
  0 <= oldLineNumber st -> 0 <= newLineNumber st ->
  oldLineNumber st + Z.of_nat (length pieces) < 2 ^ 31 ->
  newLineNumber st + Z.of_nat (length pieces) < 2 ^ 31 ->
  oldLineNumber (fold_left step pieces st) = oldLineNumber st + old_lines pieces
  /\ newLineNumber (fold_left step pieces st)
     = newLineNumber st + new_lines pieces.
Proof.
  revert st. induction pieces as [|p pieces IH]; intros st Ho Hn Hob Hnb.
  - unfold old_lines, new_lines. simpl. lia.
  - cbn [fold_left]. rewrite old_lines_cons, new_lines_cons.
    destruct (step_cursors st p) as [Hso Hsn].
    cbn [length] in Hob, Hnb.
    assert (Hio : incr (oldLineNumber st) = oldLineNumber st + 1)
      by (apply wrap_small; lia).
    assert (Hin : incr (newLineNumber st) = newLineNumber st + 1)
      by (apply wrap_small; lia).
    rewrite Hio in Hso. rewrite Hin in Hsn.
    destruct (IH (step st p)) as [IHo IHn];
      rewrite ?Hso, ?Hsn; destruct (on_old p), (on_new p); lia.
Qed.

Lemma step_changed st p :
  changed p = true ->
  sb (step st p) = sb st
  /\ hunkLines (step st p) = hunkLines st ++ changed_lines p
  /\ changed_lines p <> []
  /\ hunkStart (step st p)
     = if (length (hunkLines st) =? 0)%nat
       then (if starts_inserted [p] then newLineNumber st else oldLineNumber st)
       else hunkStart st.
Proof.
  unfold changed, step, changed_lines, starts_inserted.
  destruct (Type_ p); intros Hc; try discriminate Hc; simpl;
    repeat split; try discriminate;
    destruct (length (hunkLines st) =? 0)%nat; reflexivity.
Qed.

Lemma fold_block block st :
  Forall (fun p => changed p = true) block ->
  sb (fold_left step block st) = sb st
  /\ hunkLines (fold_left step block st)
     = hunkLines st ++ flat_map changed_lines block
  /\ (block <> [] -> flat_map changed_lines block <> [])
  /\ (block <> [] -> hunkLines st = [] ->
      hunkStart (fold_left step block st)
      = if starts_inserted block then newLineNumber st else oldLineNumber st)
  /\ (hunkLines st <> [] ->
      hunkStart (fold_left step block st) = hunkStart st).
Proof.
  intros Hall. revert st.
  induction Hall as [|p block Hp _ IH]; intros st.
  - simpl. rewrite app_nil_r. repeat split; auto; contradiction.
  - cbn [fold_left flat_map].
    destruct (step_changed st p Hp) as (Hsb & Hlines & Hne & Hstart).
    destruct (IH (step st p)) as (IHsb & IHlines & _ & _ & IHstart).
    assert (Hpending : hunkLines (step st p) <> []).
    { rewrite Hlines. destruct (hunkLines st), (changed_lines p);
        try discriminate. contradiction. }
    rewrite IHsb, IHlines, Hsb, Hlines, <- app_assoc.
    repeat split.
    + intros _. destruct (changed_lines p); [contradiction|discriminate].
    + intros _ Hempty. rewrite (IHstart Hpending), Hstart, Hempty. reflexivity.
    + intros Hpend. rewrite (IHstart Hpending), Hstart.
      destruct (hunkLines st); [contradiction|reflexivity].
Qed.

Lemma step_unchanged st u :
  Type_ u = Unchanged ->
  hunkLines (step st u) = []
  /\ ((0 <? length (hunkLines st))%nat = true ->
      sb (step st u)
      = WriteHunk (sb st) (hunkStart st)
          (minus (oldLineNumber st) (hunkStart st))
          (minus (newLineNumber st) (hunkStart st)) (hunkLines st)).
Proof.
  intros Hu. unfold step. rewrite Hu.
  destruct (0 <? length (hunkLines st))%nat eqn:Hlen; simpl.
  - auto.
  - split; [|discriminate].
    destruct (hunkLines st); [reflexivity|discriminate].
Qed.

Lemma settled_pending pre st :
  settled pre -> hunkLines st = [] ->
  hunkLines (fold_left step pre st) = [].
Proof.
  intros [->|(pre' & u & -> & Hu)] Hst; [exact Hst|].
  rewrite fold_left_app. cbn [fold_left]. apply step_unchanged, Hu.
Qed.

Lemma step_sb st p : exists more, sb (step st p) = sb st ++ more.
Proof.
  unfold step. destruct (Type_ p); simpl;
    try (exists []; rewrite app_nil_r; reflexivity).
  destruct (0 <? length (hunkLines st))%nat; simpl.
  - unfold WriteHunk. eauto.
  - exists []. rewrite app_nil_r. reflexivity.
Qed.

Lemma finish_fold_sb pieces st :
  exists more, finish (fold_left step pieces st) = sb st ++ more.
Proof.
  revert st. induction pieces as [|p pieces IH]; intros st; cbn [fold_left].
  - unfold finish. destruct (0 <? length (hunkLines st))%nat.
    + unfold WriteHunk. eauto.
    + exists []. rewrite app_nil_r. reflexivity.
  - destruct (IH (step st p)) as [more Hmore].
    destruct (step_sb st p) as [more0 Hmore0].
    exists (more0 ++ more). rewrite Hmore, Hmore0, app_assoc. reflexivity.
Qed.

(** The hunk written for a run [block] of changed pieces that follows
    [pre] and is closed by [rest]. *)
Lemma hunk_at fileName pre block rest :
  settled pre -> block <> [] ->
  Forall (fun p => changed p = true) block ->
  closing rest ->
  Z.of_nat (length (pre ++ block ++ rest)) < 2 ^ 31 - 1 ->
  let o := 1 + old_lines pre in
  let n := 1 + new_lines pre in
  let s := if starts_inserted block then n else o in
  exists after,
    finish (fold_left step (pre ++ block ++ rest) (initial fileName))
    = sb (fold_left step pre (initial fileName))
        ++ render {| h_start := s;
                     h_oldCount := o + old_lines block - s;
                     h_newCount := n + new_lines block - s;
                     h_body := flat_map changed_lines block |}
        ++ after
    /\ (rest = [] -> after = []).
Proof.
  intros Hpre Hblock Hall Hrest Hlen o n s.
  rewrite !length_app in Hlen.
  pose proof (old_lines_bounds pre). pose proof (new_lines_bounds pre).
  pose proof (old_lines_bounds block). pose proof (new_lines_bounds block).
  rewrite !fold_left_app.
  set (st1 := fold_left step pre (initial fileName)).
  destruct (fold_cursors pre (initial fileName)) as [Ho1 Hn1];
    try (simpl; lia).
  fold st1 in Ho1, Hn1. simpl in Ho1, Hn1.
  assert (Hp1 : hunkLines st1 = []) by (apply settled_pending; auto).
  destruct (fold_block block st1 Hall)
    as (Hsb2 & Hlines2 & Hne2 & Hstart2 & _).
  specialize (Hne2 Hblock). specialize (Hstart2 Hblock Hp1).
  destruct (fold_cursors block st1) as [Ho2 Hn2]; try lia.
  set (st2 := fold_left step block st1) in *.
  rewrite Hp1 in Hlines2. cbn [app] in Hlines2.
  assert (Hs : hunkStart st2 = s).
  { rewrite Hstart2, Ho1, Hn1. reflexivity. }
  assert (Hpos : (0 <? length (hunkLines st2))%nat = true).
  { rewrite Hlines2. destruct (flat_map changed_lines block);
      [contradiction|reflexivity]. }
  assert (Hso : 1 <= s <= 1 + Z.of_nat (length pre)).
  { unfold s, o, n. destruct (starts_inserted block); lia. }
  assert (Hold : minus (oldLineNumber st2) (hunkStart st2)
                 = o + old_lines block - s).
  { rewrite Hs, Ho2, Ho1. unfold minus. apply wrap_small. unfold o. lia. }
  assert (Hnew : minus (newLineNumber st2) (hunkStart st2)
                 = n + new_lines block - s).
  { rewrite Hs, Hn2, Hn1. unfold minus. apply wrap_small. unfold n. lia. }
  destruct Hrest as [->|(u & rest' & -> & Hu)].
  - exists []. split; [|reflexivity]. cbn [fold_left]. unfold finish.
    rewrite Hpos, Hold, Hnew, Hs, Hsb2, Hlines2, WriteHunk_render.
    rewrite app_nil_r. reflexivity.
  - cbn [fold_left].
    destruct (finish_fold_sb rest' (step st2 u)) as [more Hmore].
    exists more. split; [|discriminate]. rewrite Hmore.
    rewrite (proj2 (step_unchanged st2 u Hu) Hpos).
    rewrite Hold, Hnew, Hs, Hsb2, Hlines2, WriteHunk_render, <- app_assoc.
    reflexivity.
Qed.

Variable BuildDiffModel : string -> string -> list DiffPiece.

(** X10.  The header of a hunk, in closed form.  For a model
    [pre ++ block ++ rest] of fewer than 2^31 - 1 pieces, where [pre] is
    empty or ends with an unchanged piece, [block] is a non-empty run of
    deleted, inserted and modified pieces and [rest] is empty or starts
    with an unchanged piece, the document holds, after the hunks of [pre],
    one hunk for [block] whose body is the lines of [block].  The start
    printed for both sides is the new-side cursor when [block] starts with
    an insertion and the old-side cursor otherwise, and the two counts are
    the cursors after the block minus that start.  When [pre] has as many
    old as new lines, the start is the line after [pre] and the counts
    are the old and new lines of [block]; when [pre] is unchanged lines
    only, the hunk follows the two header lines directly. *)
Theorem hunk_header fileName oldText newText pre block rest :
  BuildDiffModel oldText newText = pre ++ block ++ rest ->
  settled pre -> block <> [] ->
  Forall (fun p => changed p = true) block ->
  closing rest ->
  Z.of_nat (length (pre ++ block ++ rest)) < 2 ^ 31 - 1 ->
  let document :=
    GenerateUnifiedDiffLines BuildDiffModel fileName oldText newText in
  let body := flat_map changed_lines block in
  (exists hunks after,
      let o := 1 + old_lines pre in
      let n := 1 + new_lines pre in
      let s := if starts_inserted block then n else o in
      document
      = header fileName ++ flat_map render hunks
          ++ render {| h_start := s;
                       h_oldCount := o + old_lines block - s;
                       h_newCount := n + new_lines block - s;
                       h_body := body |}
          ++ after)
  /\ (old_lines pre = new_lines pre ->
      exists hunks after,
        document
        = header fileName ++ flat_map render hunks
            ++ render {| h_start := 1 + old_lines pre;
                         h_oldCount := old_lines block;
                         h_newCount := new_lines block;
                         h_body := body |}
            ++ after)
  /\ (Forall (fun p => Type_ p = Unchanged) pre ->
      exists after,
        document
        = header fileName
            ++ render {| h_start := 1 + Z.of_nat (length pre);
                         h_oldCount := old_lines block;
                         h_newCount := new_lines block;
                         h_body := body |}
            ++ after).
Proof.
  intros Hmodel Hpre Hblock Hall Hrest Hlen document body.
  destruct (hunk_at fileName pre block rest Hpre Hblock Hall Hrest Hlen)
    as (after & Hdoc & _). cbv zeta in Hdoc.
  assert (Hdocument : document
                      = finish (fold_left step (pre ++ block ++ rest)
                                  (initial fileName))).
  { unfold document, GenerateUnifiedDiffLines. rewrite Hmodel. reflexivity. }
  destruct (loop_inv_fold (header fileName) pre [] (initial fileName))
    as (hunks & Hsb & _).
  { exists []. split; [apply eq_sym, app_nil_r|].
    split; [reflexivity|constructor]. }
  split; [|split].
  - exists hunks, after. cbv zeta. rewrite Hdocument, Hdoc, Hsb, <- app_assoc.
    reflexivity.
  - intros Hbalanced. exists hunks, after.
    rewrite Hdocument, Hdoc, Hsb, <- app_assoc, <- Hbalanced.
    replace (if starts_inserted block then 1 + old_lines pre
             else 1 + old_lines pre) with (1 + old_lines pre)
      by (destruct (starts_inserted block); reflexivity).
    replace (1 + old_lines pre + old_lines block - (1 + old_lines pre))
      with (old_lines block) by lia.
    rewrite Hbalanced.
    replace (1 + new_lines pre + new_lines block - (1 + new_lines pre))
      with (new_lines block) by lia.
    rewrite <- Hbalanced. reflexivity.
  - intros Hunchanged. exists after.
    destruct (fold_unchanged pre (initial fileName) Hunchanged eq_refl)
      as [Hsb0 _].
    assert (Hcount : old_lines pre = Z.of_nat (length pre)
                     /\ new_lines pre = Z.of_nat (length pre)).
    { clear -Hunchanged. induction Hunchanged as [|p pre Hp _ [IHo IHn]].
      - split; reflexivity.
      - rewrite old_lines_cons, new_lines_cons, IHo, IHn.
        unfold on_old, on_new. rewrite Hp. cbn [length]. lia. }
    destruct Hcount as [Hco Hcn].
    rewrite Hdocument, Hdoc, Hsb0, Hco, Hcn. cbn [sb initial].
    replace (if starts_inserted block then 1 + Z.of_nat (length pre)
             else 1 + Z.of_nat (length pre)) with (1 + Z.of_nat (length pre))
      by (destruct (starts_inserted block); reflexivity).
    replace (1 + Z.of_nat (length pre) + old_lines block
             - (1 + Z.of_nat (length pre))) with (old_lines block) by lia.
    replace (1 + Z.of_nat (length pre) + new_lines block
             - (1 + Z.of_nat (length pre))) with (new_lines block) by lia.
    reflexivity.
Qed.

End HunkHeaders.

Section AddedAndDeletedFiles.
Import DotNet Hunks.
Local Open Scope Z_scope.
Variable BuildDiffModel : string -> string -> list DiffPiece.

Lemma inserted_lines lines :
  old_lines (map (piece Inserted) lines) = 0
  /\ new_lines (map (piece Inserted) lines) = Z.of_nat (length lines)
  /\ flat_map changed_lines (map (piece Inserted) lines)
     = map (fun t => "+" +:+ t) lines
  /\ Forall (fun p => changed p = true) (map (piece Inserted) lines).
Proof.
  induction lines as [|t lines (IHo & IHn & IHb & IHc)].
  - repeat split. constructor.
  - cbn [map]. rewrite old_lines_cons, new_lines_cons, IHo, IHn.
    cbn [flat_map map]. rewrite IHb.
    repeat split; [cbn [length]; unfold on_new; simpl; lia|].
    constructor; [reflexivity|exact IHc].
Qed.

Lemma deleted_lines lines :
  old_lines (map (piece Deleted) lines) = Z.of_nat (length lines)
  /\ new_lines (map (piece Deleted) lines) = 0
  /\ flat_map changed_lines (map (piece Deleted) lines)
     = map (fun t => "-" +:+ t) lines
  /\ Forall (fun p => changed p = true) (map (piece Deleted) lines).
Proof.
  induction lines as [|t lines (IHo & IHn & IHb & IHc)].
  - repeat split. constructor.
  - cbn [map]. rewrite old_lines_cons, new_lines_cons, IHo, IHn.
    cbn [flat_map map]. rewrite IHb.
    repeat split; [cbn [length]; unfold on_old; simpl; lia|].
    constructor; [reflexivity|exact IHc].
Qed.

(** X11.  Added and deleted files.  When the differ reports inserted
    lines only, the document is the two header lines, the hunk header
    [@@ -1,0 +1,n @@] for the [n] lines, and the lines with a [+] in front;
    when it reports deleted lines only, the hunk header is
    [@@ -1,n +1,0 @@] and the lines have a [-] in front. *)
Theorem added_and_deleted_files fileName oldText newText lines :
  lines <> [] ->
  Z.of_nat (length lines) < 2 ^ 31 - 1 ->
  (BuildDiffModel oldText newText = map (piece Inserted) lines ->
   GenerateUnifiedDiffLines BuildDiffModel fileName oldText newText
   = ["--- a/" +:+ fileName; "+++ b/" +:+ fileName;
      "@@ -1,0 +1," +:+ string_of_int (Z.of_nat (length lines)) +:+ " @@"]
     ++ map (fun t => "+" +:+ t) lines)
  /\ (BuildDiffModel oldText newText = map (piece Deleted) lines ->
      GenerateUnifiedDiffLines BuildDiffModel fileName oldText newText
      = ["--- a/" +:+ fileName; "+++ b/" +:+ fileName;
         "@@ -1," +:+ string_of_int (Z.of_nat (length lines)) +:+ " +1,0 @@"]
        ++ map (fun t => "-" +:+ t) lines).
Proof.
  intros Hne Hlen.
  assert (Hdoc : forall block,
    BuildDiffModel oldText newText = block -> block <> [] ->
    length block = length lines ->
    Forall (fun p => changed p = true) block ->
    GenerateUnifiedDiffLines BuildDiffModel fileName oldText newText
    = header fileName
        ++ render {| h_start := if starts_inserted block
                                then 1 + new_lines [] else 1 + old_lines [];
                     h_oldCount :=
                       1 + old_lines [] + old_lines block
                       - (if starts_inserted block
                          then 1 + new_lines [] else 1 + old_lines []);
                     h_newCount :=
                       1 + new_lines [] + new_lines block
                       - (if starts_inserted block
                          then 1 + new_lines [] else 1 + old_lines []);
                     h_body := flat_map changed_lines block |}).
  { intros block Hmodel Hblock Hsame Hall.
    destruct (hunk_at fileName [] block [] (or_introl eq_refl) Hblock Hall
                (or_introl eq_refl)) as (after & Hhunk & Hafter).
    { cbn [app]. rewrite app_nil_r, Hsame. exact Hlen. }
    rewrite (Hafter eq_refl), app_nil_r in Hhunk. cbn [app] in Hhunk.
    rewrite app_nil_r in Hhunk.
    unfold GenerateUnifiedDiffLines. rewrite Hmodel. exact Hhunk. }
  split; intros Hmodel.
  - destruct (inserted_lines lines) as (Ho & Hn & Hb & Hc).
    rewrite (Hdoc _ Hmodel); [| |apply length_map|exact Hc].
    + rewrite Ho, Hn, Hb. destruct lines as [|t lines]; [contradiction|].
      cbn [map starts_inserted piece Type_].
      replace (1 + new_lines [] + Z.of_nat (length (t :: lines))
               - (1 + new_lines [])) with (Z.of_nat (length (t :: lines)))
        by (unfold new_lines; simpl; lia).
      reflexivity.
    + destruct lines; [contradiction|discriminate].
  - destruct (deleted_lines lines) as (Ho & Hn & Hb & Hc).
    rewrite (Hdoc _ Hmodel); [| |apply length_map|exact Hc].
    + rewrite Ho, Hn, Hb. destruct lines as [|t lines]; [contradiction|].
      cbn [map starts_inserted piece Type_].
      replace (1 + old_lines [] + Z.of_nat (length (t :: lines))
               - (1 + old_lines [])) with (Z.of_nat (length (t :: lines)))
        by (unfold old_lines; simpl; lia).
      reflexivity.
    + destruct lines; [contradiction|discriminate].
Qed.

End AddedAndDeletedFiles.

Lemma hunk_header_witness :
  exists after,
    DotNet.GenerateUnifiedDiffLines DotNet.inlineDiff "src/app.ts"
      DotNet.abc DotNet.axc
    = DotNet.header "src/app.ts"
        ++ DotNet.render {| DotNet.h_start := 2; DotNet.h_oldCount := 1;
                            DotNet.h_newCount := 1;
                            DotNet.h_body := ["-b"; "+x"] |}
        ++ after.
Proof.
  apply (proj2 (proj2 (hunk_header DotNet.inlineDiff "src/app.ts"
                         DotNet.abc DotNet.axc
                         [DotNet.piece DotNet.Unchanged "a"]
                         [DotNet.piece DotNet.Deleted "b";
                          DotNet.piece DotNet.Inserted "x"]
                         [DotNet.piece DotNet.Unchanged "c";
                          DotNet.piece DotNet.Unchanged EmptyString]
                         eq_refl
                         (or_intror
                            (ex_intro _ []
                               (ex_intro _ (DotNet.piece DotNet.Unchanged "a")
                                  (conj eq_refl eq_refl))))
                         ltac:(discriminate)
                         ltac:(repeat constructor)
                         (or_intror
                            (ex_intro _ (DotNet.piece DotNet.Unchanged "c")
                               (ex_intro _
                                  [DotNet.piece DotNet.Unchanged EmptyString]
                                  (conj eq_refl eq_refl))))
                         eq_refl))).
  repeat constructor.
Defined.

Lemma added_and_deleted_files_witness :
  DotNet.GenerateUnifiedDiffLines
    (fun _ _ => map (DotNet.piece DotNet.Inserted) ["a"; "b"])
    "new.txt" EmptyString "ab"
  = ["--- a/new.txt"; "+++ b/new.txt"; "@@ -1,0 +1,2 @@"; "+a"; "+b"].
Proof.
  apply (proj1 (added_and_deleted_files
                  (fun _ _ => map (DotNet.piece DotNet.Inserted) ["a"; "b"])
                  "new.txt" EmptyString "ab" ["a"; "b"]
                  ltac:(discriminate) eq_refl)).
  reflexivity.
Defined.

(* ===================================================================== *)
(** * Further properties: the C# port *)
(* ===================================================================== *)

Lemma Equals_OrdinalIgnoreCase_refl a :
  DotNetPort.Equals_OrdinalIgnoreCase a a = true.
Proof.
  induction a as [|x a IH]; [reflexivity|].
  simpl. rewrite Ascii.eqb_refl. exact IH.
Qed.

Lemma IsNullOrEmpty_truthy o :
  DotNetPort.IsNullOrEmpty o = negb (Js.truthy o).
Proof.
  destruct o as [s|]; [|reflexivity]. simpl.
  destruct (String.eqb s EmptyString); reflexivity.
Qed.

Lemma IsNullOrEmpty_false o :
  DotNetPort.IsNullOrEmpty o = false
  <-> exists s, o = Some s /\ s <> EmptyString.
Proof.
  destruct o as [s|]; simpl.
  - destruct (String.eqb_spec s EmptyString) as [->|Hne]; split.
    + discriminate.
    + intros (s' & [= <-] & Hne). contradiction.
    + eauto.
    + reflexivity.
  - split; [discriminate|]. intros (s & H & _). discriminate.
Qed.

(** X12.  The eligibility filter of the C# port against the one of the
    TypeScript helper.  An entry the helper accepts is accepted by the
    port when its path and url are not empty; an entry the port accepts has
    a non-empty path and url, and is accepted by the helper once its change
    type and object type are written as the helper spells them, [add] or
    [edit] and [blob], which they equal up to letter case.  The port
    accepts [Edit] on a [Blob], which the helper rejects; the helper
    accepts an empty path, which the port rejects. *)
Theorem IsSupportedChange_port :
  (forall change,
     Ado.isSupportedChange change = true ->
     path (item change) <> Some EmptyString ->
     url (item change) <> Some EmptyString ->
     DotNetPort.IsSupportedChange change = true)
  /\ (forall change,
        DotNetPort.IsSupportedChange change = true ->
        (exists p, path (item change) = Some p /\ p <> EmptyString)
        /\ (exists u, url (item change) = Some u /\ u <> EmptyString)
        /\ exists ct,
             DotNetPort.Equals_OrdinalIgnoreCase ct (changeType change) = true
             /\ DotNetPort.Equals_OrdinalIgnoreCase
                  (gitObjectType (item change)) "blob" = true
             /\ Ado.isSupportedChange
                  {| item :=
                       {| objectId := objectId (item change);
                          originalObjectId := originalObjectId (item change);
                          gitObjectType := "blob";
                          commitId := commitId (item change);
                          path := path (item change);
                          isFolder := isFolder (item change);
                          url := url (item change) |};
                     changeType := ct |} = true)
  /\ (forall item0,
        gitObjectType item0 = "Blob" ->
        (exists p, path item0 = Some p /\ p <> EmptyString) ->
        (exists u, url item0 = Some u /\ u <> EmptyString) ->
        DotNetPort.IsSupportedChange {| item := item0; changeType := "Edit" |}
        = true
        /\ Ado.isSupportedChange {| item := item0; changeType := "Edit" |}
           = false)
  /\ (forall change,
        Ado.isSupportedChange change = true ->
        path (item change) = Some EmptyString ->
        DotNetPort.IsSupportedChange change = false).
Proof.
  split; [|split; [|split]].
  - intros change Hts Hpath Hurl.
    apply isSupportedChange_spec in Hts as (Hct & Hty & [p Hp] & [u Hu]).
    unfold DotNetPort.IsSupportedChange.
    rewrite Hty, Hp, Hu in *. simpl.
    destruct (String.eqb_spec p EmptyString) as [->|_]; [contradiction|].
    destruct (String.eqb_spec u EmptyString) as [->|_]; [contradiction|].
    destruct Hct as [-> | ->]; reflexivity.
  - intros change Hcs. unfold DotNetPort.IsSupportedChange in Hcs.
    apply andb_true_iff in Hcs as [Hcs Hurl].
    apply andb_true_iff in Hcs as [Hcs Hpath].
    apply andb_true_iff in Hcs as [Hct Hty].
    apply negb_true_iff, IsNullOrEmpty_false in Hurl, Hpath.
    split; [exact Hpath|]. split; [exact Hurl|].
    destruct Hpath as (p & Hp & _). destruct Hurl as (u & Hu & _).
    apply existsb_exists in Hct as (ct & Hin & Hct).
    exists ct. split; [exact Hct|]. split; [exact Hty|].
    apply isSupportedChange_spec. simpl. rewrite Hp, Hu.
    repeat split; eauto.
    destruct Hin as [<-|[<-|[]]]; auto.
  - intros item0 Hty (p & Hp & Hpne) (u & Hu & Hune).
    unfold DotNetPort.IsSupportedChange, Ado.isSupportedChange. simpl.
    rewrite Hty, Hp, Hu. simpl.
    destruct (String.eqb_spec p EmptyString) as [->|_]; [contradiction|].
    destruct (String.eqb_spec u EmptyString) as [->|_]; [contradiction|].
    split; reflexivity.
  - intros change _ Hpath. unfold DotNetPort.IsSupportedChange.
    rewrite Hpath. simpl. rewrite andb_false_r. reflexivity.
Qed.

Lemma ASCII_GetBytes_ascii s :
  Js.all_chars (fun c => (Js.code c <? 128)%N) s = true ->
  DotNetPort.ASCII_GetBytes s = s.
Proof.
  induction s as [|c s IH]; [reflexivity|]. cbn [Js.all_chars].
  intros [Hc Hs]%andb_true_iff. cbn [DotNetPort.ASCII_GetBytes].
  rewrite Hc, IH by assumption. reflexivity.
Qed.

(** X13.  The port's default headers against the helper's.  For a
    credential whose token is not empty and has only characters below 128,
    [GetDefaultHeadersAsync] and [getDefaultHeaders] return the same three
    headers; for a credential without a token both fail after the token
    request, each with its own message. *)
Theorem port_default_headers env log auth :
  env_tokenProvider env log = Ok auth ->
  (forall tok,
     token auth = Some tok -> tok <> EmptyString ->
     Js.all_chars (fun c => (Js.code c <? 128)%N) tok = true ->
     run env DotNetPort.GetDefaultHeadersAsync log
     = (Ok (Spec.defaultHeaders auth), log ++ [TokenRequested])
     /\ run env Ado.getDefaultHeaders log
        = (Ok (Spec.defaultHeaders auth), log ++ [TokenRequested]))
  /\ (Js.truthy (token auth) = false ->
      run env DotNetPort.GetDefaultHeadersAsync log
      = (Err (JsError "Azure DevOps authentication token is not available."),
         log ++ [TokenRequested])
      /\ run env Ado.getDefaultHeaders log
         = (Err (JsError "Azure DevOps PAT is not set in environment variables."),
            log ++ [TokenRequested])).
Proof.
  intros Htok. split.
  - intros tok Htoken Hne Hascii.
    assert (Htruthy : Js.truthy (token auth) = true)
      by (rewrite Htoken; apply truthy_Some, Hne).
    split; [|apply run_getDefaultHeaders; assumption].
    unfold DotNetPort.GetDefaultHeadersAsync, tokenProvider.
    rewrite run_mbind. simpl. rewrite Htok. simpl.
    rewrite IsNullOrEmpty_truthy, Htruthy. simpl.
    unfold Spec.defaultHeaders, DotNetPort.authorization, Spec.authorization,
      Spec.kind_of.
    rewrite Htoken. cbn [default from_option id].
    destruct (String.eqb (type auth) "pat"); [|reflexivity].
    rewrite ASCII_GetBytes_ascii; [reflexivity|].
    rewrite all_chars_app, Hascii. reflexivity.
  - intros Hfalsy. split.
    + unfold DotNetPort.GetDefaultHeadersAsync, tokenProvider.
      rewrite run_mbind. simpl. rewrite Htok. simpl.
      rewrite IsNullOrEmpty_truthy, Hfalsy. reflexivity.
    + apply run_getDefaultHeaders_Err. rewrite Htok. simpl.
      rewrite Hfalsy. reflexivity.
Qed.

Lemma run_GetBlobContentAsync env log auth url :
  env_tokenProvider env log = Ok auth ->
  DotNetPort.IsNullOrEmpty (token auth) = false ->
  run env (DotNetPort.GetBlobContentAsync url) log
  = let log' :=
      log ++ [TokenRequested; Fetched url (DotNetPort.blobRequest auth)] in
    match env_fetch env (log ++ [TokenRequested]) url
            (DotNetPort.blobRequest auth) with
    | Ok r => (Ok (DotNetPort.content r), log')
    | Err e => (Err e, log')
    end.
Proof.
  intros Htok Htoken. unfold DotNetPort.GetBlobContentAsync.
  rewrite run_mbind. unfold DotNetPort.GetDefaultHeadersAsync, tokenProvider.
  rewrite run_mbind. simpl. rewrite Htok. simpl. rewrite Htoken. simpl.
  fold (DotNetPort.blobRequest auth). rewrite <- app_assoc. simpl.
  destruct (env_fetch _ _ _ _) as [r|e]; simpl; [|reflexivity].
  unfold DotNetPort.content. destruct (ok r); reflexivity.
Qed.

Section PortPatch.
Variable BuildDiffModel : string -> string -> list DotNet.DiffPiece.
Variable NewLine : string.

(** X14.  The per-file task of the port does not fail on a refused
    download.  For a file item with both blob ids, a token provider that
    grants a token and a service that answers the two requests, whatever
    the two statuses are, [GetFilePatchAsync] returns a patch: the text of
    a blob whose answer is outside 200-299 is taken to be absent, so the
    patch is computed against the empty text and [sourceContent] is
    missing. *)
Theorem GetFilePatchAsync_takes_refusal_as_empty env log f baseUrl old new
    auth1 auth2 r1 r2 :
  originalObjectId f = Some old -> old <> EmptyString ->
  objectId f = Some new -> new <> EmptyString ->
  env_tokenProvider env log = Ok auth1 ->
  DotNetPort.IsNullOrEmpty (token auth1) = false ->
  let first :=
    Fetched (Ado.getBlobUrl baseUrl old) (DotNetPort.blobRequest auth1) in
  env_fetch env (log ++ [TokenRequested]) (Ado.getBlobUrl baseUrl old)
    (DotNetPort.blobRequest auth1) = Ok r1 ->
  env_tokenProvider env (log ++ [TokenRequested; first]) = Ok auth2 ->
  DotNetPort.IsNullOrEmpty (token auth2) = false ->
  env_fetch env (log ++ [TokenRequested; first; TokenRequested])
    (Ado.getBlobUrl baseUrl new) (DotNetPort.blobRequest auth2) = Ok r2 ->
  run env (DotNetPort.GetFilePatchAsync BuildDiffModel NewLine f baseUrl) log
  = (Ok {| filePath := path f;
           sourceContent := DotNetPort.content r1;
           patch :=
             DotNet.GenerateUnifiedDiff BuildDiffModel NewLine
               (default EmptyString (path f))
               (default EmptyString (DotNetPort.content r1))
               (default EmptyString (DotNetPort.content r2)) |},
     log ++ [TokenRequested; first; TokenRequested;
             Fetched (Ado.getBlobUrl baseUrl new)
               (DotNetPort.blobRequest auth2)])
  /\ (ok r1 = false -> ok r2 = false ->
      run env (DotNetPort.GetFilePatchAsync BuildDiffModel NewLine f baseUrl)
        log
      = (Ok {| filePath := path f;
               sourceContent := None;
               patch :=
                 DotNet.GenerateUnifiedDiff BuildDiffModel NewLine
                   (default EmptyString (path f)) EmptyString EmptyString |},
         log ++ [TokenRequested; first; TokenRequested;
                 Fetched (Ado.getBlobUrl baseUrl new)
                   (DotNetPort.blobRequest auth2)])).
Proof.
  intros Hold Holdne Hnew Hnewne Htok1 Htoken1 first Hfetch1 Htok2 Htoken2
    Hfetch2.
  assert (Hrun :
    run env (DotNetPort.GetFilePatchAsync BuildDiffModel NewLine f baseUrl) log
    = (Ok {| filePath := path f;
             sourceContent := DotNetPort.content r1;
             patch :=
               DotNet.GenerateUnifiedDiff BuildDiffModel NewLine
                 (default EmptyString (path f))
                 (default EmptyString (DotNetPort.content r1))
                 (default EmptyString (DotNetPort.content r2)) |},
       log ++ [TokenRequested; first; TokenRequested;
               Fetched (Ado.getBlobUrl baseUrl new)
                 (DotNetPort.blobRequest auth2)])).
  { unfold DotNetPort.GetFilePatchAsync. cbv zeta.
    assert (Hne : forall s, s <> EmptyString ->
                            DotNetPort.IsNullOrEmpty (Some s) = false).
    { intros s Hs. apply IsNullOrEmpty_false. eauto. }
    rewrite Hold, Hnew, !Hne by assumption. cbn [negb].
    change (default EmptyString (Some old)) with old.
    change (default EmptyString (Some new)) with new.
    rewrite run_mbind, (run_GetBlobContentAsync _ _ auth1) by assumption.
    cbv zeta. rewrite Hfetch1. fold first.
    rewrite run_mbind, (run_GetBlobContentAsync _ _ auth2) by assumption.
    cbv zeta. rewrite <- !app_assoc. cbn [app]. rewrite Hfetch2.
    reflexivity. }
  split; [exact Hrun|].
  intros Hok1 Hok2. rewrite Hrun. unfold DotNetPort.content.
  rewrite Hok1, Hok2. reflexivity.
Qed.

End PortPatch.

Lemma port_default_headers_witness :
  run (Sample.env "pr:active") DotNetPort.GetDefaultHeadersAsync []
  = (Ok (Spec.defaultHeaders {| type := "pat"; token := Some "abc" |}),
     [TokenRequested])
  /\ run (Scenarios.env Scenarios.no_token "pr:active" "diffs" [])
       DotNetPort.GetDefaultHeadersAsync []
     = (Err (JsError "Azure DevOps authentication token is not available."),
        [TokenRequested]).
Proof.
  split.
  - exact (proj1 (proj1 (port_default_headers (Sample.env "pr:active") []
                           {| type := "pat"; token := Some "abc" |} eq_refl)
                    "abc" eq_refl ltac:(discriminate) eq_refl)).
  - exact (proj1 (proj2 (port_default_headers
                           (Scenarios.env Scenarios.no_token "pr:active"
                              "diffs" []) []
                           {| type := "pat"; token := None |} eq_refl)
                    eq_refl)).
Defined.

Lemma GetFilePatchAsync_takes_refusal_as_empty_witness :
  exists log',
    run (Scenarios.env Scenarios.pat "pr:active" "diffs"
           [Ado.getBlobUrl Sample.baseUrl "o1"])
      (DotNetPort.GetFilePatchAsync DotNet.inlineDiff DotNet.LF
         (Sample.gitItem "blob" "/a.txt" (Some "o1") (Some "n1"))
         Sample.baseUrl) []
    = (Ok {| filePath := Some "/a.txt";
             sourceContent := None;
             patch := DotNet.GenerateUnifiedDiff DotNet.inlineDiff DotNet.LF
                        "/a.txt" EmptyString DotNet.axc |}, log')
    /\ length log' = 4%nat.
Proof.
  eexists. split.
  - exact (proj1 (GetFilePatchAsync_takes_refusal_as_empty
                    DotNet.inlineDiff DotNet.LF
                    (Scenarios.env Scenarios.pat "pr:active" "diffs"
                       [Ado.getBlobUrl Sample.baseUrl "o1"]) []
                    (Sample.gitItem "blob" "/a.txt" (Some "o1") (Some "n1"))
                    Sample.baseUrl "o1" "n1"
                    {| type := "pat"; token := Some "abc" |}
                    {| type := "pat"; token := Some "abc" |}
                    {| r_status := 404; r_statusText := "Not Found";
                       r_body := EmptyString |}
                    {| r_status := 200; r_statusText := "OK";
                       r_body := DotNet.axc |}
                    eq_refl ltac:(discriminate) eq_refl ltac:(discriminate)
                    eq_refl eq_refl eq_refl eq_refl eq_refl eq_refl)).
  - reflexivity.
Defined.

(* ===================================================================== *)
(** * Further properties: the token providers *)
(* ===================================================================== *)

Lemma checked_Ok r t :
  Auth.checked r = Ok t -> t = Auth.accessToken r /\ t <> EmptyString.
Proof.
  unfold Auth.checked. simpl.
  destruct (String.eqb_spec (Auth.accessToken r) EmptyString) as [Heq|Hne];
    simpl; [discriminate|].
  intros [= <-]. auto.
Qed.

Lemma checked_nonempty r :
  Auth.accessToken r <> EmptyString -> Auth.checked r = Ok (Auth.accessToken r).
Proof.
  intros Hne. unfold Auth.checked. simpl.
  destruct (String.eqb_spec (Auth.accessToken r) EmptyString);
    [contradiction|reflexivity].
Qed.

Lemma getToken_Ok app this calls t this' calls' :
  Auth.getToken app this calls = (Ok t, this', calls') -> t <> EmptyString.
Proof.
  unfold Auth.getToken.
  destruct (Auth.accountId this) as [a|];
    [destruct (Auth.acquireTokenSilent app calls a) as [r|e]|];
    try (destruct (Auth.acquireTokenInteractive app _) as [r|e']);
    intros [= Hchecked _ _]; apply (checked_Ok r t Hchecked).
Qed.

(** X15.  What a call of [getToken] can do.  A token it returns is never
    empty.  It calls the application once or twice: an interactive
    acquisition alone when no account is cached, otherwise a silent
    acquisition for the cached account, followed by an interactive one
    exactly when the silent one was rejected; the rejection of the silent
    acquisition is not reported.  The cached account is replaced only by
    the account of a successful interactive acquisition. *)
Theorem getToken_silent_first app this calls outcome this' calls' :
  Auth.getToken app this calls = (outcome, this', calls') ->
  (forall token, outcome = Ok token -> token <> EmptyString)
  /\ match Auth.accountId this with
     | None => calls' = calls ++ [Auth.AcquireTokenInteractive]
     | Some a =>
         match Auth.acquireTokenSilent app calls a with
         | Ok r =>
             calls' = calls ++ [Auth.AcquireTokenSilent a]
             /\ outcome = Auth.checked r
         | Err _ =>
             calls' = calls ++ [Auth.AcquireTokenSilent a;
                                Auth.AcquireTokenInteractive]
             /\ outcome
                = match Auth.acquireTokenInteractive app
                          (calls ++ [Auth.AcquireTokenSilent a]) with
                  | Ok r => Auth.checked r
                  | Err e => Err e
                  end
         end
     end
  /\ (this' = this
      \/ exists before r,
           calls' = before ++ [Auth.AcquireTokenInteractive]
           /\ Auth.acquireTokenInteractive app before = Ok r
           /\ this' = {| Auth.accountId := Auth.account r |}).
Proof.
  unfold Auth.getToken.
  assert (Hinter : forall calls0 outcome0 this0 calls0',
    match Auth.acquireTokenInteractive app calls0 with
    | Ok authResult =>
        (Auth.checked authResult,
         {| Auth.accountId := Auth.account authResult |},
         calls0 ++ [Auth.AcquireTokenInteractive])
    | Err e => (Err e, this, calls0 ++ [Auth.AcquireTokenInteractive])
    end = (outcome0, this0, calls0') ->
    (forall token, outcome0 = Ok token -> token <> EmptyString)
    /\ calls0' = calls0 ++ [Auth.AcquireTokenInteractive]
    /\ outcome0 = match Auth.acquireTokenInteractive app calls0 with
                  | Ok r => Auth.checked r
                  | Err e => Err e
                  end
    /\ (this0 = this
        \/ exists before r,
             calls0' = before ++ [Auth.AcquireTokenInteractive]
             /\ Auth.acquireTokenInteractive app before = Ok r
             /\ this0 = {| Auth.accountId := Auth.account r |})).
  { intros calls0 outcome0 this0 calls0'.
    destruct (Auth.acquireTokenInteractive app calls0) as [r|e] eqn:Hi;
      intros [= <- <- <-].
    - split; [intros t Ht; apply (checked_Ok r t Ht)|].
      repeat split. right. exists calls0, r. auto.
    - split; [discriminate|]. repeat split. left. reflexivity. }
  destruct (Auth.accountId this) as [a|].
  - destruct (Auth.acquireTokenSilent app calls a) as [r|e].
    + intros [= <- <- <-].
      split; [intros t Ht; apply (checked_Ok r t Ht)|]. auto.
    + intros Hrun. apply Hinter in Hrun as (Htoken & -> & -> & Hthis).
      rewrite <- app_assoc. cbn [List.app].
      split; [exact Htoken|]. split; [split; reflexivity|].
      destruct Hthis as [Hthis|(before & r & Hbefore & Hr & Hthis)];
        [left; exact Hthis|].
      right. exists before, r. rewrite <- app_assoc in Hbefore. auto.
  - intros Hrun. apply Hinter in Hrun as (Htoken & -> & -> & Hthis). auto.
Qed.

(** X16.  One sign-in.  When the interactive acquisition yields a
    non-empty token and an account, the first [getToken] of a new
    authenticator returns that token after the interactive call alone and
    caches the account.  On the next call a successful silent acquisition
    for that account is returned without any interactive call and the
    cached account is kept; a rejected one is followed by an interactive
    acquisition whose result is returned. *)
Theorem getToken_caches_account app r1 a :
  Auth.acquireTokenInteractive app [] = Ok r1 ->
  Auth.accessToken r1 <> EmptyString ->
  Auth.account r1 = Some a ->
  let this1 := {| Auth.accountId := Some a |} in
  let calls1 := [Auth.AcquireTokenInteractive] in
  Auth.getToken app Auth.new_OAuthAuthenticator []
  = (Ok (Auth.accessToken r1), this1, calls1)
  /\ (forall r2,
        Auth.acquireTokenSilent app calls1 a = Ok r2 ->
        Auth.accessToken r2 <> EmptyString ->
        Auth.getToken app this1 calls1
        = (Ok (Auth.accessToken r2), this1,
           [Auth.AcquireTokenInteractive; Auth.AcquireTokenSilent a]))
  /\ (forall e r2,
        Auth.acquireTokenSilent app calls1 a = Err e ->
        Auth.acquireTokenInteractive app
          [Auth.AcquireTokenInteractive; Auth.AcquireTokenSilent a] = Ok r2 ->
        Auth.accessToken r2 <> EmptyString ->
        Auth.getToken app this1 calls1
        = (Ok (Auth.accessToken r2),
           {| Auth.accountId := Auth.account r2 |},
           [Auth.AcquireTokenInteractive; Auth.AcquireTokenSilent a;
            Auth.AcquireTokenInteractive])).
Proof.
  intros Hfirst Htoken1 Haccount this1 calls1. split; [|split].
  - unfold Auth.getToken. simpl. rewrite Hfirst, Haccount.
    rewrite checked_nonempty by assumption. reflexivity.
  - intros r2 Hsilent Htoken2. unfold Auth.getToken. simpl.
    fold calls1. rewrite Hsilent. rewrite checked_nonempty by assumption.
    reflexivity.
  - intros e r2 Hsilent Hsecond Htoken2. unfold Auth.getToken. simpl.
    fold calls1. rewrite Hsilent. unfold calls1. simpl. rewrite Hsecond.
    rewrite checked_nonempty by assumption. reflexivity.
Qed.

(** X17.  [createAuthenticator].  For the type ["pat"] it throws when the
    environment variable is not set or empty, and otherwise returns a
    provider that yields the variable's value as a ["pat"] credential on
    every call, without calling the application and without changing the
    authenticator.  For every other type, an absent one and ["PAT"]
    included, it returns the interactive provider, whatever the
    environment variable holds. *)
Theorem createAuthenticator_spec :
  (forall AZURE_DEVOPS_PAT,
     Auth.createAuthenticator (Some "pat") AZURE_DEVOPS_PAT
     = Err Auth.PatNotFound
     <-> AZURE_DEVOPS_PAT = None \/ AZURE_DEVOPS_PAT = Some EmptyString)
  /\ (forall pat,
        pat <> EmptyString ->
        Auth.createAuthenticator (Some "pat") (Some pat)
        = Ok (Auth.PatProvider pat)
        /\ forall app this calls,
             Auth.invoke app (Auth.PatProvider pat) this calls
             = (Ok {| type := "pat"; token := Some pat |}, this, calls))
  /\ (forall type AZURE_DEVOPS_PAT,
        type <> Some "pat" ->
        Auth.createAuthenticator type AZURE_DEVOPS_PAT
        = Ok Auth.InteractiveProvider)
  /\ Auth.createAuthenticator (Some "PAT") None = Ok Auth.InteractiveProvider
  /\ Auth.createAuthenticator None None = Ok Auth.InteractiveProvider.
Proof.
  split; [|split; [|split; [|split; reflexivity]]].
  - intros [pat|]; unfold Auth.createAuthenticator; simpl.
    + rewrite or_empty_Some. simpl.
      destruct (String.eqb_spec pat EmptyString) as [->|Hne]; simpl; split;
        auto; try discriminate.
      intros [H|[= H]]; [discriminate|contradiction].
    + split; auto.
  - intros pat Hne. split; [|reflexivity].
    unfold Auth.createAuthenticator. simpl. rewrite or_empty_Some.
    destruct (String.eqb_spec pat EmptyString); [contradiction|reflexivity].
  - intros type0 pat Hne. unfold Auth.createAuthenticator.
    rewrite bool_decide_eq_false_2 by assumption. reflexivity.
Qed.

Lemma createAuthenticator_PatProvider type0 variable pat :
  Auth.createAuthenticator type0 variable = Ok (Auth.PatProvider pat) ->
  Js.truthy (Some pat) = true.
Proof.
  unfold Auth.createAuthenticator.
  destruct (bool_decide (type0 = Some "pat")); [|discriminate].
  destruct (Js.truthy (Some (Js.or_empty variable))) eqn:Htruthy; simpl;
    [|discriminate].
  intros [= <-]. exact Htruthy.
Qed.

Lemma invoke_Ok app type0 variable provider this calls auth this' calls' :
  Auth.createAuthenticator type0 variable = Ok provider ->
  Auth.invoke app provider this calls = (Ok auth, this', calls') ->
  Js.truthy (token auth) = true
  /\ (type auth = "pat" \/ type auth = "interactive").
Proof.
  intros Hcreate. destruct provider as [pat|]; simpl.
  - intros [= <- <- <-]. simpl. split; [|auto].
    eapply createAuthenticator_PatProvider, Hcreate.
  - destruct (Auth.getToken app this calls) as [[[t|e] this0] calls0] eqn:Hget;
      [|discriminate].
    intros [= <- <- <-]. split; [|auto].
    simpl. apply truthy_Some. eapply getToken_Ok, Hget.
Qed.

Section Providers.
Context {imports : Ado.Imports}.

(** X18.  A provider made by [createAuthenticator] never yields a
    credential without a token: whenever it answers with a credential,
    [getDefaultHeaders] returns the three headers, so its
    [MissingCredential] branch is not taken.  The credential of the
    ["pat"] provider is the environment variable's value and goes out as
    [Basic]; the credential of the interactive provider has the type
    ["interactive"] and goes out as [Bearer]. *)
Theorem created_provider_has_token app type0 variable provider env :
  Auth.createAuthenticator type0 variable = Ok provider ->
  (forall log,
     env_tokenProvider env log = Auth.tokenProvider_of app provider log) ->
  forall log auth,
    env_tokenProvider env log = Ok auth ->
    Js.truthy (token auth) = true
    /\ run env Ado.getDefaultHeaders log
       = (Ok (Spec.defaultHeaders auth), log ++ [TokenRequested])
    /\ match provider with
       | Auth.PatProvider pat =>
           auth = {| type := "pat"; token := Some pat |}
           /\ Js.get "Authorization" (Spec.defaultHeaders auth)
              = Some ("Basic " +:+ Js.btoa (":" +:+ pat))
       | Auth.InteractiveProvider =>
           exists accessToken,
             auth = {| type := "interactive"; token := Some accessToken |}
             /\ Js.get "Authorization" (Spec.defaultHeaders auth)
                = Some ("Bearer " +:+ accessToken)
       end.
Proof.
  intros Hcreate Henv log auth Hauth.
  assert (Hinvoke : exists this calls this' calls',
            Auth.invoke app provider this calls = (Ok auth, this', calls')).
  { rewrite Henv in Hauth. unfold Auth.tokenProvider_of in Hauth.
    destruct (Auth.after app provider (Auth.requests log)) as [this calls].
    destruct (Auth.invoke app provider this calls) as [[o this'] calls'] eqn:Hi.
    simpl in Hauth. subst o. eauto. }
  destruct Hinvoke as (this & calls & this' & calls' & Hinvoke).
  destruct (invoke_Ok _ _ _ _ _ _ _ _ _ Hcreate Hinvoke) as [Htruthy _].
  split; [exact Htruthy|].
  split; [apply run_getDefaultHeaders; assumption|].
  destruct provider as [pat|]; simpl in Hinvoke.
  - injection Hinvoke as <- _ _. split; reflexivity.
  - destruct (Auth.getToken app this calls) as [[[t|e] this0] calls0];
      [|discriminate].
    injection Hinvoke as <- _ _. exists t. split; reflexivity.
Qed.

End Providers.

Lemma getToken_silent_first_witness :
  Auth.getToken Scenarios.app {| Auth.accountId := Some "user" |}
    [Auth.AcquireTokenInteractive]
  = (Ok "silent-token", {| Auth.accountId := Some "user" |},
     [Auth.AcquireTokenInteractive; Auth.AcquireTokenSilent "user"])
  /\ forall token, Ok "silent-token" = Ok token -> token <> EmptyString.
Proof.
  split; [reflexivity|].
  exact (proj1 (getToken_silent_first Scenarios.app
                  {| Auth.accountId := Some "user" |}
                  [Auth.AcquireTokenInteractive]
                  (Ok "silent-token") {| Auth.accountId := Some "user" |}
                  [Auth.AcquireTokenInteractive; Auth.AcquireTokenSilent "user"]
                  eq_refl)).
Defined.

Lemma getToken_caches_account_witness :
  Auth.getToken Scenarios.app Auth.new_OAuthAuthenticator []
  = (Ok "interactive-token", {| Auth.accountId := Some "user" |},
     [Auth.AcquireTokenInteractive])
  /\ Auth.getToken Scenarios.app {| Auth.accountId := Some "user" |}
       [Auth.AcquireTokenInteractive]
     = (Ok "silent-token", {| Auth.accountId := Some "user" |},
        [Auth.AcquireTokenInteractive; Auth.AcquireTokenSilent "user"]).
Proof.
  pose proof (getToken_caches_account Scenarios.app
                {| Auth.accessToken := "interactive-token";
                   Auth.account := Some "user" |} "user"
                eq_refl ltac:(discriminate) eq_refl) as (Hfirst & Hsilent & _).
  split; [exact Hfirst|].
  exact (Hsilent {| Auth.accessToken := "silent-token";
                    Auth.account := Some "user" |}
           eq_refl ltac:(discriminate)).
Defined.

Lemma created_provider_has_token_witness :
  Auth.createAuthenticator None None = Ok Auth.InteractiveProvider
  /\ run (Scenarios.env_of Auth.InteractiveProvider) Ado.getDefaultHeaders []
     = (Ok (Spec.defaultHeaders
              {| type := "interactive"; token := Some "interactive-token" |}),
        [TokenRequested])
  /\ run (Scenarios.env_of Auth.InteractiveProvider) Ado.getDefaultHeaders
       [TokenRequested]
     = (Ok (Spec.defaultHeaders
              {| type := "interactive"; token := Some "silent-token" |}),
        [TokenRequested; TokenRequested]).
Proof.
  split; [reflexivity|]. split.
  - exact (proj1 (proj2 (created_provider_has_token Scenarios.app None None
                           Auth.InteractiveProvider
                           (Scenarios.env_of Auth.InteractiveProvider)
                           eq_refl (fun _ => eq_refl) []
                           {| type := "interactive";
                              token := Some "interactive-token" |}
                           eq_refl))).
  - exact (proj1 (proj2 (created_provider_has_token Scenarios.app None None
                           Auth.InteractiveProvider
                           (Scenarios.env_of Auth.InteractiveProvider)
                           eq_refl (fun _ => eq_refl) [TokenRequested]
                           {| type := "interactive";
                              token := Some "silent-token" |}
                           eq_refl))).
Defined.

(* ===================================================================== *)
(** * Further properties: the tool handlers *)
(* ===================================================================== *)

Lemma run_try_catch {A} env (p : Prog A) h log :
  run env (try_catch p h) log
  = match run env p log with
    | (Ok a, log') => (Ok a, log')
    | (Err e, log') => run env (h e) log'
    end.
Proof.
  revert log. induction p as [a|e|k IH|u o k IH]; intros log; simpl; auto.
Qed.

Section Handlers.
Context {imports : Ado.Imports} {tools : Tools.Imports}.

Lemma run_get_pr_changes env log sched prUrl :
  run env (Tools.get_pr_changes sched prUrl) log
  = match run env (Ado.getPrFileChanges sched prUrl) log with
    | (Ok changes, log') =>
        (Ok (Tools.text_result
               (Tools.JSON_stringify_payload
                  {| Tools.success := true;
                     Tools.changesCount := length changes;
                     Tools.payload_changes := changes |})
               false), log')
    | (Err e, log') =>
        (Ok (Tools.text_result
               ("Error fetching PR changes: " +:+ Tools.errorMessage e) true),
         log')
    end.
Proof.
  unfold Tools.get_pr_changes. rewrite run_try_catch, run_mbind.
  destruct (run env (Ado.getPrFileChanges sched prUrl) log) as [[changes|e] log'];
    reflexivity.
Qed.

Lemma run_post_pr_comment env log input :
  run env (Tools.post_pr_comment input) log
  = match run env (Ado.postPrComment (opt_prUrl input) input) log with
    | (Ok _, log') => (Ok (Tools.text_result Tools.success_true false), log')
    | (Err e, log') =>
        (Ok (Tools.text_result
               ("Error posting comment: " +:+ Tools.errorMessage e) true),
         log')
    end.
Proof.
  unfold Tools.post_pr_comment. rewrite run_try_catch, run_mbind.
  destruct (run env (Ado.postPrComment (opt_prUrl input) input) log)
    as [[[]|e] log']; reflexivity.
Qed.

(** X19.  The two tool handlers never throw.  Every run returns a result
    with exactly one text item and makes the requests of the helper's
    operation and no other; the result is marked as an error exactly when
    the operation failed, and its text is then the handler's prefix
    followed by the message of the error. *)
Theorem handlers_never_throw env log :
  (forall sched prUrl,
     exists result,
       run env (Tools.get_pr_changes sched prUrl) log
       = (Ok result,
          snd (run env (Ado.getPrFileChanges sched prUrl) log))
       /\ length (Tools.tr_content result) = 1%nat
       /\ match fst (run env (Ado.getPrFileChanges sched prUrl) log) with
          | Ok _ => Tools.isError result = false
          | Err e =>
              result
              = Tools.text_result
                  ("Error fetching PR changes: " +:+ Tools.errorMessage e) true
          end)
  /\ (forall input,
        exists result,
          run env (Tools.post_pr_comment input) log
          = (Ok result,
             snd (run env (Ado.postPrComment (opt_prUrl input) input) log))
          /\ length (Tools.tr_content result) = 1%nat
          /\ match fst (run env (Ado.postPrComment (opt_prUrl input) input)
                          log) with
             | Ok _ => result = Tools.text_result Tools.success_true false
             | Err e =>
                 result
                 = Tools.text_result
                     ("Error posting comment: " +:+ Tools.errorMessage e) true
             end).
Proof.
  split.
  - intros sched prUrl. rewrite run_get_pr_changes.
    destruct (run env (Ado.getPrFileChanges sched prUrl) log)
      as [[changes|e] log']; eexists; repeat split; reflexivity.
  - intros input. rewrite run_post_pr_comment.
    destruct (run env (Ado.postPrComment (opt_prUrl input) input) log)
      as [[[]|e] log']; eexists; repeat split; reflexivity.
Qed.

(** X20.  On a URL that does not parse, both handlers return at once, with
    no token request and no HTTP request, an error result whose text is
    the handler's prefix followed by
    [Invalid Azure DevOps PR URL format]. *)
Theorem handlers_report_invalid_url env log e :
  (forall sched prUrl,
     Ado.parsePrUrl prUrl = Err e ->
     run env (Tools.get_pr_changes sched prUrl) log
     = (Ok (Tools.text_result
              "Error fetching PR changes: Invalid Azure DevOps PR URL format"
              true), log))
  /\ (forall input,
        Ado.parsePrUrl (opt_prUrl input) = Err e ->
        run env (Tools.post_pr_comment input) log
        = (Ok (Tools.text_result
                 "Error posting comment: Invalid Azure DevOps PR URL format"
                 true), log)).
Proof.
  split.
  - intros sched prUrl Hparse. rewrite run_get_pr_changes.
    unfold Ado.getPrFileChanges. rewrite Hparse.
    rewrite (parsePrUrl_Err _ _ Hparse). reflexivity.
  - intros input Hparse. rewrite run_post_pr_comment.
    unfold Ado.postPrComment. rewrite Hparse.
    rewrite (parsePrUrl_Err _ _ Hparse). reflexivity.
Qed.

(** X21.  What [get_pr_changes] reports on success.  A result that is not
    marked as an error is the serialization of [success: true], of the
    patches, one for each eligible entry of the change list the run
    fetched, in the order of the list, and of their number as
    [changesCount]; this number is at least 1. *)
Theorem get_pr_changes_reports_eligible env log sched prUrl result log' :
  run env (Tools.get_pr_changes sched prUrl) log = (Ok result, log') ->
  Tools.isError result = false ->
  exists prInfo prDetails changes log1 log2 fileChanges,
    Ado.parsePrUrl prUrl = Ok prInfo
    /\ (let baseUrl :=
          Ado.getBaseUrl (organization prInfo) (project prInfo)
            (repository prInfo) in
        run env (Ado.getPrDetails
                   (Ado.getPrDetailsUrl baseUrl (pullRequestId prInfo))) log
        = (Ok prDetails, log1)
        /\ run env (Ado.getGitChanges
                      (Ado.getDiffsUrl baseUrl
                         (Ado.branchName (sourceRefName prDetails))
                         (Ado.branchName (targetRefName prDetails)))) log1
           = (Ok changes, log2))
    /\ (let fileItems := map item (List.filter Ado.isSupportedChange changes) in
        result
        = Tools.text_result
            (Tools.JSON_stringify_payload
               {| Tools.success := true;
                  Tools.changesCount := length fileItems;
                  Tools.payload_changes := fileChanges |})
            false
        /\ (1 <= length fileItems)%nat
        /\ map filePath fileChanges = map path fileItems
        /\ Forall2 Spec.diffOf fileItems fileChanges).
Proof.
  rewrite run_get_pr_changes.
  destruct (run env (Ado.getPrFileChanges sched prUrl) log)
    as [[fileChanges|e] log0] eqn:Hrun.
  - intros [= <- <-] _.
    destruct (getPrFileChanges_slots _ _ _ _ _ _ Hrun)
      as (prInfo & prDetails & changes & log1 & log2 & Hparse & Hruns
          & Hne & Hlen & Hpaths & Hslots).
    exists prInfo, prDetails, changes, log1, log2, fileChanges.
    split; [exact Hparse|]. split; [exact Hruns|]. cbv zeta.
    rewrite <- Hlen. repeat split; try assumption.
    rewrite Hlen. destruct (map item _); [contradiction|simpl; lia].
  - intros [= <- <-] Herror. discriminate Herror.
Qed.

End Handlers.

Lemma handlers_report_invalid_url_witness :
  run (Sample.env "pr:active")
    (Tools.get_pr_changes (ado:=Sample.imports) (tools:=Scenarios.tools)
       Sample.schedule "https://example.com/pullrequest/1") []
  = (Ok (Tools.text_result
           "Error fetching PR changes: Invalid Azure DevOps PR URL format"
           true), []).
Proof.
  apply (proj1 (handlers_report_invalid_url (imports:=Sample.imports)
                  (tools:=Scenarios.tools) (Sample.env "pr:active") []
                  Ado.InvalidLocator)).
  reflexivity.
Defined.

Lemma get_pr_changes_reports_eligible_witness :
  run (Sample.env "pr:active")
    (Tools.get_pr_changes (ado:=Sample.imports) (tools:=Scenarios.tools)
       Sample.schedule Sample.prUrl) []
  = (Ok (Tools.text_result "changes:3" false),
     snd (run (Sample.env "pr:active")
            (Ado.getPrFileChanges (imports:=Sample.imports) Sample.schedule
               Sample.prUrl) []))
  /\ exists (fileItems : list GitItem) fileChanges,
       (1 <= length fileItems)%nat
       /\ map filePath fileChanges = map path fileItems
       /\ Tools.text_result "changes:3" false
          = Tools.text_result
              (Tools.JSON_stringify_payload (Imports:=Scenarios.tools)
                 {| Tools.success := true;
                    Tools.changesCount := length fileItems;
                    Tools.payload_changes := fileChanges |})
              false.
Proof.
  assert (Hrun :
    run (Sample.env "pr:active")
      (Tools.get_pr_changes (ado:=Sample.imports) (tools:=Scenarios.tools)
         Sample.schedule Sample.prUrl) []
    = (Ok (Tools.text_result "changes:3" false),
       snd (run (Sample.env "pr:active")
              (Ado.getPrFileChanges (imports:=Sample.imports) Sample.schedule
                 Sample.prUrl) []))) by (vm_compute; reflexivity).
  split; [exact Hrun|].
  destruct (get_pr_changes_reports_eligible (imports:=Sample.imports)
              (tools:=Scenarios.tools) _ _ _ _ _ _ Hrun eq_refl)
    as (prInfo & prDetails & changes & log1 & log2 & fileChanges & _ & _
        & Hresult & Hcount & Hpaths & _).
  exists (map item (List.filter Ado.isSupportedChange changes)), fileChanges.
  split; [exact Hcount|]. split; [exact Hpaths|exact Hresult].
Defined.

(* ===================================================================== *)
(** * Further properties: which blobs are requested *)
(* ===================================================================== *)

Lemma fetches_app log1 log2 : fetches (log1 ++ log2) = fetches log1 ++ fetches log2.
Proof. apply flat_map_app. Qed.

Lemma asks_bind P {A B} (p : Prog A) (f : A -> Prog B) :
  asks P p -> (forall a, asks P (f a)) -> asks P (p ≫= f).
Proof.
  intros Hp Hf. induction p as [a|e|k IH|u o k IH]; simpl in *; auto.
  destruct Hp as [Hu Hk]. auto.
Qed.

Lemma asks_run P {A} env (p : Prog A) log outcome log' :
  asks P p -> run env p log = (outcome, log') ->
  exists added,
    log' = log ++ added
    /\ Forall (fun uo => P (fst uo) (snd uo)) (fetches added).
Proof.
  revert log. induction p as [a|e|k IH|u o k IH]; simpl; intros log Hp Hrun.
  - injection Hrun as _ <-. exists []. rewrite app_nil_r. split; constructor.
  - injection Hrun as _ <-. exists []. rewrite app_nil_r. split; constructor.
  - destruct (IH _ _ (Hp _) Hrun) as (added & -> & Hadded).
    exists (TokenRequested :: added). rewrite <- app_assoc. auto.
  - destruct Hp as [Hu Hk].
    destruct (IH _ _ (Hk _) Hrun) as (added & -> & Hadded).
    exists (Fetched u o :: added). rewrite <- app_assoc.
    split; [reflexivity|]. simpl. constructor; assumption.
Qed.

Lemma join_in_order_asks P {A} (pool : list (Prog A)) :
  Forall (asks P) pool -> asks P (join_in_order pool).
Proof.
  induction 1 as [|p pool Hp _ IH]; simpl; [exact I|].
  apply (asks_bind P p); [exact Hp|]. intros v.
  apply (asks_bind P (join_in_order pool)); [exact IH|].
  intros vs. exact I.
Qed.

Lemma Promise_all_asks P {A} sched (pool : list (Prog A)) :
  Forall (asks P) pool -> asks P (Promise_all sched pool).
Proof.
  revert pool. induction sched as [|i sched IH]; intros pool Hpool; simpl.
  - apply join_in_order_asks, Hpool.
  - destruct (pool !! i) as [p|] eqn:Hi; [|apply IH, Hpool].
    pose proof (Forall_lookup_1 _ _ _ _ Hpool Hi) as Hp.
    destruct p as [a|e|k|u o k]; simpl in *.
    + apply IH, Hpool.
    + exact I.
    + intros r. apply IH, Forall_insert; auto.
    + destruct Hp as [Hu Hk]. split; [exact Hu|].
      intros r. apply IH, Forall_insert; auto.
Qed.

Lemma asks_mono (P Q : string -> RequestInit -> Prop) {A} (p : Prog A) :
  (forall u o, P u o -> Q u o) -> asks P p -> asks Q p.
Proof.
  intros HPQ. induction p as [a|e|k IH|u o k IH]; simpl; auto.
  intros [Hu Hk]. auto.
Qed.

Lemma getBlobContent_asks url :
  asks (fun u o =>
          u = url /\ method o = None
          /\ Js.get "Accept" (default [] (headers o)) = Some "text/plain")
    (Ado.getBlobContent url).
Proof.
  unfold Ado.getBlobContent, Ado.sendRequest, Ado.getDefaultHeaders.
  simpl. intros [auth|e]; simpl; [|exact I].
  destruct (Js.truthy (token auth)); simpl; [|exact I].
  split; [auto|]. intros [resp|e]; simpl; [|exact I].
  destruct (ok resp); exact I.
Qed.

Lemma asks_exactly_perm {A} us vs (p : Prog A) :
  us ≡ₚ vs -> asks_exactly us p -> asks_exactly vs p.
Proof.
  revert us vs. induction p as [a|e|k IH|u o k IH]; simpl; intros us vs Hperm.
  - intros ->. symmetry in Hperm. apply Permutation_nil_r in Hperm.
    exact Hperm.
  - auto.
  - intros Hp r. exact (IH r us vs Hperm (Hp r)).
  - intros (us' & Hus & Hk). exists us'. split; [|exact Hk].
    rewrite <- Hperm. exact Hus.
Qed.

Lemma asks_exactly_bind {A B} us vs (p : Prog A) (f : A -> Prog B) :
  asks_exactly us p -> (forall a, asks_exactly vs (f a)) ->
  asks_exactly (us ++ vs) (p ≫= f).
Proof.
  intros Hp Hf. revert us Hp.
  induction p as [a|e|k IH|u o k IH]; simpl; intros us Hp.
  - subst us. apply Hf.
  - exact I.
  - intros r. apply IH, Hp.
  - destruct Hp as (us' & Hus & Hk). exists (us' ++ vs). split.
    + rewrite Hus. reflexivity.
    + intros r. apply IH, Hk.
Qed.

Lemma asks_exactly_run {A} us env (p : Prog A) log a log' :
  asks_exactly us p -> run env p log = (Ok a, log') ->
  exists added, log' = log ++ added /\ map fst (fetches added) ≡ₚ us.
Proof.
  revert us log. induction p as [a0|e|k IH|u o k IH]; simpl;
    intros us log Hp Hrun.
  - injection Hrun as _ <-. subst us. exists []. rewrite app_nil_r. auto.
  - discriminate.
  - destruct (IH _ _ _ (Hp _) Hrun) as (added & -> & Hadded).
    exists (TokenRequested :: added). rewrite <- app_assoc. auto.
  - destruct Hp as (us' & Hus & Hk).
    destruct (IH _ _ _ (Hk _) Hrun) as (added & -> & Hadded).
    exists (Fetched u o :: added). rewrite <- app_assoc.
    split; [reflexivity|]. simpl. rewrite Hadded, Hus. reflexivity.
Qed.

Lemma join_in_order_asks_exactly {A} uss (pool : list (Prog A)) :
  Forall2 asks_exactly uss pool ->
  asks_exactly (concat uss) (join_in_order pool).
Proof.
  induction 1 as [|us p uss pool Hp _ IH]; simpl; [reflexivity|].
  apply (asks_exactly_bind us (concat uss) p); [exact Hp|]. intros v.
  rewrite <- (app_nil_r (concat uss)).
  apply (asks_exactly_bind (concat uss) [] (join_in_order pool)); [exact IH|].
  intros vs. reflexivity.
Qed.

Lemma concat_insert_perm (uss : list (list string)) i us u us' :
  uss !! i = Some us -> us ≡ₚ u :: us' ->
  concat uss ≡ₚ u :: concat (<[i := us']> uss).
Proof.
  revert i. induction uss as [|vs uss IH]; intros i Hi Hus; [discriminate|].
  destruct i as [|i]; simpl in *.
  - injection Hi as ->. rewrite Hus. reflexivity.
  - rewrite (IH _ Hi Hus). symmetry. apply Permutation_middle.
Qed.

Lemma Promise_all_asks_exactly {A} sched uss (pool : list (Prog A)) :
  Forall2 asks_exactly uss pool ->
  asks_exactly (concat uss) (Promise_all sched pool).
Proof.
  revert uss pool.
  induction sched as [|i sched IH]; intros uss pool Hpool; simpl.
  - apply join_in_order_asks_exactly, Hpool.
  - destruct (pool !! i) as [p|] eqn:Hi; [|apply IH, Hpool].
    destruct (Forall2_lookup_r _ _ _ _ _ Hpool Hi) as (us & Hus & Hp).
    destruct p as [a|e|k|u o k]; simpl in *.
    + apply IH, Hpool.
    + exact I.
    + intros r. rewrite <- (list_insert_id uss i us) by exact Hus.
      apply IH, Forall2_insert; [exact Hpool|apply Hp].
    + destruct Hp as (us' & Hperm & Hk). exists (concat (<[i := us']> uss)).
      split; [exact (concat_insert_perm uss i us u us' Hus Hperm)|].
      intros r. apply IH, Forall2_insert; [exact Hpool|apply Hk].
Qed.

Lemma getBlobContent_asks_exactly url :
  asks_exactly [url] (Ado.getBlobContent url).
Proof.
  unfold Ado.getBlobContent, Ado.sendRequest, Ado.getDefaultHeaders.
  simpl. intros [auth|e]; simpl; [|exact I].
  destruct (Js.truthy (token auth)); simpl; [|exact I].
  exists []. split; [reflexivity|].
  intros [resp|e]; simpl; [|exact I].
  destruct (ok resp); simpl; auto.
Qed.

Section Blobs.
Context {imports : Ado.Imports}.

Lemma getFilePatch_asks f baseUrl :
  asks (fun u o =>
          (exists sha,
              (originalObjectId f = Some sha \/ objectId f = Some sha)
              /\ sha <> EmptyString
              /\ u = Ado.getBlobUrl baseUrl sha)
          /\ method o = None
          /\ Js.get "Accept" (default [] (headers o)) = Some "text/plain")
    (Ado.getFilePatch f baseUrl).
Proof.
  unfold Ado.getFilePatch. cbv zeta.
  assert (Hblob : forall id0 : option string,
            originalObjectId f = id0 \/ objectId f = id0 ->
            asks (fun u o =>
                    (exists sha,
                        (originalObjectId f = Some sha \/ objectId f = Some sha)
                        /\ sha <> EmptyString
                        /\ u = Ado.getBlobUrl baseUrl sha)
                    /\ method o = None
                    /\ Js.get "Accept" (default [] (headers o))
                       = Some "text/plain")
              (if Js.truthy id0
               then Ado.getBlobContent
                      (Ado.getBlobUrl baseUrl (default EmptyString id0))
               else Ret None)).
  { intros [sha|] Hid; [|exact I].
    destruct (String.eqb_spec sha EmptyString) as [->|Hne]; [exact I|].
    rewrite truthy_Some by assumption.
    change (default EmptyString (Some sha)) with sha.
    eapply asks_mono; [|apply getBlobContent_asks].
    intros u o (-> & Hm & Ha). split; [|auto].
    exists sha. auto. }
  apply asks_bind; [apply Hblob; auto|]. intros sourceContent.
  apply asks_bind; [apply Hblob; auto|]. intros newContent.
  exact I.
Qed.

Lemma getFilePatch_asks_exactly f baseUrl :
  asks_exactly (blobUrls baseUrl f) (Ado.getFilePatch f baseUrl).
Proof.
  unfold Ado.getFilePatch, blobUrls. cbv zeta.
  assert (Hblob : forall id0 : option string,
            asks_exactly
              (if Js.truthy id0
               then [Ado.getBlobUrl baseUrl (default EmptyString id0)]
               else [])
              (if Js.truthy id0
               then Ado.getBlobContent
                      (Ado.getBlobUrl baseUrl (default EmptyString id0))
               else Ret None)).
  { intros id0. destruct (Js.truthy id0); [apply getBlobContent_asks_exactly|].
    reflexivity. }
  apply asks_exactly_bind; [apply Hblob|]. intros sourceContent.
  rewrite <- (app_nil_r (if Js.truthy (objectId f) then _ else _)).
  apply asks_exactly_bind; [apply Hblob|]. intros newContent. reflexivity.
Qed.

(** X22.  Which blobs are requested.  After the change list has been
    fetched, every request of [getPrFileChanges], on any run and in any
    order of the per-file tasks, goes to the blob URL of a non-empty
    [originalObjectId] or [objectId] of an eligible entry, without a
    method and with [Accept: text/plain].  On a run that returns the list,
    the requests made after the change list are, up to their order,
    exactly one for each non-empty [originalObjectId] and one for each
    non-empty [objectId] of each eligible entry: each URL is requested as
    many times as it stands in these slots, so a blob id that stands in
    both slots of an entry, or in several entries, is downloaded once for
    each, and no slot is requested twice or left out. *)
Theorem only_eligible_blobs_requested env sched prUrl log prInfo prDetails
    changes log1 log2 outcome log' :
  Ado.parsePrUrl prUrl = Ok prInfo ->
  let baseUrl :=
    Ado.getBaseUrl (organization prInfo) (project prInfo) (repository prInfo) in
  let sourceBranch := Ado.branchName (sourceRefName prDetails) in
  let targetBranch := Ado.branchName (targetRefName prDetails) in
  let fileItems := map item (List.filter Ado.isSupportedChange changes) in
  run env (Ado.getPrDetails
             (Ado.getPrDetailsUrl baseUrl (pullRequestId prInfo))) log
  = (Ok prDetails, log1) ->
  sourceBranch <> EmptyString -> targetBranch <> EmptyString ->
  run env (Ado.getGitChanges
             (Ado.getDiffsUrl baseUrl sourceBranch targetBranch)) log1
  = (Ok changes, log2) ->
  run env (Ado.getPrFileChanges sched prUrl) log = (outcome, log') ->
  exists added,
    log' = log2 ++ added
    /\ Forall (fun uo =>
                 (exists f sha,
                     In f fileItems
                     /\ (originalObjectId f = Some sha \/ objectId f = Some sha)
                     /\ sha <> EmptyString
                     /\ fst uo = Ado.getBlobUrl baseUrl sha)
                 /\ method (snd uo) = None
                 /\ Js.get "Accept" (default [] (headers (snd uo)))
                    = Some "text/plain")
         (fetches added)
    /\ (forall res,
          outcome = Ok res ->
          map fst (fetches added) ≡ₚ flat_map (blobUrls baseUrl) fileItems).
Proof.
  intros Hparse baseUrl sourceBranch targetBranch fileItems Hdetails
    Hsource Htarget Hchanges.
  rewrite (run_getPrFileChanges_changes env sched prUrl log prInfo prDetails
             changes log1 log2) by assumption.
  destruct (length changes =? 0)%nat eqn:Hnone.
  { intros [= <- <-]. exists []. rewrite app_nil_r.
    split; [reflexivity|]. split; [constructor|]. intros _ _.
    apply Nat.eqb_eq, nil_length_inv in Hnone. subst fileItems.
    rewrite Hnone. reflexivity. }
  cbv zeta. fold fileItems.
  destruct (length fileItems =? 0)%nat eqn:Hnofile.
  { intros [= <- <-]. exists []. rewrite app_nil_r.
    split; [reflexivity|]. split; [constructor|]. intros _ _.
    apply Nat.eqb_eq, nil_length_inv in Hnofile.
    rewrite Hnofile. reflexivity. }
  intros Hrun.
  set (P := fun u o =>
              (exists f sha,
                  In f fileItems
                  /\ (originalObjectId f = Some sha \/ objectId f = Some sha)
                  /\ sha <> EmptyString
                  /\ u = Ado.getBlobUrl baseUrl sha)
              /\ method o = None
              /\ Js.get "Accept" (default [] (headers o)) = Some "text/plain").
  destruct (asks_run P env _ log2 outcome log'
              (Promise_all_asks P sched
                 (map (fun f => Ado.getFilePatch f baseUrl) fileItems)
                 ltac:(apply Forall_fmap, List.Forall_forall; intros f Hf;
                       eapply asks_mono; [|apply getFilePatch_asks];
                       intros u o ((sha & Hsha & Hne & Hu) & Hm & Ha);
                       split; [exists f, sha|]; auto))
              Hrun) as (added & -> & Hadded).
  exists added. split; [reflexivity|]. split; [exact Hadded|].
  intros res ->.
  destruct (asks_exactly_run (concat (map (blobUrls baseUrl) fileItems)) env _
              log2 res (log2 ++ added)
              (Promise_all_asks_exactly sched (map (blobUrls baseUrl) fileItems)
                 (map (fun f => Ado.getFilePatch f baseUrl) fileItems)
                 ltac:(apply Forall2_fmap, Forall_Forall2_diag,
                         List.Forall_forall;
                       intros f _; apply getFilePatch_asks_exactly))
              Hrun) as (added' & Heq & Hperm).
  apply app_inv_head in Heq. subst added'.
  rewrite flat_map_concat_map. exact Hperm.
Qed.

End Blobs.

Lemma only_eligible_blobs_requested_witness :
  exists added,
    snd (run (Sample.env "pr:active")
           (Ado.getPrFileChanges (imports:=Sample.imports) Sample.schedule
              Sample.prUrl) [])
    = snd (run (Sample.env "pr:active")
             (Ado.getGitChanges (imports:=Sample.imports) Sample.diffsUrl)
             (snd (run (Sample.env "pr:active")
                     (Ado.getPrDetails (imports:=Sample.imports)
                        Sample.prDetailsUrl) [])))
      ++ added
    /\ map fst (fetches added)
       ≡ₚ [Ado.getBlobUrl Sample.baseUrl "o1";
           Ado.getBlobUrl Sample.baseUrl "n1";
           Ado.getBlobUrl Sample.baseUrl "n2"].
Proof.
  destruct (only_eligible_blobs_requested (imports:=Sample.imports)
              (Sample.env "pr:active") Sample.schedule Sample.prUrl []
              Scenarios.prInfo (Sample.pullRequest "active" "succeeded")
              Sample.gitChanges
              (snd (run (Sample.env "pr:active")
                      (Ado.getPrDetails (imports:=Sample.imports)
                         Sample.prDetailsUrl) []))
              (snd (run (Sample.env "pr:active")
                      (Ado.getGitChanges (imports:=Sample.imports)
                         Sample.diffsUrl)
                      (snd (run (Sample.env "pr:active")
                              (Ado.getPrDetails (imports:=Sample.imports)
                                 Sample.prDetailsUrl) []))))
              (fst (run (Sample.env "pr:active")
                      (Ado.getPrFileChanges (imports:=Sample.imports)
                         Sample.schedule Sample.prUrl) []))
              (snd (run (Sample.env "pr:active")
                      (Ado.getPrFileChanges (imports:=Sample.imports)
                         Sample.schedule Sample.prUrl) [])))
    as (added & Hlog & _ & Hexact).
  - reflexivity.
  - vm_compute. reflexivity.
  - discriminate.
  - discriminate.
  - vm_compute. reflexivity.
  - apply surjective_pairing.
  - exists added. split; [exact Hlog|].
    apply (Hexact (match fst (run (Sample.env "pr:active")
                                (Ado.getPrFileChanges (imports:=Sample.imports)
                                   Sample.schedule Sample.prUrl) []) with
                   | Ok res => res
                   | Err _ => []
                   end)).
    vm_compute. reflexivity.
Defined.

(* ===================================================================== *)
(** * Further properties: the order of the downloads does not matter *)
(* ===================================================================== *)

Lemma run_stateless {A} env (p : Prog A) log log' :
  stateless env -> fst (run env p log) = fst (run env p log').
Proof.
  intros Henv. revert log log'.
  induction p as [a|e|k IH|u o k IH]; intros log log'; simpl; auto.
  - rewrite (proj1 (Henv log log')). apply IH.
  - rewrite (proj2 (Henv log log') u o). apply IH.
Qed.

Lemma value_run {A} env (p : Prog A) log :
  stateless env -> fst (run env p log) = value env p.
Proof. intros Henv. apply run_stateless, Henv. Qed.

Lemma value_AwaitToken {A} env (k : Outcome AuthOptions -> Prog A) log :
  stateless env ->
  value env (AwaitToken k) = value env (k (env_tokenProvider env log)).
Proof.
  intros Henv. unfold value. simpl.
  rewrite (proj1 (Henv [] log)). apply run_stateless, Henv.
Qed.

Lemma value_AwaitFetch {A} env u o (k : Outcome Response -> Prog A) log :
  stateless env ->
  value env (AwaitFetch u o k) = value env (k (env_fetch env log u o)).
Proof.
  intros Henv. unfold value. simpl.
  rewrite (proj2 (Henv [] log) u o). apply run_stateless, Henv.
Qed.

Lemma join_in_order_value {A} env (pool : list (Prog A)) log :
  stateless env ->
  forall vs,
    fst (run env (join_in_order pool) log) = Ok vs
    <-> Forall2 (fun p v => value env p = Ok v) pool vs.
Proof.
  intros Henv. revert log.
  induction pool as [|p pool IH]; intros log vs; simpl.
  - split.
    + intros [= <-]. constructor.
    + intros Hall. inversion Hall. reflexivity.
  - rewrite run_bind.
    pose proof (value_run env p log Henv) as Hp.
    destruct (run env p log) as [[v|e] log1]; simpl in Hp.
    + rewrite run_bind. specialize (IH log1).
      destruct (run env (join_in_order pool) log1) as [[vs'|e] log2];
        simpl in *; split.
      * intros [= <-]. constructor; [auto|]. apply IH. reflexivity.
      * intros Hall. inversion Hall as [|? v0 ? vs0 Hv Hvs]; subst.
        apply IH in Hvs. congruence.
      * discriminate.
      * intros Hall. inversion Hall as [|? v0 ? vs0 Hv Hvs]; subst.
        apply IH in Hvs. discriminate.
    + split; [discriminate|].
      intros Hall. inversion Hall; subst. congruence.
Qed.

Lemma Forall2_value_insert {A} env (pool : list (Prog A)) i p q vs :
  pool !! i = Some p ->
  value env p = value env q ->
  Forall2 (fun p v => value env p = Ok v) (<[i := q]> pool) vs
  <-> Forall2 (fun p v => value env p = Ok v) pool vs.
Proof.
  intros Hi Hpq. rewrite !Forall2_same_length_lookup, length_insert.
  split; intros [Hlen Hall]; (split; [exact Hlen|]); intros j x y Hx Hy.
  - destruct (decide (i = j)) as [->|Hne].
    + rewrite Hi in Hx. injection Hx as <-. rewrite Hpq.
      apply (Hall j q y); [|exact Hy].
      apply list_lookup_insert_eq. eapply lookup_lt_Some, Hi.
    + apply (Hall j x y); [|exact Hy].
      rewrite list_lookup_insert_ne by assumption. exact Hx.
  - destruct (decide (i = j)) as [->|Hne].
    + rewrite list_lookup_insert_eq in Hx by (eapply lookup_lt_Some, Hi).
      injection Hx as <-. rewrite <- Hpq. apply (Hall j p y); assumption.
    + rewrite list_lookup_insert_ne in Hx by assumption.
      apply (Hall j x y); assumption.
Qed.

Lemma Promise_all_value {A} env sched (pool : list (Prog A)) log :
  stateless env ->
  forall vs,
    fst (run env (Promise_all sched pool) log) = Ok vs
    <-> Forall2 (fun p v => value env p = Ok v) pool vs.
Proof.
  intros Henv. revert pool log.
  induction sched as [|i sched IH]; intros pool log vs; simpl.
  - apply join_in_order_value, Henv.
  - destruct (pool !! i) as [p|] eqn:Hi; [|apply IH].
    destruct p as [a|e|k|u o k]; simpl.
    + apply IH.
    + split; [discriminate|]. intros Hall.
      destruct (Forall2_lookup_l _ _ _ _ _ Hall Hi) as (v & _ & Hv).
      discriminate Hv.
    + rewrite IH. apply Forall2_value_insert with (p := AwaitToken k);
        [exact Hi|]. apply value_AwaitToken, Henv.
    + rewrite IH. apply Forall2_value_insert with (p := AwaitFetch u o k);
        [exact Hi|]. apply value_AwaitFetch, Henv.
Qed.

Section Schedules.
Context {imports : Ado.Imports}.

(** X23.  The order of the downloads does not matter.  With a token
    provider and a service whose answers do not depend on the requests
    made before, when [getPrFileChanges] returns a list for one order of
    resuming the per-file tasks, it returns that same list for every other
    order. *)
Theorem result_independent_of_schedule env prUrl log sched sched' res :
  stateless env ->
  fst (run env (Ado.getPrFileChanges sched prUrl) log) = Ok res ->
  fst (run env (Ado.getPrFileChanges sched' prUrl) log) = Ok res.
Proof.
  intros Henv. unfold Ado.getPrFileChanges.
  destruct (Ado.parsePrUrl prUrl) as [prInfo|e]; [|auto].
  rewrite !settle_Ok_bind. cbv zeta. rewrite !run_mbind.
  destruct (run env (Ado.getPrDetails _) log) as [[prDetails|e] log1]; [|auto].
  destruct (_ || _); [auto|]. rewrite !run_mbind.
  destruct (run env (Ado.getGitChanges _) log1) as [[changes|e] log2]; [|auto].
  destruct (length changes =? 0)%nat; [auto|].
  destruct (length (map item (List.filter Ado.isSupportedChange changes)) =? 0)%nat;
    [auto|].
  rewrite !run_mbind.
  set (pool := map (fun f => Ado.getFilePatch f _) _).
  intros Hrun.
  assert (Hvalue : Forall2 (fun p v => value env p = Ok v) pool res).
  { apply (Promise_all_value env sched pool log2 Henv).
    destruct (run env (Promise_all sched pool) log2) as [[vs|e] log3];
      simpl in *; congruence. }
  apply (Promise_all_value env sched' pool log2 Henv) in Hvalue.
  destruct (run env (Promise_all sched' pool) log2) as [[vs|e] log3];
    simpl in *; congruence.
Qed.

End Schedules.

Lemma result_independent_of_schedule_witness :
  fst (run (Sample.env "pr:active")
         (Ado.getPrFileChanges (imports:=Sample.imports) [2; 2; 1; 0]
            Sample.prUrl) [])
  = fst (run (Sample.env "pr:active")
           (Ado.getPrFileChanges (imports:=Sample.imports) Sample.schedule
              Sample.prUrl) []).
Proof.
  assert (Hrun :
    fst (run (Sample.env "pr:active")
           (Ado.getPrFileChanges (imports:=Sample.imports) Sample.schedule
              Sample.prUrl) [])
    = Ok (match fst (run (Sample.env "pr:active")
                       (Ado.getPrFileChanges (imports:=Sample.imports)
                          Sample.schedule Sample.prUrl) []) with
          | Ok res => res
          | Err _ => []
          end)) by (vm_compute; reflexivity).
  etransitivity; [|symmetry; exact Hrun].
  apply (result_independent_of_schedule (imports:=Sample.imports)
           (Sample.env "pr:active") Sample.prUrl [] Sample.schedule
           [2; 2; 1; 0]).
  - intros log log'. split; reflexivity.
  - exact Hrun.
Defined.

(* ===================================================================== *)
(** * Further properties: the authenticator factory of the port *)
(* ===================================================================== *)

(** X24.  The factory of the C# port is [createAuthenticator] applied to
    the lower-cased type: the two agree on every type written in lower
    case, and for ["PAT"] with the environment variable set the port
    returns the PAT provider where [createAuthenticator] returns the
    interactive one. *)
Theorem CreateAuthenticator_port :
  (forall authenticationType variable,
     DotNetPort.CreateAuthenticator authenticationType variable
     = Auth.createAuthenticator
         (Some (DotNetPort.ToLowerInvariant authenticationType)) variable)
  /\ (forall authenticationType variable,
        DotNetPort.ToLowerInvariant authenticationType = authenticationType ->
        DotNetPort.CreateAuthenticator authenticationType variable
        = Auth.createAuthenticator (Some authenticationType) variable)
  /\ (forall pat,
        pat <> EmptyString ->
        DotNetPort.CreateAuthenticator "PAT" (Some pat)
        = Ok (Auth.PatProvider pat)
        /\ Auth.createAuthenticator (Some "PAT") (Some pat)
           = Ok Auth.InteractiveProvider).
Proof.
  assert (Hport : forall authenticationType variable,
    DotNetPort.CreateAuthenticator authenticationType variable
    = Auth.createAuthenticator
        (Some (DotNetPort.ToLowerInvariant authenticationType)) variable).
  { intros t variable.
    unfold DotNetPort.CreateAuthenticator, Auth.createAuthenticator.
    destruct (String.eqb_spec (DotNetPort.ToLowerInvariant t) "pat")
      as [Heq|Hne].
    - rewrite bool_decide_eq_true_2 by congruence.
      destruct variable as [pat|]; [|reflexivity].
      rewrite or_empty_Some. simpl.
      destruct (String.eqb pat EmptyString); reflexivity.
    - rewrite bool_decide_eq_false_2 by congruence. reflexivity. }
  split; [exact Hport|]. split.
  - intros t variable Hlower. rewrite Hport, Hlower. reflexivity.
  - intros pat Hne. split; [|reflexivity].
    rewrite Hport. unfold Auth.createAuthenticator. simpl.
    rewrite or_empty_Some.
    destruct (String.eqb_spec pat EmptyString); [contradiction|reflexivity].
Qed.

(* ===================================================================== *)
(** * Further properties: the pull-request id in the request URLs *)
(* ===================================================================== *)

Lemma parseInt_acc_pos d a :
  Js.parseInt_acc (N.pos a) (NilEmpty.string_of_uint d)
  = N.pos (Pos.of_uint_acc d a).
Proof.
  revert a. induction d as [|d IH|d IH|d IH|d IH|d IH|d IH|d IH|d IH|d IH|d IH];
    intros a; [reflexivity|..];
    cbn [NilEmpty.string_of_uint Js.parseInt_acc Pos.of_uint_acc];
    change (Js.is_digit _) with true; cbv iota;
    match goal with
    | |- Js.parseInt_acc ?n _ = N.pos (Pos.of_uint_acc _ ?b) =>
        replace n with (N.pos b) by (unfold Js.code; simpl; lia)
    end; apply IH.
Qed.

Lemma parseInt_string_of_uint d :
  Js.parseInt (NilEmpty.string_of_uint d) = N.of_uint d.
Proof.
  unfold Js.parseInt, N.of_uint.
  induction d as [|d IH|d IH|d IH|d IH|d IH|d IH|d IH|d IH|d IH|d IH];
    [reflexivity|exact IH|..];
    cbn [NilEmpty.string_of_uint Js.parseInt_acc Pos.of_uint];
    change (Js.is_digit _) with true; cbv iota;
    match goal with
    | |- Js.parseInt_acc ?n _ = N.pos (Pos.of_uint_acc _ ?b) =>
        change n with (N.pos b)
    end; apply parseInt_acc_pos.
Qed.

Lemma digits_string_of_uint ds :
  Js.all_chars Js.is_digit ds = true ->
  exists d, NilEmpty.string_of_uint d = ds.
Proof.
  induction ds as [|c ds IH]; [exists Decimal.Nil; reflexivity|].
  cbn [Js.all_chars]. intros [Hc Hds]%andb_true_iff.
  destruct (IH Hds) as [d <-].
  destruct c as [[] [] [] [] [] [] [] []]; try discriminate Hc;
    first [ exists (Decimal.D0 d); reflexivity
          | exists (Decimal.D1 d); reflexivity
          | exists (Decimal.D2 d); reflexivity
          | exists (Decimal.D3 d); reflexivity
          | exists (Decimal.D4 d); reflexivity
          | exists (Decimal.D5 d); reflexivity
          | exists (Decimal.D6 d); reflexivity
          | exists (Decimal.D7 d); reflexivity
          | exists (Decimal.D8 d); reflexivity
          | exists (Decimal.D9 d); reflexivity ].
Qed.

Lemma parseInt_string_of_number n : Js.parseInt (Js.string_of_number n) = n.
Proof.
  unfold Js.string_of_number, NilZero.string_of_uint.
  rewrite <- (DecimalN.Unsigned.of_to n) at 2.
  destruct (N.to_uint n); try apply parseInt_string_of_uint. reflexivity.
Qed.

Lemma string_of_number_parseInt ds :
  Spec.digits ds = true ->
  ds = "0" \/ (forall rest, ds <> String "0" rest) ->
  Js.string_of_number (Js.parseInt ds) = ds.
Proof.
  unfold Spec.digits. intros [Hne Hds]%andb_true_iff Hlead.
  destruct (digits_string_of_uint ds Hds) as [d <-].
  rewrite parseInt_string_of_uint. unfold Js.string_of_number.
  rewrite DecimalN.Unsigned.to_of.
  destruct d; try reflexivity; [discriminate Hne|].
  destruct Hlead as [Hzero|Hlead].
  - destruct d; try discriminate Hzero. reflexivity.
  - exfalso. eapply Hlead. reflexivity.
Qed.

(** X25.  The pull-request id in the request URLs.  Below 2^53, where
    numbers are exact, the text written for an id reads back as the id;
    and the number parsed from a run of digits without a leading zero is
    written as these digits, so the URLs of the pull request and of its
    threads carry the id as it stands in the pull-request URL. *)
Theorem pull_request_id_round_trip :
  (forall n, (n < 2 ^ 53)%N -> Js.parseInt (Js.string_of_number n) = n)
  /\ (forall ds,
        Spec.digits ds = true ->
        ds = "0" \/ (forall rest, ds <> String "0" rest) ->
        (Js.parseInt ds < 2 ^ 53)%N ->
        Js.string_of_number (Js.parseInt ds) = ds)
  /\ (forall baseUrl ds,
        Spec.digits ds = true ->
        ds = "0" \/ (forall rest, ds <> String "0" rest) ->
        (Js.parseInt ds < 2 ^ 53)%N ->
        Ado.getPrDetailsUrl baseUrl (Js.parseInt ds)
        = baseUrl +:+ "/pullRequests/" +:+ ds +:+ "?api-version=7.1"
        /\ Ado.getThreadUrl baseUrl (Js.parseInt ds)
           = baseUrl +:+ "/pullRequests/" +:+ ds
               +:+ "/threads?api-version=7.1").
Proof.
  split; [|split].
  - intros n _. apply parseInt_string_of_number.
  - intros ds Hds Hlead _. apply string_of_number_parseInt; assumption.
  - intros baseUrl ds Hds Hlead _.
    unfold Ado.getPrDetailsUrl, Ado.getThreadUrl.
    rewrite string_of_number_parseInt by assumption. split; reflexivity.
Qed.

Lemma pull_request_id_round_trip_witness :
  Ado.getPrDetailsUrl Sample.baseUrl (Js.parseInt "123")
  = Sample.baseUrl +:+ "/pullRequests/" +:+ "123" +:+ "?api-version=7.1".
Proof.
  apply (proj1 (proj2 (proj2 pull_request_id_round_trip) Sample.baseUrl "123"
                  eq_refl
                  (or_intror (fun rest (H : "123" = String "0" rest) =>
                                ltac:(discriminate H)))
                  eq_refl)).
Defined.

(** ** The statements on the sample entries and providers *)

Lemma IsSupportedChange_port_witness :
  DotNetPort.IsSupportedChange
    {| item := Sample.gitItem "Blob" "/a.txt" (Some "o1") (Some "n1");
       changeType := "Edit" |} = true
  /\ Ado.isSupportedChange
       {| item := Sample.gitItem "Blob" "/a.txt" (Some "o1") (Some "n1");
          changeType := "Edit" |} = false.
Proof.
  apply (proj1 (proj2 (proj2 IsSupportedChange_port))
           (Sample.gitItem "Blob" "/a.txt" (Some "o1") (Some "n1")) eq_refl).
  - exists "/a.txt". split; [reflexivity|discriminate].
  - eexists. split; [reflexivity|discriminate].
Defined.

Lemma createAuthenticator_spec_witness :
  Auth.createAuthenticator (Some "pat") (Some "abc")
  = Ok (Auth.PatProvider "abc")
  /\ Auth.createAuthenticator (Some "pat") (Some EmptyString)
     = Err Auth.PatNotFound.
Proof.
  split.
  - apply (proj1 (proj1 (proj2 createAuthenticator_spec) "abc"
                    ltac:(discriminate))).
  - apply (proj2 (proj1 createAuthenticator_spec (Some EmptyString))).
    right. reflexivity.
Defined.

Lemma CreateAuthenticator_port_witness :
  DotNetPort.CreateAuthenticator "PAT" (Some "abc")
  = Ok (Auth.PatProvider "abc")
  /\ Auth.createAuthenticator (Some "PAT") (Some "abc")
     = Ok Auth.InteractiveProvider.
Proof.
  apply (proj2 (proj2 CreateAuthenticator_port) "abc"). discriminate.
Defined.

(* ===================================================================== *)
(** * Further properties: the tool handler of the port *)
(* ===================================================================== *)

Section PortHandler.
Variable GetPrFileChangesAsync : string -> Prog (list FilePatch).
Variable PostPrCommentAsync : PrCommentOptions -> Prog unit.
Variable Serialize : Tools.ChangesPayload -> string.
Variable Convert_ToInt32 : string -> Outcome Z.

(** X26.  The edges of the port's tool handler, whatever the helper's
    operations do.  A call without a tool name, without arguments or for a
    name other than the two tools returns the error result
    [Unknown tool]; a call that lacks [prUrl] returns the tool's error
    result for [prUrl is required], and [post_pr_comment] with a [prUrl]
    but no [comment] the one for [comment is required]; in all these
    cases the helper is not called.  No call of the handler throws. *)
Theorem CallToolHandler_edges :
  let handler :=
    DotNetTools.CallToolHandler GetPrFileChangesAsync PostPrCommentAsync
      Serialize Convert_ToInt32 in
  (forall toolName args,
     toolName = None \/ args = None
     \/ (toolName <> Some "get_pr_changes"
         /\ toolName <> Some "post_pr_comment") ->
     handler toolName args = Ret (Tools.text_result "Unknown tool" true))
  /\ (forall args : DotNetTools.Arguments,
        args !! "prUrl" = None ->
        handler (Some "get_pr_changes") (Some args)
        = Ret (Tools.text_result
                 "Error fetching PR changes: prUrl is required" true)
        /\ handler (Some "post_pr_comment") (Some args)
           = Ret (Tools.text_result
                    "Error posting comment: prUrl is required" true))
  /\ (forall (args : DotNetTools.Arguments) prUrl,
        args !! "prUrl" = Some prUrl ->
        args !! "comment" = None ->
        handler (Some "post_pr_comment") (Some args)
        = Ret (Tools.text_result
                 "Error posting comment: comment is required" true))
  /\ (forall env log toolName args,
        exists result log',
          run env (handler toolName args) log = (Ok result, log')
          /\ length (Tools.tr_content result) = 1%nat).
Proof.
  intros handler. unfold handler. split; [|split; [|split]].
  - intros [toolName|] [args|] Hcase; try reflexivity.
    unfold DotNetTools.CallToolHandler.
    destruct Hcase as [Hcase|[Hcase|[Hget Hpost]]]; try discriminate Hcase.
    destruct (String.eqb_spec toolName "get_pr_changes") as [->|_];
      [contradiction Hget; reflexivity|].
    destruct (String.eqb_spec toolName "post_pr_comment") as [->|_];
      [contradiction Hpost; reflexivity|].
    reflexivity.
  - intros args Hurl. unfold DotNetTools.CallToolHandler. simpl.
    unfold DotNetTools.GetStringValue. rewrite Hurl. split; reflexivity.
  - intros args prUrl Hurl Hcomment. unfold DotNetTools.CallToolHandler.
    simpl. unfold DotNetTools.GetStringValue. rewrite Hurl, Hcomment.
    reflexivity.
  - intros env log toolName args. unfold DotNetTools.CallToolHandler.
    assert (Hcatch : forall (p : Prog Tools.CallToolResult) prefix,
      exists result log',
        run env
          (try_catch p
             (fun ex =>
                Ret (DotNetTools.CreateCallToolResult
                       (prefix +:+ Tools.errorMessage ex) true))) log
        = (Ok result, log')
        /\ (length (Tools.tr_content result) = 1%nat
            \/ exists a log0, run env p log = (Ok a, log0) /\ result = a)).
    { intros p prefix. rewrite run_try_catch.
      destruct (run env p log) as [[a|e] log0]; simpl; eauto 8. }
    destruct toolName as [toolName|], args as [args|];
      try (do 2 eexists; split; reflexivity).
    destruct (String.eqb toolName "get_pr_changes").
    + destruct (Hcatch
                  (prUrl ← settle (DotNetTools.GetStringValue args "prUrl");
                   changes ← GetPrFileChangesAsync prUrl;
                   Ret (DotNetTools.CreateCallToolResult
                          (Serialize
                             {| Tools.success := true;
                                Tools.changesCount := length changes;
                                Tools.payload_changes := changes |})
                          false))
                  "Error fetching PR changes: ")
        as (result & log' & Hrun & [Hlen|(a & log0 & Ha & ->)]).
      * exists result, log'. auto.
      * exists a, log'. split; [exact Hrun|].
        apply run_bind_Ok in Ha as (prUrl & log1 & _ & Ha).
        apply run_bind_Ok in Ha as (changes & log2 & _ & Ha).
        simpl in Ha. injection Ha as <- _. reflexivity.
    + destruct (String.eqb toolName "post_pr_comment");
        [|do 2 eexists; split; reflexivity].
      match goal with
      | |- exists result log', run env (try_catch ?p _) log = _ /\ _ =>
          destruct (Hcatch p "Error posting comment: ")
            as (result & log' & Hrun & [Hlen|(a & log0 & Ha & ->)])
      end.
      * exists result, log'. auto.
      * exists a, log'. split; [exact Hrun|].
        repeat (apply run_bind_Ok in Ha as (? & ? & _ & Ha)).
        simpl in Ha. injection Ha as <- _. reflexivity.
Qed.

End PortHandler.

Lemma CallToolHandler_edges_witness :
  DotNetTools.CallToolHandler (fun _ => Ret []) (fun _ => Ret tt)
    (fun _ => EmptyString) (fun _ => Ok 0%Z)
    (Some "post_pr_comment")
    (Some ({[ "prUrl" := Sample.prUrl ]} : DotNetTools.Arguments))
  = Ret (Tools.text_result "Error posting comment: comment is required" true).
Proof.
  apply (proj1 (proj2 (proj2
           (CallToolHandler_edges (fun _ => Ret []) (fun _ => Ret tt)
              (fun _ => EmptyString) (fun _ => Ok 0%Z))))
           ({[ "prUrl" := Sample.prUrl ]} : DotNetTools.Arguments)
           Sample.prUrl).
  - apply lookup_singleton_eq.
  - apply lookup_singleton_ne. discriminate.
Defined.
